(** * LocalDesk: the agent runner and the tool executor

    A shallow embedding of the orchestration core of the application:
    - [tools-executor.ts]   (class [ToolExecutor]: [isPathSafe], [executeTool]),
    - [tools-definitions.ts] ([getTools], [TOOLS]),
    - [runner-openai.ts]    ([runClaude]: history, stream assembly, agent loop),
    - [prompt-loader.ts]    ([getSystemPrompt], [getInitialPrompt]),
    - [settings-store.ts]   ([loadApiSettings]),
    followed by the properties of the specification that were settled on it.

    Conventions of the embedding.
    - A JavaScript string is a Rocq [string]; a character stands for a code
      unit below 256.  String values decoded by [JSON.parse] are lists of
      code units, because an escape can denote any 16-bit unit.
    - A computation that can throw returns an [Outcome]; code that also
      touches the outside world (network, file system, tool bodies) threads an
      abstract [World].
    - Console logging and the request log file of [logApiRequest] (whose own
      failures are swallowed by its try/catch) have no influence on control
      flow and are left out. *)

From Stdlib Require Import String Ascii List ZArith Lia Bool DecimalString.
From stdpp Require Import base tactics option list strings.

Set Warnings "-register-all".

Open Scope string_scope.
Open Scope list_scope.
Import ListNotations.

(** ** JavaScript values, exceptions and strings *)

Module Js.

(** A thrown value: an [Error] object (with the [name] of its class and its
    [message]) or any other value, of which only the text [String(v)] is kept.
    [null] and [undefined] are told apart because reading a property of them
    throws. *)
Inductive Thrown : Type :=
| ErrorObj (name message : string)
| ThrownNullish (repr : string)
| ThrownOther (repr : string).

(** [String(error)]: for an [Error] object, [name + ": " + message]. *)
Definition String_of_thrown (e : Thrown) : string :=
  match e with
  | ErrorObj name message =>
      if String.eqb name "" then message
      else if String.eqb message "" then name
      else name +:+ ": " +:+ message
  | ThrownNullish repr => repr
  | ThrownOther repr => repr
  end.

Inductive Outcome (A : Type) : Type :=
| Ret (a : A)
| Throw (e : Thrown).
Arguments Ret {A} a.
Arguments Throw {A} e.

(** [x || d] on an optional string: [undefined], [null] and [''] are falsy. *)
Definition or_else (x : option string) (d : string) : string :=
  match x with
  | Some s => if String.eqb s "" then d else s
  | None => d
  end.

(** A template literal prints a missing value as [undefined]. *)
Definition template_of (x : option string) : string :=
  match x with Some s => s | None => "undefined" end.

(** Decimal text of an integer, as [${n}] prints it. *)
Definition string_of_Z (z : Z) : string := NilZero.string_of_int (Z.to_int z).
Definition string_of_nat (n : nat) : string := string_of_Z (Z.of_nat n).

(** [s.startsWith(p)] *)
Definition startsWith (s p : string) : bool := String.prefix p s.

(** [s.endsWith(suf)]: some tail of [s] is [suf]. *)
Fixpoint endsWith (s suf : string) : bool :=
  String.eqb s suf ||
  match s with
  | EmptyString => false
  | String _ t => endsWith t suf
  end.

(** [s.replace(/\/$/, '')]: without the [m] flag [$] is the end of the input,
    so only a slash that is the last character is removed. *)
Fixpoint replace_trailing_slash (s : string) : string :=
  match s with
  | EmptyString => EmptyString
  | String c t =>
      if Ascii.eqb c "/" && String.eqb t "" then EmptyString
      else String c (replace_trailing_slash t)
  end.

(** White space of [String.prototype.trim] among the code units below 256:
    TAB, LF, VT, FF, CR, SP and NBSP. *)
Definition isWhiteSpace (c : ascii) : bool :=
  let n := nat_of_ascii c in
  (((9 <=? n) && (n <=? 13)) || (n =? 32) || (n =? 160))%nat.

Fixpoint trimStart (s : string) : string :=
  match s with
  | EmptyString => EmptyString
  | String c t => if isWhiteSpace c then trimStart t else s
  end.

Fixpoint trimEnd (s : string) : string :=
  match s with
  | EmptyString => EmptyString
  | String c t =>
      let t' := trimEnd t in
      if isWhiteSpace c && String.eqb t' "" then EmptyString else String c t'
  end.

Definition trim (s : string) : string := trimEnd (trimStart s).

Fixpoint drop_chars (n : nat) (s : string) : string :=
  match n, s with
  | S k, String _ t => drop_chars k t
  | _, _ => s
  end.

(** The replacement text of [String.prototype.replace] for one match, when the
    pattern has no capture group: [$$] is a dollar, [$&] the match, [$`] the
    text before it and [$'] the text after it; any other character, and a
    dollar followed by anything else, is copied. *)
Fixpoint getSubstitution (matched before after repl : string) : string :=
  match repl with
  | EmptyString => EmptyString
  | String c r =>
      if Ascii.eqb c "$" then
        match r with
        | String d r' =>
            if Ascii.eqb d "$" then String "$" (getSubstitution matched before after r')
            else if Ascii.eqb d "&" then matched +:+ getSubstitution matched before after r'
            else if Ascii.eqb d "`" then before +:+ getSubstitution matched before after r'
            else if Ascii.eqb d "'" then after +:+ getSubstitution matched before after r'
            else String c (getSubstitution matched before after r)
        | EmptyString => String c EmptyString
        end
      else String c (getSubstitution matched before after r)
  end.

(** [s.replace(/pat/g, repl)] for a pattern that is a non-empty literal text
    (the placeholders [{task}], [{cwd}], ... of the prompt templates): the
    matches are found from left to right without overlap, and the replacement
    text is not scanned again.  [skip] counts the characters of the current
    match still to be passed; [before] is the input already passed. *)
Fixpoint replace_from (pat repl before s : string) (skip : nat) : string :=
  match s with
  | EmptyString => EmptyString
  | String c t =>
      match skip with
      | S k => replace_from pat repl (before +:+ String c EmptyString) t k
      | O =>
          if String.prefix pat s then
            getSubstitution pat before (drop_chars (String.length pat) s) repl
              +:+ replace_from pat repl (before +:+ String c EmptyString) t
                    (String.length pat - 1)
          else String c (replace_from pat repl (before +:+ String c EmptyString) t 0)
      end
  end.

Definition replace_all (pat repl s : string) : string :=
  replace_from pat repl "" s 0.

(** [s.replace('T', ' ')] with a one-character text pattern: the first
    occurrence only. *)
Fixpoint replace_first_char (c d : ascii) (s : string) : string :=
  match s with
  | EmptyString => EmptyString
  | String x t => if Ascii.eqb x c then String d t else String x (replace_first_char c d t)
  end.

(** *** JSON *)

(** The double quote. *)
Definition dquote : ascii := ascii_of_nat 34.

(** A value produced by [JSON.parse].  A number keeps its source text (its
    floating-point value is never inspected beyond being zero or not); an
    object keeps its members in source order, a later member with the same
    key shadowing an earlier one. *)
Inductive Json : Type :=
| JNull
| JBool (b : bool)
| JNum (lexeme : string)
| JStr (units : list N)
| JArr (items : list Json)
| JObj (members : list (list N * Json)).

Definition units_of_string (s : string) : list N :=
  map N_of_ascii (list_ascii_of_string s).

Definition isJsonWs (c : ascii) : bool :=
  let n := nat_of_ascii c in ((n =? 32) || (n =? 9) || (n =? 10) || (n =? 13))%nat.

Fixpoint skip_ws (s : string) : string :=
  match s with
  | String c t => if isJsonWs c then skip_ws t else s
  | EmptyString => EmptyString
  end.

Definition isDigit (c : ascii) : bool :=
  let n := nat_of_ascii c in ((48 <=? n) && (n <=? 57))%nat.

Definition hexval (c : ascii) : option N :=
  let n := N_of_ascii c in
  if ((48 <=? n) && (n <=? 57))%N then Some (n - 48)%N
  else if ((65 <=? n) && (n <=? 70))%N then Some (n - 55)%N
  else if ((97 <=? n) && (n <=? 102))%N then Some (n - 87)%N
  else None.

(** The digits at the front of [s], and what follows them. *)
Fixpoint span_digits (s : string) : string * string :=
  match s with
  | String c t =>
      if isDigit c then let '(d, r) := span_digits t in (String c d, r)
      else (EmptyString, s)
  | EmptyString => (EmptyString, EmptyString)
  end.

(** number = [-] int [frac] [exp], with no leading zero in int. *)
Definition parse_number (s : string) : option (string * string) :=
  let '(sign, s1) :=
    match s with
    | String "-" t => ("-", t)
    | _ => ("", s)
    end in
  let '(int, s2) := span_digits s1 in
  match int with
  | EmptyString => None
  | String d more =>
      if Ascii.eqb d "0" && negb (String.eqb more "") then
        (* a zero is a complete integer part: the rest is left over *)
        None
      else
        let frac :=
          match s2 with
          | String "." t =>
              let '(f, r) := span_digits t in
              if String.eqb f "" then None else Some ("." +:+ f, r)
          | _ => Some ("", s2)
          end in
        match frac with
        | None => None
        | Some (f, s3) =>
            let exp :=
              match s3 with
              | String e t =>
                  if Ascii.eqb e "e" || Ascii.eqb e "E" then
                    let '(sg, t') :=
                      match t with
                      | String "+" u => ("+", u)
                      | String "-" u => ("-", u)
                      | _ => ("", t)
                      end in
                    let '(x, r) := span_digits t' in
                    if String.eqb x "" then None
                    else Some (String e sg +:+ x, r)
                  else Some ("", s3)
              | EmptyString => Some ("", s3)
              end in
            match exp with
            | None => None
            | Some (x, s4) => Some (sign +:+ int +:+ f +:+ x, s4)
            end
        end
  end.

(** The characters of a string after its opening quote, up to and including
    the closing quote.  A control character must be escaped. *)
Fixpoint parse_chars (s : string) : option (list N * string) :=
  match s with
  | EmptyString => None
  | String c t =>
      if Ascii.eqb c dquote then Some ([], t)
      else if Ascii.eqb c "\" then
        match t with
        | String e u =>
            let simple (n : N) :=
              match parse_chars u with
              | Some (cs, r) => Some (n :: cs, r)
              | None => None
              end in
            if Ascii.eqb e dquote then simple 34%N
            else if Ascii.eqb e "\" then simple 92%N
            else if Ascii.eqb e "/" then simple 47%N
            else if Ascii.eqb e "b" then simple 8%N
            else if Ascii.eqb e "f" then simple 12%N
            else if Ascii.eqb e "n" then simple 10%N
            else if Ascii.eqb e "r" then simple 13%N
            else if Ascii.eqb e "t" then simple 9%N
            else if Ascii.eqb e "u" then
              match u with
              | String h1 (String h2 (String h3 (String h4 v))) =>
                  match hexval h1, hexval h2, hexval h3, hexval h4 with
                  | Some a, Some b, Some c', Some d =>
                      match parse_chars v with
                      | Some (cs, r) =>
                          Some ((((a * 16 + b) * 16 + c') * 16 + d)%N :: cs, r)
                      | None => None
                      end
                  | _, _, _, _ => None
                  end
              | _ => None
              end
            else None
        | EmptyString => None
        end
      else if (N_of_ascii c <? 32)%N then None
      else
        match parse_chars t with
        | Some (cs, r) => Some (N_of_ascii c :: cs, r)
        | None => None
        end
  end.

(** One value, with the white space before it.  Every call consumes at least
    one character of the input or one unit of [fuel], so the length of the
    input (plus one) is enough fuel. *)
Fixpoint parse_value (fuel : nat) (s : string) : option (Json * string) :=
  match fuel with
  | O => None
  | S f =>
      match skip_ws s with
      | EmptyString => None
      | String c t as s' =>
          if Ascii.eqb c "{" then
            match skip_ws t with
            | String "}" r => Some (JObj [], r)
            | _ =>
                match parse_members f t with
                | Some (ms, r) => Some (JObj ms, r)
                | None => None
                end
            end
          else if Ascii.eqb c "[" then
            match skip_ws t with
            | String "]" r => Some (JArr [], r)
            | _ =>
                match parse_elements f t with
                | Some (xs, r) => Some (JArr xs, r)
                | None => None
                end
            end
          else if Ascii.eqb c dquote then
            match parse_chars t with
            | Some (cs, r) => Some (JStr cs, r)
            | None => None
            end
          else if String.prefix "true" s' then Some (JBool true, drop_chars 4 s')
          else if String.prefix "false" s' then Some (JBool false, drop_chars 5 s')
          else if String.prefix "null" s' then Some (JNull, drop_chars 4 s')
          else
            match parse_number s' with
            | Some (lexeme, r) => Some (JNum lexeme, r)
            | None => None
            end
      end
  end

(** value { "," value } "]" *)
with parse_elements (fuel : nat) (s : string) : option (list Json * string) :=
  match fuel with
  | O => None
  | S f =>
      match parse_value f s with
      | Some (v, r) =>
          match skip_ws r with
          | String "," r' =>
              match parse_elements f r' with
              | Some (vs, r'') => Some (v :: vs, r'')
              | None => None
              end
          | String "]" r' => Some ([v], r')
          | _ => None
          end
      | None => None
      end
  end

(** string ":" value { "," string ":" value } "}" *)
with parse_members (fuel : nat) (s : string) : option (list (list N * Json) * string) :=
  match fuel with
  | O => None
  | S f =>
      match skip_ws s with
      | String q t =>
          if negb (Ascii.eqb q dquote) then None else
          match parse_chars t with
          | Some (key, r) =>
              match skip_ws r with
              | String ":" r' =>
                  match parse_value f r' with
                  | Some (v, r'') =>
                      match skip_ws r'' with
                      | String "," r3 =>
                          match parse_members f r3 with
                          | Some (ms, r4) => Some ((key, v) :: ms, r4)
                          | None => None
                          end
                      | String "}" r3 => Some ([(key, v)], r3)
                      | _ => None
                      end
                  | None => None
                  end
              | _ => None
              end
          | None => None
          end
      | _ => None
      end
  end.

(** [JSON.parse(text)]: one value, white space around it, nothing else.
    [None] stands for the [SyntaxError]. *)
Definition JSON_parse (text : string) : option Json :=
  match parse_value (S (String.length text)) text with
  | Some (v, r) =>
      match skip_ws r with
      | EmptyString => Some v
      | String _ _ => None
      end
  | None => None
  end.

(** [undefined] is [None]. *)
Definition JsValue : Type := option Json.

(** The value of a number literal is [m * 10^(-n)]: [mantissa_of] reads the
    digits of the mantissa as the integer [m] and counts those after the
    point, up to the exponent mark, whose text it returns. *)
Definition digit_value (c : ascii) : Z := Z.of_nat (nat_of_ascii c - 48).

Fixpoint mantissa_of (s : string) (after_point : bool) (m scale : Z) : Z * Z * string :=
  match s with
  | EmptyString => (m, scale, EmptyString)
  | String c t =>
      if isDigit c then
        mantissa_of t after_point (10 * m + digit_value c)%Z
          (if after_point then scale + 1 else scale)%Z
      else if Ascii.eqb c "." then mantissa_of t true m scale
      else if Ascii.eqb c "e" || Ascii.eqb c "E" then (m, scale, t)
      else mantissa_of t after_point m scale
  end.

Fixpoint digits_value (s : string) (acc : Z) : Z :=
  match s with
  | EmptyString => acc
  | String c t => if isDigit c then digits_value t (10 * acc + digit_value c)%Z else acc
  end.

Definition exponent_of (s : string) : Z :=
  match s with
  | String "-" t => (- digits_value t 0)%Z
  | String "+" t => digits_value t 0
  | _ => digits_value s 0
  end.

(** The number that a literal denotes is zero.  A number is a double, and a
    literal is rounded to the nearest one, ties to even: it is [0] (or [-0])
    when its mantissa is zero, and also when its magnitude is at most
    [2^-1075], half of the smallest positive double. *)
Definition number_is_zero (lexeme : string) : bool :=
  let '(m, scale, exponent) := mantissa_of lexeme false 0%Z 0%Z in
  let n := (scale - exponent_of exponent)%Z in
  ((m =? 0) || ((0 <? n) && (m * 2 ^ 1075 <=? 10 ^ n)))%Z.

(** Truthiness.  A number is falsy when it is zero. *)
Definition truthy (v : JsValue) : bool :=
  match v with
  | None => false
  | Some JNull => false
  | Some (JBool b) => b
  | Some (JNum lexeme) => negb (number_is_zero lexeme)
  | Some (JStr units) => negb (Nat.eqb (length units) 0)
  | Some (JArr _) => true
  | Some (JObj _) => true
  end.

Fixpoint lookup_member (key : list N) (ms : list (list N * Json)) : option Json :=
  match ms with
  | [] => None
  | (k, v) :: rest =>
      match lookup_member key rest with
      | Some v' => Some v'
      | None => if decide (k = key) then Some v else None
      end
  end.

(** [v.key] on a parsed value.  Reading a property of [null] throws a
    [TypeError], whose message is the engine's ([typeErrorMessage]); the
    members of arrays and strings that a key could name ([length], indices)
    are not needed by the code and read as [undefined]. *)
Definition get_prop (typeErrorMessage : string -> string) (v : Json) (key : string)
  : Outcome JsValue :=
  match v with
  | JNull => Throw (ErrorObj "TypeError" (typeErrorMessage key))
  | JObj ms => Ret (lookup_member (units_of_string key) ms)
  | _ => Ret None
  end.

End Js.

(** ** Node's [path] module

    [resolve], [relative] and [isAbsolute] are the ones of Node on a POSIX
    platform ([path.posix]).  They are described on path segments: a resolved
    path is [/] followed by its segments joined by [/], which is what Node's
    character loops compute for the normalised paths they are given. *)

Module NodePath.

(** [s.split(sep)] *)
Fixpoint split_on (sep : ascii) (s : string) : list string :=
  match s with
  | EmptyString => [EmptyString]
  | String c t =>
      if Ascii.eqb c sep then EmptyString :: split_on sep t
      else
        match split_on sep t with
        | seg :: rest => String c seg :: rest
        | [] => [String c EmptyString]
        end
  end.

Definition isAbsolute (p : string) : bool :=
  match p with
  | String c _ => Ascii.eqb c "/"
  | EmptyString => false
  end.

(** [normalizeString]: empty segments and [.] are dropped, [..] removes the
    segment before it; at the top, [..] is dropped for an absolute path and
    kept otherwise ([allowAboveRoot]).  [acc] holds the result so far, last
    segment first. *)
Fixpoint normalize_segments (allowAboveRoot : bool) (acc segs : list string) : list string :=
  match segs with
  | [] => rev acc
  | seg :: rest =>
      if String.eqb seg "" || String.eqb seg "." then
        normalize_segments allowAboveRoot acc rest
      else if String.eqb seg ".." then
        match acc with
        | last :: acc' =>
            if String.eqb last ".." then
              normalize_segments allowAboveRoot (if allowAboveRoot then seg :: acc else acc) rest
            else normalize_segments allowAboveRoot acc' rest
        | [] =>
            normalize_segments allowAboveRoot (if allowAboveRoot then [seg] else []) rest
        end
      else normalize_segments allowAboveRoot (seg :: acc) rest
  end.

(** The loop of [resolve], from the last argument to the first: arguments are
    prepended until one is absolute; empty arguments are skipped. *)
Fixpoint resolve_prepend (args : list string) : string * bool :=
  match args with
  | [] => (EmptyString, false)
  | p :: rest =>
      let '(resolvedPath, resolvedAbsolute) := resolve_prepend rest in
      if resolvedAbsolute then (resolvedPath, true)
      else if String.eqb p "" then (resolvedPath, false)
      else (p +:+ "/" +:+ resolvedPath, isAbsolute p)
  end.

(** [path.resolve(...args)], the current directory of the process being the
    argument before the first. *)
Definition resolve (process_cwd : string) (args : list string) : string :=
  let '(resolvedPath, resolvedAbsolute) := resolve_prepend (process_cwd :: args) in
  let segs := normalize_segments (negb resolvedAbsolute) [] (split_on "/" resolvedPath) in
  if resolvedAbsolute then "/" +:+ String.concat "/" segs
  else match segs with [] => "." | _ => String.concat "/" segs end.

(** The segments of a resolved path. *)
Definition segments (p : string) : list string :=
  List.filter (fun seg => negb (String.eqb seg "")) (split_on "/" p).

Fixpoint strip_common (from to : list string) : list string * list string :=
  match from, to with
  | f :: from', t :: to' =>
      if String.eqb f t then strip_common from' to' else (from, to)
  | _, _ => (from, to)
  end.

(** [path.relative(from, to)]: one [..] for every segment of [from] below the
    common directory, then the segments of [to] below it. *)
Definition relative_segments (process_cwd from to : string) : list string :=
  if String.eqb from to then []
  else
    let from' := resolve process_cwd [from] in
    let to' := resolve process_cwd [to] in
    if String.eqb from' to' then []
    else
      let '(up, down) := strip_common (segments from') (segments to') in
      map (fun _ => "..") up ++ down.

Definition relative (process_cwd from to : string) : string :=
  String.concat "/" (relative_segments process_cwd from to).

End NodePath.

(** ** Settings ([types.ts], [settings-store.ts]) *)

Module Settings.

(** The fields of [ApiSettings] that the core reads.  [temperature] keeps the
    text of the number. *)
Record ApiSettings : Type := {
  apiKey : option string;
  baseUrl : option string;
  model : option string;
  temperature : option string;
  enableMemory : option bool;
  tavilyApiKey : option string;
  permissionMode : option string
}.

Definition falsy_string (x : option string) : bool :=
  match x with
  | Some s => String.eqb s ""
  | None => true
  end.

(** [loadApiSettings], after the file has been read and parsed: [stored] is
    [None] when the file is missing or unreadable (the function catches the
    error and returns [null]). *)
Definition loadApiSettings (stored : option ApiSettings) : option ApiSettings :=
  match stored with
  | None => None
  | Some settings =>
      if falsy_string (apiKey settings) && falsy_string (baseUrl settings)
         && falsy_string (model settings)
      then None
      else if falsy_string (permissionMode settings) then
        Some {| apiKey := apiKey settings; baseUrl := baseUrl settings;
                model := model settings; temperature := temperature settings;
                enableMemory := enableMemory settings;
                tavilyApiKey := tavilyApiKey settings;
                permissionMode := Some "ask" |}
      else Some settings
  end.

End Settings.

(** ** The tool executor ([tools-executor.ts]) *)

Module ToolsExecutor.
Import Js Settings.

Record ToolResult : Type := {
  success : bool;
  output : option string;
  error : option string
}.

Definition failure (msg : string) : ToolResult :=
  {| success := false; output := None; error := Some msg |}.

Definition succeeded (out : string) : ToolResult :=
  {| success := true; output := Some out; error := None |}.

Record ToolExecutionContext : Type := {
  ctx_cwd : string;
  ctx_isPathSafe : string -> bool
}.

Record WebSearchParams : Type := {
  query : JsValue;
  explanation : JsValue;
  max_results : JsValue
}.

Record SearchResult : Type := {
  title : string;
  url : string;
  snippet : string;
  score : option string
}.

Record WebSearchTool : Type := { ws_apiKey : string }.
Record ExtractPageContentTool : Type := { ep_apiKey : string }.

Record ToolExecutor : Type := {
  cwd : string;
  apiSettings : option ApiSettings;
  webSearchTool : option WebSearchTool;
  extractPageTool : option ExtractPageContentTool
}.

(** What the executor calls and this file does not define: the tool bodies of
    [tools/*.ts], the network round trip of [WebSearchTool.search] (the
    [fetch], the status check and the mapping of the response), the two
    [formatResults], and [ExtractPageContentTool.extract].  Each may change
    the world and may throw (a rejected promise is a throw at the [await]). *)
Record Platform (World : Type) : Type := {
  process_cwd : string;
  typeErrorMessage : string -> string -> string;
  executeBashTool : Json -> ToolExecutionContext -> World -> Outcome ToolResult * World;
  executeReadTool : Json -> ToolExecutionContext -> World -> Outcome ToolResult * World;
  executeWriteTool : Json -> ToolExecutionContext -> World -> Outcome ToolResult * World;
  executeEditTool : Json -> ToolExecutionContext -> World -> Outcome ToolResult * World;
  executeGlobTool : Json -> ToolExecutionContext -> World -> Outcome ToolResult * World;
  executeGrepTool : Json -> ToolExecutionContext -> World -> Outcome ToolResult * World;
  executeMemoryTool : Json -> ToolExecutionContext -> World -> Outcome ToolResult * World;
  tavily_search : string -> WebSearchParams -> World -> Outcome (list SearchResult) * World;
  search_formatResults : list SearchResult -> string;
  extract : string -> JsValue -> JsValue -> World -> Outcome Json * World;
  extract_formatResults : Json -> string
}.
Arguments process_cwd {World} _.
Arguments typeErrorMessage {World} _ _ _.
Arguments executeBashTool {World} _ _ _ _.
Arguments executeReadTool {World} _ _ _ _.
Arguments executeWriteTool {World} _ _ _ _.
Arguments executeEditTool {World} _ _ _ _.
Arguments executeGlobTool {World} _ _ _ _.
Arguments executeGrepTool {World} _ _ _ _.
Arguments executeMemoryTool {World} _ _ _ _.
Arguments tavily_search {World} _ _ _ _.
Arguments search_formatResults {World} _ _.
Arguments extract {World} _ _ _ _ _.
Arguments extract_formatResults {World} _ _.

Section Executor.
Context {World : Type} (pf : Platform World).

(** The constructor. *)
Definition new_ToolExecutor (cwd0 : string) (settings : option ApiSettings) : ToolExecutor :=
  let key :=
    match settings with
    | Some s => tavilyApiKey s
    | None => None
    end in
  let have_key := negb (falsy_string key) in
  {| cwd := NodePath.resolve (process_cwd pf) [cwd0];
     apiSettings := settings;
     webSearchTool := if have_key then Some {| ws_apiKey := or_else key "" |} else None;
     extractPageTool := if have_key then Some {| ep_apiKey := or_else key "" |} else None |}.

(** [isPathSafe] *)
Definition isPathSafe (ex : ToolExecutor) (filePath : string) : bool :=
  let absolutePath := NodePath.resolve (process_cwd pf) [cwd ex; filePath] in
  let relativePath := NodePath.relative (process_cwd pf) (cwd ex) absolutePath in
  let isSafe := negb (startsWith relativePath "..") && negb (NodePath.isAbsolute relativePath) in
  isSafe.

Definition getContext (ex : ToolExecutor) : ToolExecutionContext :=
  {| ctx_cwd := cwd ex; ctx_isPathSafe := isPathSafe ex |}.

(** [error.message] in a [catch (error: any)]: the message of an [Error];
    a [TypeError] of its own when the thrown value is [null] or [undefined];
    [undefined] for any other thrown value. *)
Definition message_of (e : Thrown) : Outcome (option string) :=
  match e with
  | ErrorObj _ message => Ret (Some message)
  | ThrownNullish repr => Throw (ErrorObj "TypeError" (typeErrorMessage pf repr "message"))
  | ThrownOther _ => Ret None
  end.

(** [WebSearchTool.search] *)
Definition WebSearchTool_search (tool : WebSearchTool) (params : WebSearchParams) (w : World)
  : Outcome (list SearchResult) * World :=
  if String.eqb (ws_apiKey tool) "" || String.eqb (ws_apiKey tool) "dummy-key" then
    (Throw (ErrorObj "Error" "Tavily API key not configured. Please set it in Settings."), w)
  else tavily_search pf (ws_apiKey tool) params w.

(** The arguments of a tool are a parsed JSON value. *)
Definition arg (args : Json) (key : string) : Outcome JsValue :=
  get_prop (typeErrorMessage pf "null") args key.

Definition executeWebSearch (ex : ToolExecutor) (args : Json) (w : World)
  : Outcome ToolResult * World :=
  match webSearchTool ex with
  | None =>
      (Ret (failure "Web search is not available. Please configure Tavily API key in Settings."), w)
  | Some tool =>
      let attempt : Outcome string * World :=
        match arg args "query", arg args "explanation", arg args "max_results" with
        | Ret q, Ret e, Ret m =>
            let params := {| query := q; explanation := e;
                             max_results := if truthy m then m else Some (JNum "5") |} in
            match WebSearchTool_search tool params w with
            | (Ret results, w') => (Ret (search_formatResults pf results), w')
            | (Throw err, w') => (Throw err, w')
            end
        | Throw err, _, _ => (Throw err, w)
        | _, Throw err, _ => (Throw err, w)
        | _, _, Throw err => (Throw err, w)
        end in
      match attempt with
      | (Ret formatted, w') => (Ret (succeeded formatted), w')
      | (Throw err, w') =>
          match message_of err with
          | Ret m => (Ret (failure ("Web search failed: " +:+ template_of m)), w')
          | Throw err' => (Throw err', w')
          end
      end
  end.

Definition executeExtractPage (ex : ToolExecutor) (args : Json) (w : World)
  : Outcome ToolResult * World :=
  match extractPageTool ex with
  | None =>
      (Ret (failure "Page extraction is not available. Please configure Tavily API key in Settings."), w)
  | Some tool =>
      let attempt : Outcome string * World :=
        match arg args "urls", arg args "explanation" with
        | Ret u, Ret e =>
            match extract pf (ep_apiKey tool) u e w with
            | (Ret results, w') => (Ret (extract_formatResults pf results), w')
            | (Throw err, w') => (Throw err, w')
            end
        | Throw err, _ => (Throw err, w)
        | _, Throw err => (Throw err, w)
        end in
      match attempt with
      | (Ret formatted, w') => (Ret (succeeded formatted), w')
      | (Throw err, w') =>
          match message_of err with
          | Ret m => (Ret (failure ("Page extraction failed: " +:+ template_of m)), w')
          | Throw err' => (Throw err', w')
          end
      end
  end.


(** The [switch] inside the [try] of [executeTool]. *)
Definition dispatch (ex : ToolExecutor) (toolName : string) (args : Json) (w : World)
  : Outcome ToolResult * World :=
  let context := getContext ex in
  if String.eqb toolName "Bash" then executeBashTool pf args context w
  else if String.eqb toolName "Read" then executeReadTool pf args context w
  else if String.eqb toolName "Write" then executeWriteTool pf args context w
  else if String.eqb toolName "Edit" then executeEditTool pf args context w
  else if String.eqb toolName "Glob" then executeGlobTool pf args context w
  else if String.eqb toolName "Grep" then executeGrepTool pf args context w
  else if String.eqb toolName "WebSearch" then executeWebSearch ex args w
  else if String.eqb toolName "ExtractPageContent" then executeExtractPage ex args w
  else if String.eqb toolName "Memory" then executeMemoryTool pf args context w
  else (Ret (failure ("Unknown tool: " +:+ toolName)), w).

(** The [catch] of [executeTool]:
    [error instanceof Error ? error.message : String(error)]. *)
Definition caught_message (e : Thrown) : string :=
  match e with
  | ErrorObj _ message => message
  | ThrownNullish repr => repr
  | ThrownOther repr => repr
  end.

(** [executeTool]: the result the promise settles with. *)
Definition executeTool (ex : ToolExecutor) (toolName : string) (args : Json) (w : World)
  : Outcome ToolResult * World :=
  match dispatch ex toolName args w with
  | (Ret result, w') => (Ret result, w')
  | (Throw err, w') => (Ret (failure (caught_message err)), w')
  end.

End Executor.
End ToolsExecutor.

(** ** The tool table ([tools-definitions.ts]) *)

Module ToolsDefinitions.
Import Settings.

(** A tool definition; the runner and [getTools] read its [function.name]
    only. *)
Record ToolDefinition : Type := { function_name : string }.

(** Modelled from the spec: the table [ALL_TOOL_DEFINITIONS] of
    [tools/index.ts], which is imported but not part of the sources at hand.
    It holds the tools that the specification lists for the tool schema. *)
Definition ALL_TOOL_DEFINITIONS : list ToolDefinition :=
  map Build_ToolDefinition
    ["Bash"; "Read"; "Write"; "Edit"; "Glob"; "Grep"; "WebSearch"; "ExtractPageContent"; "Memory"].

(** [getTools] *)
Definition getTools_of (table : list ToolDefinition) (settings : option ApiSettings)
  : list ToolDefinition :=
  let enabled :=
    match settings with
    | Some s => match enableMemory s with Some b => b | None => false end
    | None => false
    end in
  if negb enabled then
    List.filter (fun tool => negb (String.eqb (function_name tool) "Memory")) table
  else table.

Definition getTools : option ApiSettings -> list ToolDefinition :=
  getTools_of ALL_TOOL_DEFINITIONS.

(** [export const TOOLS = ALL_TOOL_DEFINITIONS] *)
Definition TOOLS : list ToolDefinition := ALL_TOOL_DEFINITIONS.

End ToolsDefinitions.

(** ** The prompt loader ([prompt-loader.ts]) *)

Module PromptLoader.
Import Js.

Definition nl : string := String (ascii_of_nat 10) EmptyString.

(** The two template files [prompts/system.txt] and
    [prompts/initial_prompt.txt] ship with the application; their text and
    [process.platform] are parameters. *)
Record Templates : Type := {
  platform : string;
  system_txt : string;
  initial_prompt_txt : string
}.

Section Loader.
Variable tp : Templates.

Definition isWindows : bool := String.eqb (platform tp) "win32".
Definition isMacOS : bool := String.eqb (platform tp) "darwin".
Definition isLinux : bool := String.eqb (platform tp) "linux".

Definition getOSName : string :=
  if isWindows then "Windows"
  else if isMacOS then "macOS"
  else if isLinux then "Linux"
  else "Unix".

Record ShellCommands : Type := {
  listFiles : string; viewFile : string; changeDir : string;
  currentDir : string; findFiles : string; searchText : string
}.

Definition getShellCommands : ShellCommands :=
  if isWindows then
    {| listFiles := "dir"; viewFile := "type"; changeDir := "cd";
       currentDir := "cd"; findFiles := "dir /s /b"; searchText := "findstr /s /i" |}
  else
    {| listFiles := "ls"; viewFile := "cat"; changeDir := "cd";
       currentDir := "pwd"; findFiles := "find . -name"; searchText := "grep -r" |}.

(** [getSystemPrompt] *)
Definition getSystemPrompt (cwd : string) : string :=
  let template := system_txt tp in
  let osName := getOSName in
  let cmds := getShellCommands in
  let template := replace_all "{osName}" osName template in
  let template := replace_all "{platform}" (platform tp) template in
  let template := replace_all "{shell}" (if isWindows then "PowerShell" else "bash") template in
  let template := replace_all "{cwd}" cwd template in
  let template := replace_all "{listFilesCmd}" (listFiles cmds) template in
  let template := replace_all "{viewFileCmd}" (viewFile cmds) template in
  let template := replace_all "{changeDirCmd}" (changeDir cmds) template in
  let template := replace_all "{currentDirCmd}" (currentDir cmds) template in
  let template := replace_all "{findFilesCmd}" (findFiles cmds) template in
  let template := replace_all "{searchTextCmd}" (searchText cmds) template in
  template.

(** The date stamp: [now.toISOString().replace('T', ' ').substring(0, 19)]. *)
Definition currentDate_of (isoString : string) : string :=
  String.substring 0 19 (replace_first_char "T" " " isoString).

(** [getInitialPrompt]; [isoString] is [new Date().toISOString()]. *)
Definition getInitialPrompt (isoString : string) (task : string) (memoryContent : option string)
  : string :=
  let template := initial_prompt_txt tp in
  let currentDate := currentDate_of isoString in
  let memorySection :=
    match memoryContent with
    | Some m =>
        if String.eqb m "" then EmptyString
        else "MEMORY ABOUT USER:" +:+ nl +:+ nl +:+ m +:+ nl +:+ nl +:+ "---" +:+ nl
    | None => EmptyString
    end in
  let template := replace_all "{current_date}" currentDate template in
  let template := replace_all "{memory_section}" memorySection template in
  let template := replace_all "{task}" task template in
  template.

End Loader.
End PromptLoader.

(** ** The runner ([runner-openai.ts]) *)

Module Runner.
Import Js Settings ToolsExecutor ToolsDefinitions PromptLoader.

(** *** Data *)

Record Session : Type := {
  session_id : string;
  session_cwd : option string;
  session_title : string
}.

Record RunnerOptions : Type := {
  prompt : string;
  session : Session;
  has_onSessionUpdate : bool
}.

Inductive Role : Type := system | user | assistant | tool.

(** An assembled tool call: [{id, type: 'function', function: {name, arguments}}]. *)
Record ToolCall : Type := {
  tc_id : string;
  tc_name : string;
  tc_arguments : string
}.

(** [ChatMessage].  [tool_calls] is the JavaScript array of the assembler,
    in which an index never assigned is a hole ([None]). *)
Record ChatMessage : Type := {
  role : Role;
  content : string;
  tool_calls : option (list (option ToolCall));
  tool_call_id : option string;
  name : option string
}.

Definition plain_message (r : Role) (c : string) : ChatMessage :=
  {| role := r; content := c; tool_calls := None; tool_call_id := None; name := None |}.

(** A message of the session store: what [getSessionHistory] returns and
    what [recordMessage] is given. *)
Inductive StoredMessage : Type :=
| user_prompt (prompt : option string)
| text (text : option string) (uuid : string)
| tool_use (id name : string) (input : Json) (uuid : string)
| tool_result (tool_use_id : string) (output : option string) (is_error : bool) (uuid : string)
| other_message (type : string).

(** What one increment of the model's stream carries. *)
Record FunctionDelta : Type := {
  fd_name : option string;
  fd_arguments : option string
}.

Record ToolCallDelta : Type := {
  tcd_index : option nat;
  tcd_id : option string;
  tcd_function : option FunctionDelta
}.

Record Delta : Type := {
  d_content : option string;
  d_tool_calls : option (list ToolCallDelta)
}.

(** [chunk.choices[0]?.delta] *)
Record Chunk : Type := { choice_delta : option Delta }.

(** A stream delivers its chunks and then closes, or breaks with an error. *)
Record Stream : Type := {
  chunks : list Chunk;
  stream_error : option Thrown
}.

Record Client : Type := {
  client_apiKey : string;
  client_baseURL : string
}.

Record Request : Type := {
  req_model : string;
  req_messages : list ChatMessage;
  req_tools : list ToolDefinition;
  req_temperature : string
}.

(** The events given to [onEvent]. *)
Inductive ContentBlock : Type :=
| text_block (text : string)
| tool_use_block (id name : string) (input : Json)
| tool_result_block (tool_use_id : string) (content : option string) (is_error : bool).

Inductive StreamEventBody : Type :=
| content_block_start
| content_block_delta (text : string)
| content_block_stop.

(** The constant fields of a result ([duration_ms], [duration_api_ms],
    [total_cost_usd], [usage]) are not repeated here. *)
Inductive Message : Type :=
| system_init (cwd session_id : string) (tools : list string) (model permissionMode : string)
| stream_event (event : StreamEventBody)
| assistant_message (id : string) (content : list ContentBlock)
| user_message (content : list ContentBlock)
| result_message (subtype : string) (is_error : bool) (num_turns : nat)
                 (result session_id : string).

Inductive Status : Type := completed | error_status.

Inductive ServerEvent : Type :=
| stream_message (sessionId : string) (message : Message)
| permission_request (sessionId toolUseId toolName : string) (input : Json)
                     (explanation : JsValue)
| session_status (sessionId : string) (status : Status) (title : string)
                 (error : option string).

(** *** The environment of a run *)

Record Env (World : Type) : Type := {
  pf : Platform World;
  templates : Templates;
  stored_settings : option ApiSettings;
  DEFAULT_CWD : string;
  (** [global.sessionStore], and its [getSessionHistory(id)?.messages] *)
  sessionStore : option (string -> option (list StoredMessage));
  (** the successive readings of the clock: [Date.now()], [new Date()] *)
  now : nat -> Z;
  toISOString : Z -> string;
  (** [client.chat.completions.create] *)
  create : Client -> Request -> World -> Outcome Stream * World;
  (** the message of the [SyntaxError] of [JSON.parse] *)
  syntaxErrorMessage : string -> string;
  (** [abort()] is called during the suspension of this number, if at all;
      the suspensions of a run (its [await]s) are counted from one *)
  abortAt : option nat
}.
Arguments pf {World} _.
Arguments templates {World} _.
Arguments stored_settings {World} _.
Arguments DEFAULT_CWD {World} _.
Arguments sessionStore {World} _.
Arguments now {World} _ _.
Arguments toISOString {World} _ _.
Arguments create {World} _ _ _ _.
Arguments syntaxErrorMessage {World} _ _.
Arguments abortAt {World} _.

(** What a run has done so far. *)
Record RunState (World : Type) : Type := {
  events : list ServerEvent;          (* given to [onEvent], oldest first *)
  recorded : list StoredMessage;      (* given to [recordMessage] *)
  session_updates : list string;      (* [claudeSessionId] given to [onSessionUpdate] *)
  sent : list (Client * Request);     (* requests made to the model *)
  world : World;
  awaits : nat;                       (* suspensions so far *)
  ticks : nat                         (* readings of the clock so far *)
}.
Arguments events {World} _.
Arguments recorded {World} _.
Arguments session_updates {World} _.
Arguments sent {World} _.
Arguments world {World} _.
Arguments awaits {World} _.
Arguments ticks {World} _.

(** *** JavaScript arrays with holes *)

(** [arr[i]]: [undefined] for a hole and beyond the end. *)
Definition array_get {A : Type} (arr : list (option A)) (i : nat) : option A :=
  match arr !! i with
  | Some entry => entry
  | None => None
  end.

(** [arr[i] = x]: an index beyond the end extends the array with holes. *)
Definition array_set {A : Type} (arr : list (option A)) (i : nat) (x : A) : list (option A) :=
  if decide (i < length arr) then <[i := Some x]> arr
  else arr ++ replicate (i - length arr) None ++ [Some x].

Section Run.
Context {World : Type} (env : Env World) (options : RunnerOptions).

(** *** The monad of the asynchronous body: state and exceptions *)

Definition M (A : Type) : Type := RunState World -> Outcome A * RunState World.

Definition ret {A : Type} (a : A) : M A := fun st => (Ret a, st).

Definition throw {A : Type} (e : Thrown) : M A := fun st => (Throw e, st).

Definition bind {A B : Type} (m : M A) (k : A -> M B) : M B :=
  fun st =>
    match m st with
    | (Ret a, st') => k a st'
    | (Throw e, st') => (Throw e, st')
    end.

Notation "'let*' x ':=' m 'in' k" := (bind m (fun x => k))
  (at level 10, x name, m at level 100, k at level 200, only parsing).
Notation "m ;; k" := (bind m (fun _ => k))
  (at level 100, k at level 200, right associativity, only parsing).

Definition when (b : bool) (m : M unit) : M unit := if b then m else ret tt.

Definition onEvent (e : ServerEvent) : M unit :=
  fun st =>
    (Ret tt, {| events := events st ++ [e]; recorded := recorded st;
                session_updates := session_updates st; sent := sent st;
                world := world st; awaits := awaits st; ticks := ticks st |}).

Definition sendMessage (m : Message) : M unit :=
  onEvent (stream_message (session_id (session options)) m).

(** [saveToDb]: only with a store and a session id. *)
Definition saveToDb (m : StoredMessage) : M unit :=
  fun st =>
    match sessionStore env with
    | Some _ =>
        if String.eqb (session_id (session options)) "" then (Ret tt, st)
        else
          (Ret tt, {| events := events st; recorded := recorded st ++ [m];
                      session_updates := session_updates st; sent := sent st;
                      world := world st; awaits := awaits st; ticks := ticks st |})
    | None => (Ret tt, st)
    end.

Definition sendPermissionRequest (toolUseId toolName : string) (input : Json)
    (explanation : JsValue) : M unit :=
  onEvent (permission_request (session_id (session options)) toolUseId toolName
             input explanation).

Definition onSessionUpdate (claudeSessionId : string) : M unit :=
  fun st =>
    (Ret tt, {| events := events st; recorded := recorded st;
                session_updates := session_updates st ++ [claudeSessionId];
                sent := sent st; world := world st; awaits := awaits st;
                ticks := ticks st |}).

(** [Date.now()] *)
Definition Date_now : M Z :=
  fun st =>
    (Ret (now env (ticks st)),
     {| events := events st; recorded := recorded st;
        session_updates := session_updates st; sent := sent st;
        world := world st; awaits := awaits st; ticks := S (ticks st) |}).

(** The body is suspended at an [await] and resumed later. *)
Definition suspend : M unit :=
  fun st =>
    (Ret tt, {| events := events st; recorded := recorded st;
                session_updates := session_updates st; sent := sent st;
                world := world st; awaits := S (awaits st); ticks := ticks st |}).

(** The flag [aborted]: set once [abort()] has been called, which can only
    happen while the body is suspended. *)
Definition is_aborted (st : RunState World) : bool :=
  match abortAt env with
  | Some k => (k <=? awaits st)%nat
  | None => false
  end.

Definition aborted : M bool := fun st => (Ret (is_aborted st), st).

(** [await f(...)] for a call that acts on the world. *)
Definition await {A : Type} (f : World -> Outcome A * World) : M A :=
  suspend ;;
  fun st =>
    let '(r, w) := f (world st) in
    (r, {| events := events st; recorded := recorded st;
           session_updates := session_updates st; sent := sent st;
           world := w; awaits := awaits st; ticks := ticks st |}).

Definition record_request (c : Client) (r : Request) : M unit :=
  fun st =>
    (Ret tt, {| events := events st; recorded := recorded st;
                session_updates := session_updates st; sent := sent st ++ [(c, r)];
                world := world st; awaits := awaits st; ticks := ticks st |}).

(** [JSON.parse(text)] *)
Definition parse (text : string) : M Json :=
  match JSON_parse text with
  | Some v => ret v
  | None => throw (ErrorObj "SyntaxError" (syntaxErrorMessage env text))
  end.

(** *** The conversation history *)

Definition currentCwd : string := or_else (session_cwd (session options)) (DEFAULT_CWD env).

(** The variables of the loop over [history.messages]. *)
Record History : Type := {
  messages : list ChatMessage;
  currentAssistantMessage : string;
  lastUserPrompt : string
}.

(** [if (currentAssistantMessage.trim()) { messages.push(...); currentAssistantMessage = '' }] *)
Definition flush (h : History) : History :=
  if String.eqb (trim (currentAssistantMessage h)) "" then h
  else {| messages := messages h ++ [plain_message assistant (trim (currentAssistantMessage h))];
          currentAssistantMessage := EmptyString;
          lastUserPrompt := lastUserPrompt h |}.

(** One turn of the loop over [history.messages]. *)
Definition convert (h : History) (msg : StoredMessage) : History :=
  match msg with
  | user_prompt p =>
      let promptText := or_else p "" in
      let h := flush h in
      {| messages := messages h ++ [plain_message user promptText];
         currentAssistantMessage := currentAssistantMessage h;
         lastUserPrompt := promptText |}
  | text t _ =>
      {| messages := messages h;
         currentAssistantMessage := currentAssistantMessage h +:+ or_else t "";
         lastUserPrompt := lastUserPrompt h |}
  | tool_result _ out _ _ =>
      let output := or_else out "" in
      {| messages := messages h;
         currentAssistantMessage :=
           currentAssistantMessage h +:+ nl +:+ "[Tool Output: " +:+ output +:+ "]" +:+ nl;
         lastUserPrompt := lastUserPrompt h |}
  | tool_use _ _ _ _ => h
  | other_message _ => h
  end.

(** The log that the run loads: none without a store, a session id or a
    history. *)
Definition loaded_history : list StoredMessage :=
  match sessionStore env with
  | Some getSessionHistory =>
      if String.eqb (session_id (session options)) "" then []
      else match getSessionHistory (session_id (session options)) with
           | Some log => log
           | None => []
           end
  | None => []
  end.

(** The system message, then the log converted and flushed. *)
Definition history_of (log : list StoredMessage) : History :=
  let start := {| messages := [plain_message system (getSystemPrompt (templates env) currentCwd)];
                  currentAssistantMessage := EmptyString;
                  lastUserPrompt := EmptyString |} in
  match log with
  | [] => start
  | _ => flush (fold_left convert log start)
  end.

(** The messages of the first request: the history, and the new prompt
    unless it is the last one of the history. *)
Definition build_messages (log : list StoredMessage) (newPrompt : string) : M (list ChatMessage) :=
  let h := history_of log in
  if String.eqb newPrompt (lastUserPrompt h) then ret (messages h)
  else
    let* t := Date_now in
    let formattedPrompt :=
      getInitialPrompt (templates env) (toISOString env t) newPrompt None in
    ret (messages h ++ [plain_message user formattedPrompt]).

(** *** The stream assembler *)

(** The variables of one iteration that the stream fills. *)
Record Assembly : Type := {
  assistantMessage : string;
  toolCalls : list (option ToolCall);
  contentStarted : bool
}.

Definition truthy_string (x : option string) : bool := negb (falsy_string x).

Definition fd_name_of (t : ToolCallDelta) : option string :=
  match tcd_function t with Some f => fd_name f | None => None end.

Definition fd_arguments_of (t : ToolCallDelta) : option string :=
  match tcd_function t with Some f => fd_arguments f | None => None end.

(** The body of [for (const toolCall of delta.tool_calls)]. *)
Definition accumulate (calls : list (option ToolCall)) (toolCall : ToolCallDelta)
  : M (list (option ToolCall)) :=
  match tcd_index toolCall with
  | None => ret calls
  | Some index =>
      match array_get calls index with
      | None =>
          let* id := (if truthy_string (tcd_id toolCall) then ret (or_else (tcd_id toolCall) "")
                 else let* t := Date_now in
                      ret ("call_" +:+ string_of_Z t +:+ "_" +:+ string_of_nat index)) in
          ret (array_set calls index
                 {| tc_id := id;
                    tc_name := or_else (fd_name_of toolCall) "";
                    tc_arguments := or_else (fd_arguments_of toolCall) "" |})
      | Some call =>
          if truthy_string (fd_arguments_of toolCall) then
            ret (array_set calls index
                   {| tc_id := tc_id call;
                      tc_name := tc_name call;
                      tc_arguments := tc_arguments call +:+ or_else (fd_arguments_of toolCall) "" |})
          else ret calls
      end
  end.

Fixpoint accumulate_all (calls : list (option ToolCall)) (fragments : list ToolCallDelta)
  : M (list (option ToolCall)) :=
  match fragments with
  | [] => ret calls
  | toolCall :: rest =>
      let* calls' := accumulate calls toolCall in
      accumulate_all calls' rest
  end.

(** The body of the loop over the stream, for a chunk that has a delta. *)
Definition process_delta (a : Assembly) (delta : Delta) : M Assembly :=
  let* a1 := (if truthy_string (d_content delta) then
           let c := or_else (d_content delta) "" in
           when (negb (contentStarted a)) (sendMessage (stream_event content_block_start)) ;;
           sendMessage (stream_event (content_block_delta c)) ;;
           ret {| assistantMessage := assistantMessage a +:+ c;
                  toolCalls := toolCalls a;
                  contentStarted := true |}
         else ret a) in
  match d_tool_calls delta with
  | Some fragments =>
      let* calls := accumulate_all (toolCalls a1) fragments in
      ret {| assistantMessage := assistantMessage a1;
             toolCalls := calls;
             contentStarted := contentStarted a1 |}
  | None => ret a1
  end.

(** [for await (const chunk of stream)]: the body is suspended until the next
    chunk or the end of the stream; [if (aborted) break] comes first, and
    leaving the loop by [break] closes the iterator of the stream, whose
    [return()] is awaited: one more suspension. *)
Fixpoint consume (rest : list Chunk) (failure : option Thrown) (a : Assembly) : M Assembly :=
  suspend ;;
  match rest with
  | [] =>
      match failure with
      | Some e => throw e
      | None => ret a
      end
  | chunk :: rest' =>
      let* stop := aborted in
      if stop then suspend ;; ret a
      else
        match choice_delta chunk with
        | None => consume rest' failure a
        | Some delta =>
            let* a' := process_delta a delta in
            consume rest' failure a'
        end
  end.

(** *** One iteration of the agent loop *)

Definition MAX_ITERATIONS : nat := 50.

Definition lift {A : Type} (o : Outcome A) : M A :=
  match o with
  | Ret a => ret a
  | Throw e => throw e
  end.

(** [toolCall.function] where [toolCall] is an element of the array: a hole
    reads as [undefined], and a property of [undefined] cannot be read. *)
Definition element (entry : option ToolCall) : M ToolCall :=
  match entry with
  | Some toolCall => ret toolCall
  | None => throw (ErrorObj "TypeError" (typeErrorMessage (pf env) "undefined" "function"))
  end.

(** [toolCall.function.arguments || '{}'] *)
Definition arguments_text (toolCall : ToolCall) : string :=
  if String.eqb (tc_arguments toolCall) "" then "{}" else tc_arguments toolCall.

(** The loop "Send tool use messages". *)
Fixpoint announce (calls : list (option ToolCall)) : M unit :=
  match calls with
  | [] => ret tt
  | entry :: rest =>
      let* toolCall := element entry in
      let* toolInput := parse (arguments_text toolCall) in
      sendMessage
        (assistant_message ("msg_" +:+ tc_id toolCall)
           [tool_use_block (tc_id toolCall) (tc_name toolCall) toolInput]) ;;
      saveToDb (tool_use (tc_id toolCall) (tc_name toolCall) toolInput
                  ("tool_" +:+ tc_id toolCall)) ;;
      announce rest
  end.

(** [result.success ? (result.output || 'Success') : `Error: ${result.error}`] *)
Definition result_content (r : ToolResult) : string :=
  if success r then or_else (output r) "Success"
  else "Error: " +:+ template_of (error r).

(** [result.success ? result.output : `Error: ${result.error}`] *)
Definition result_display (r : ToolResult) : option string :=
  if success r then output r
  else Some ("Error: " +:+ template_of (error r)).

(** The loop "Execute tools"; [toolResults] is the array it pushes to. *)
Fixpoint execute_all (toolExecutor : ToolExecutor) (calls : list (option ToolCall))
    (toolResults : list ChatMessage) : M (list ChatMessage) :=
  match calls with
  | [] => ret toolResults
  | entry :: rest =>
      let* stop := aborted in
      if stop then ret toolResults
      else
        let* toolCall := element entry in
        let toolName := tc_name toolCall in
        let* toolArgs := parse (arguments_text toolCall) in
        let toolUseId := tc_id toolCall in
        let* explanation := lift (arg (pf env) toolArgs "explanation") in
        sendPermissionRequest toolUseId toolName toolArgs explanation ;;
        let* result := await (executeTool (pf env) toolExecutor toolName toolArgs) in
        sendMessage
          (user_message
             [tool_result_block (tc_id toolCall) (result_display result)
                (negb (success result))]) ;;
        saveToDb (tool_result (tc_id toolCall) (result_display result)
                    (negb (success result)) ("tool_result_" +:+ tc_id toolCall)) ;;
        execute_all toolExecutor rest
          (toolResults ++
           [{| role := tool; content := result_content result; tool_calls := None;
               tool_call_id := Some (tc_id toolCall); name := Some toolName |}])
  end.

(** [guiSettings.temperature || 0.3] *)
Definition temperature_of (guiSettings : ApiSettings) : string :=
  match temperature guiSettings with
  | Some t => if truthy (Some (JNum t)) then t else "0.3"
  | None => "0.3"
  end.

(** How the body of the [while] ends: by [break], or at its last statement
    with the messages grown by the tool results. *)
Inductive Step : Type :=
| Break
| Continue (messages : list ChatMessage).

Definition fresh : Assembly :=
  {| assistantMessage := EmptyString; toolCalls := []; contentStarted := false |}.

(** The argument of [client.chat.completions.create]. *)
Definition request_of (guiSettings : ApiSettings) (messages : list ChatMessage) : Request :=
  {| req_model := or_else (model guiSettings) "";
     req_messages := messages;
     req_tools := TOOLS;
     req_temperature := temperature_of guiSettings |}.

(** "Call OpenAI API" and "Process stream": the request is made and its
    stream is consumed. *)
Definition respond (client : Client) (request : Request) : M Assembly :=
  let* stream := await (create env client request) in
  consume (chunks stream) (stream_error stream) fresh.

(** "If no tool calls, we're done": the branch that ends with [break]. *)
Definition finish (iterationCount : nat) (a : Assembly) : M Step :=
  let* t := Date_now in
  sendMessage
    (assistant_message ("msg_" +:+ string_of_Z t) [text_block (assistantMessage a)]) ;;
  let* t' := Date_now in
  saveToDb (text (Some (assistantMessage a)) ("msg_" +:+ string_of_Z t' +:+ "_db")) ;;
  sendMessage
    (result_message "success" false iterationCount (assistantMessage a)
       (session_id (session options))) ;;
  onEvent
    (session_status (session_id (session options)) completed
       (session_title (session options)) None) ;;
  ret Break.

(** The rest of the body when there are tool calls: the assistant message
    is pushed, the calls are announced and executed, the results are
    pushed. *)
Definition run_tools (toolExecutor : ToolExecutor) (messages : list ChatMessage)
    (a : Assembly) : M Step :=
  let messages :=
    messages ++
    [{| role := assistant; content := assistantMessage a;
        tool_calls := Some (toolCalls a); tool_call_id := None; name := None |}] in
  (if String.eqb (trim (assistantMessage a)) "" then ret tt
   else
     let* t := Date_now in
     saveToDb (text (Some (assistantMessage a)) ("msg_text_" +:+ string_of_Z t))) ;;
  announce (toolCalls a) ;;
  let* toolResults := execute_all toolExecutor (toolCalls a) [] in
  ret (Continue (messages ++ toolResults)).

(** What follows the stream in the body of the [while]. *)
Definition conclude (toolExecutor : ToolExecutor) (iterationCount : nat)
    (messages : list ChatMessage) (a : Assembly) : M Step :=
  when (contentStarted a) (sendMessage (stream_event content_block_stop)) ;;
  match toolCalls a with
  | [] => finish iterationCount a
  | _ :: _ => run_tools toolExecutor messages a
  end.

(** The body of the [while], after [iterationCount++]. *)
Definition iteration (client : Client) (guiSettings : ApiSettings) (toolExecutor : ToolExecutor)
    (iterationCount : nat) (messages : list ChatMessage) : M Step :=
  let request := request_of guiSettings messages in
  record_request client request ;;
  let* a := respond client request in
  conclude toolExecutor iterationCount messages a.

(** [while (!aborted && iterationCount < MAX_ITERATIONS)].  The result is the
    value of [iterationCount] after the loop; it is [None] if [fuel] turns of
    the loop were not enough to leave it. *)
Fixpoint agent_loop (fuel : nat) (client : Client) (guiSettings : ApiSettings)
    (toolExecutor : ToolExecutor) (iterationCount : nat) (messages : list ChatMessage)
  : M (option nat) :=
  let* stop := aborted in
  if stop || negb (iterationCount <? MAX_ITERATIONS)%nat then ret (Some iterationCount)
  else
    match fuel with
    | O => ret None
    | S fuel' =>
        let iterationCount := S iterationCount in
        let* step := iteration client guiSettings toolExecutor iterationCount messages in
        match step with
        | Break => ret (Some iterationCount)
        | Continue messages' =>
            agent_loop fuel' client guiSettings toolExecutor iterationCount messages'
        end
    end.

(** *** [runClaude] *)

(** "Ensure baseURL ends with /v1 for OpenAI compatibility" *)
Definition ensure_v1 (baseUrl : string) : string :=
  if endsWith baseUrl "/v1" then baseUrl
  else replace_trailing_slash baseUrl +:+ "/v1".

Definition new_OpenAI (guiSettings : ApiSettings) : Client :=
  {| client_apiKey := or_else (apiKey guiSettings) "dummy-key";
     client_baseURL := ensure_v1 (or_else (baseUrl guiSettings) "") |}.

Definition not_configured : Thrown :=
  ErrorObj "Error" "API settings not configured. Please set Base URL and Model in Settings.".

(** From the history to the loop: the messages of the first request, the
    init event, the session update. *)
Definition prepare (guiSettings : ApiSettings) : M (list ChatMessage) :=
  let* messages := build_messages loaded_history (prompt options) in
  sendMessage
    (system_init currentCwd (session_id (session options))
       (map function_name TOOLS) (or_else (model guiSettings) "") "default") ;;
  when (has_onSessionUpdate options) (onSessionUpdate (session_id (session options))) ;;
  ret messages.

(** The [try] block of the background task.  [None]: the loop ran out of
    fuel. *)
Definition body : M (option unit) :=
  match loadApiSettings (stored_settings env) with
  | None => throw not_configured
  | Some guiSettings =>
      if falsy_string (baseUrl guiSettings) || falsy_string (model guiSettings) then
        throw not_configured
      else
        let client := new_OpenAI guiSettings in
        let toolExecutor := new_ToolExecutor (pf env) currentCwd (Some guiSettings) in
        let* messages := prepare guiSettings in
        let* final := agent_loop MAX_ITERATIONS client guiSettings toolExecutor 0 messages in
        match final with
        | None => ret None
        | Some iterationCount =>
            if (MAX_ITERATIONS <=? iterationCount)%nat then
              throw (ErrorObj "Error" "Max iterations reached")
            else ret (Some tt)
        end
  end.

Definition start (w : World) : RunState World :=
  {| events := []; recorded := []; session_updates := []; sent := [];
     world := w; awaits := 0; ticks := 0 |}.

(** The [catch] of the background task. *)
Definition report (e : Thrown) : M unit :=
  onEvent
    (session_status (session_id (session options)) error_status
       (session_title (session options)) (Some (String_of_thrown e))).

(** The whole background task of [runClaude], from the world [w] on: what it
    has done when its promise settles.  [None]: the loop ran out of fuel
    (which never happens, see [runClaude_settles]). *)
Definition runClaude (w : World) : option (RunState World) :=
  match body (start w) with
  | (Ret (Some _), st) => Some st
  | (Ret None, _) => None
  | (Throw e, st) => Some (snd (report e st))
  end.

End Run.
End Runner.

(** ** Notions of the specification *)

Module Spec.
Import Js Settings ToolsExecutor ToolsDefinitions PromptLoader Runner.

(** The relative form begins with a parent-directory segment: its first
    segment is [..]. *)
Definition begins_with_parent_segment (relativePath : string) : bool :=
  match NodePath.split_on "/" relativePath with
  | seg :: _ => String.eqb seg ".."
  | [] => false
  end.

(** The confinement check as the specification words it: the path, resolved
    against the working directory and taken relative to it, neither begins
    with a parent-directory segment nor is absolute. *)
Definition confined (process_cwd cwd filePath : string) : bool :=
  let relativePath :=
    NodePath.relative process_cwd cwd (NodePath.resolve process_cwd [cwd; filePath]) in
  negb (begins_with_parent_segment relativePath) && negb (NodePath.isAbsolute relativePath).

(** The resolved path lies in the working directory: the segments of the
    directory are the first segments of the path. *)
Fixpoint starts_with_segments (dir path : list string) : bool :=
  match dir, path with
  | [], _ => true
  | d :: dir', p :: path' => String.eqb d p && starts_with_segments dir' path'
  | _ :: _, [] => false
  end.

Definition inside (process_cwd cwd filePath : string) : bool :=
  starts_with_segments (NodePath.segments cwd)
    (NodePath.segments (NodePath.resolve process_cwd [cwd; filePath])).

(** The names of a tool schema. *)
Definition names (tools : list ToolDefinition) : list string := map function_name tools.

(** The text of the last [user_prompt] event of a log, if it has one. *)
Definition prompt_text (msg : StoredMessage) : option string :=
  match msg with
  | user_prompt p => Some (or_else p "")
  | _ => None
  end.

Definition last_user_prompt (log : list StoredMessage) : option string :=
  last (omap prompt_text log).

Definition is_user (m : ChatMessage) : bool :=
  match role m with user => true | _ => false end.

Definition is_user_prompt (msg : StoredMessage) : bool :=
  match msg with user_prompt _ => true | _ => false end.

(** The fragments of a stream, in the order of arrival. *)
Definition fragments_of_chunk (chunk : Chunk) : list ToolCallDelta :=
  match choice_delta chunk with
  | Some delta =>
      match d_tool_calls delta with
      | Some fragments => fragments
      | None => []
      end
  | None => []
  end.

Definition fragments_of (chunks : list Chunk) : list ToolCallDelta :=
  flat_map fragments_of_chunk chunks.

Definition in_slot (i : nat) (fragment : ToolCallDelta) : bool :=
  match tcd_index fragment with
  | Some j => Nat.eqb i j
  | None => false
  end.

(** The fragments of slot [i], in the order of arrival. *)
Definition slot_fragments (i : nat) (fragments : list ToolCallDelta) : list ToolCallDelta :=
  List.filter (in_slot i) fragments.

(** The argument fragment that a stream fragment carries (none is empty). *)
Definition argument_fragment (fragment : ToolCallDelta) : string :=
  or_else (fd_arguments_of fragment) "".

Definition concatenation (texts : list string) : string :=
  fold_right String.append EmptyString texts.

(** What the slot of an array of assembled calls must hold for the fragments
    of that slot: nothing for no fragment; otherwise one call, with the
    concatenated arguments, the name of the first fragment, and the id of the
    first fragment or a generated one. *)
Definition slot_assembled (i : nat) (fragments : list ToolCallDelta) (entry : option ToolCall)
  : Prop :=
  match fragments with
  | [] => entry = None
  | first :: _ =>
      exists call,
        entry = Some call /\
        tc_arguments call = concatenation (map argument_fragment fragments) /\
        tc_name call = or_else (fd_name_of first) "" /\
        (if truthy_string (tcd_id first) then Some (tc_id call) = tcd_id first
         else exists t, tc_id call = "call_" +:+ string_of_Z t +:+ "_" +:+ string_of_nat i)
  end.

(** The number of slots: one more than the highest index seen. *)
Definition slot_count (fragments : list ToolCallDelta) : nat :=
  fold_right
    (fun fragment n =>
       match tcd_index fragment with
       | Some j => Nat.max (S j) n
       | None => n
       end)
    0 fragments.

(** The array of calls for the fragments received: as long as the slots
    reach, and every slot as it must be. *)
Definition assembled (fragments : list ToolCallDelta) (calls : list (option ToolCall)) : Prop :=
  length calls = slot_count fragments /\
  forall i, slot_assembled i (slot_fragments i fragments) (array_get calls i).

(** Terminal events: the result event and the session status events. *)
Definition is_result (e : ServerEvent) : bool :=
  match e with
  | stream_message _ (result_message _ _ _ _ _) => true
  | _ => false
  end.

Definition is_status (e : ServerEvent) : bool :=
  match e with
  | session_status _ _ _ _ => true
  | _ => false
  end.

Definition is_error_status (e : ServerEvent) : bool :=
  match e with
  | session_status _ error_status _ _ => true
  | _ => false
  end.

Definition is_permission_request (e : ServerEvent) : bool :=
  match e with
  | permission_request _ _ _ _ _ => true
  | _ => false
  end.

Definition terminal (e : ServerEvent) : bool := is_result e || is_status e.



Section OnARun.
Context {World : Type} (env : Env World) (options : RunnerOptions).


(** The settings name an endpoint and a model. *)
Definition configured : Prop :=
  exists guiSettings,
    loadApiSettings (stored_settings env) = Some guiSettings /\
    falsy_string (baseUrl guiSettings) = false /\
    falsy_string (model guiSettings) = false.

(** What a part of the run may do to the state: it never takes back an
    event or a request; it makes no request; the events it adds satisfy [P];
    and, unless it may suspend, it leaves the world and the count of
    suspensions alone. *)
Definition keeps (P : ServerEvent -> bool) (suspends : bool) (st st' : RunState World) : Prop :=
  sent st' = sent st /\
  (exists evs, events st' = events st ++ evs /\ forallb P evs = true) /\
  (suspends = false -> world st' = world st /\ awaits st' = awaits st).

Definition framed {A : Type} (P : ServerEvent -> bool) (suspends : bool)
    (m : RunState World -> Outcome A * RunState World) : Prop :=
  forall st, keeps P suspends st (snd (m st)).

(** A part of the run that does not throw, and whose value satisfies [Q]. *)
Definition returns {A : Type} (Q : A -> Prop)
    (m : RunState World -> Outcome A * RunState World) : Prop :=
  forall st, exists a st', m st = (Ret a, st') /\ Q a.


(** The loop, entered with some fuel, a count, messages and a state, gets to
    the head of a later turn (with the fuel, count, messages and state of
    that moment): every turn in between went through its tool calls. *)
Inductive reaches (client : Client) (guiSettings : ApiSettings) (toolExecutor : ToolExecutor)
  : nat -> nat -> list ChatMessage -> RunState World ->
    nat -> nat -> list ChatMessage -> RunState World -> Prop :=
| reaches_here fuel iterationCount messages st :
    reaches client guiSettings toolExecutor fuel iterationCount messages st
      fuel iterationCount messages st
| reaches_next fuel iterationCount messages st messages' st' fuel2 count2 messages2 st2 :
    is_aborted env st = false ->
    iterationCount < MAX_ITERATIONS ->
    iteration env options client guiSettings toolExecutor (S iterationCount) messages st
      = (Ret (Continue messages'), st') ->
    reaches client guiSettings toolExecutor fuel (S iterationCount) messages' st'
      fuel2 count2 messages2 st2 ->
    reaches client guiSettings toolExecutor (S fuel) iterationCount messages st
      fuel2 count2 messages2 st2.

End OnARun.

Definition is_stream_event (e : ServerEvent) : bool :=
  match e with
  | stream_message _ (stream_event _) => true
  | _ => false
  end.

(** The announcement of a tool call to the interface. *)
Definition is_announcement (e : ServerEvent) : bool :=
  match e with
  | stream_message _ (assistant_message _ [tool_use_block _ _ _]) => true
  | _ => false
  end.

Definition is_tool_result (e : ServerEvent) : bool :=
  match e with
  | stream_message _ (user_message _) => true
  | _ => false
  end.

Definition quiet (e : ServerEvent) : bool := negb (terminal e).

Definition any_event (_ : ServerEvent) : bool := true.

End Spec.

(** ** Concrete environments *)

Module Examples.
Import Js Settings ToolsExecutor ToolsDefinitions PromptLoader Runner.

(** A JSON text written with apostrophes for its quotes. *)
Definition json_text (s : string) : string :=
  string_of_list_ascii
    (map (fun c => if Ascii.eqb c "'" then dquote else c) (list_ascii_of_string s)).

(** The world of the examples counts the requests made to the model. *)
Definition done_tool (_ : Json) (_ : ToolExecutionContext) (w : nat)
  : Outcome ToolResult * nat :=
  (Ret (succeeded "done"), w).

Definition failing_tool (_ : Json) (_ : ToolExecutionContext) (w : nat)
  : Outcome ToolResult * nat :=
  (Throw (ErrorObj "Error" "ENOENT: no such file"), w).

Definition host : Platform nat :=
  {| process_cwd := "/";
     typeErrorMessage :=
       fun v k => "Cannot read properties of " +:+ v +:+ " (reading '" +:+ k +:+ "')";
     executeBashTool := done_tool;
     executeReadTool := failing_tool;
     executeWriteTool := done_tool;
     executeEditTool := done_tool;
     executeGlobTool := done_tool;
     executeGrepTool := done_tool;
     executeMemoryTool := done_tool;
     tavily_search := fun _ _ w => (Ret [], w);
     search_formatResults := fun _ => "results";
     extract := fun _ _ _ w => (Ret JNull, w);
     extract_formatResults := fun _ => "pages" |}.

Definition executor : ToolExecutor := new_ToolExecutor host "/home/user/project" None.

Definition settings_with (endpoint : string) (memory : option bool) : ApiSettings :=
  {| apiKey := None; baseUrl := Some endpoint; model := Some "qwen";
     temperature := None; enableMemory := memory; tavilyApiKey := None;
     permissionMode := None |}.

Definition fragment (i : nat) (id name args : option string) : ToolCallDelta :=
  {| tcd_index := Some i; tcd_id := id;
     tcd_function := Some {| fd_name := name; fd_arguments := args |} |}.

Definition calls_chunk (fragments : list ToolCallDelta) : Chunk :=
  {| choice_delta := Some {| d_content := None; d_tool_calls := Some fragments |} |}.

Definition text_chunk (s : string) : Chunk :=
  {| choice_delta := Some {| d_content := Some s; d_tool_calls := None |} |}.

Definition environment (settings : ApiSettings)
    (store : option (string -> option (list StoredMessage)))
    (model : Client -> Request -> nat -> Outcome Stream * nat) (abort : option nat) : Env nat :=
  {| pf := host;
     templates :=
       {| platform := "linux";
          system_txt := "You work in {cwd} on {osName}.";
          initial_prompt_txt := "[{current_date}] {memory_section}{task}" |};
     stored_settings := Some settings;
     DEFAULT_CWD := "/home/user/project";
     sessionStore := store;
     now := fun k => (1700000000000 + Z.of_nat k)%Z;
     toISOString := fun _ => "2023-11-14T22:13:20.000Z";
     create := model;
     syntaxErrorMessage := fun _ => "Unexpected end of JSON input";
     abortAt := abort |}.

Definition options : RunnerOptions :=
  {| prompt := "hi";
     session := {| session_id := "s1"; session_cwd := None; session_title := "t" |};
     has_onSessionUpdate := true |}.

(** The call [Read({path: "x"})] in two fragments, the second without id and
    name. *)
Definition two_fragments : list Chunk :=
  [calls_chunk [fragment 0 (Some "c1") (Some "Read") (Some (json_text "{'pa"))];
   calls_chunk [fragment 0 None None (Some (json_text "th':'x'}"))]].

Definition read_call : Stream := {| chunks := two_fragments; stream_error := None |}.


(** Two calls in one answer. *)
Definition two_calls : Stream :=
  {| chunks :=
       [calls_chunk [fragment 0 (Some "c1") (Some "Bash") (Some (json_text "{'command':'ls'}"));
                     fragment 1 (Some "c2") (Some "Bash") (Some (json_text "{'command':'pwd'}"))]];
     stream_error := None |}.

Definition hello : Stream :=
  {| chunks := [text_chunk "Hel"; text_chunk "lo"]; stream_error := None |}.

(** A model that asks for a tool in its first [n] answers and then says
    hello. *)
Definition calls_then_hello (n : nat) (_ : Client) (_ : Request) (w : nat)
  : Outcome Stream * nat :=
  (Ret (if (w <? n)%nat then read_call else hello), S w).

Definition always_calls (_ : Client) (_ : Request) (w : nat) : Outcome Stream * nat :=
  (Ret read_call, S w).


Definition local : ApiSettings := settings_with "http://localhost:8000/" None.

End Examples.

(** ** Further notions: paths, search results, histories, traces *)

Module Paths.

(** A text without the separator. *)
Fixpoint free_of (sep : ascii) (s : string) : bool :=
  match s with
  | EmptyString => true
  | String c t => negb (Ascii.eqb c sep) && free_of sep t
  end.

(** A segment of a normalised path: not empty, not [.], not [..], and
    without a slash. *)
Definition proper (seg : string) : bool :=
  negb (String.eqb seg "") && negb (String.eqb seg ".") && negb (String.eqb seg "..")
  && free_of "/" seg.

(** The absolute path of a list of segments. *)
Definition from_root (segs : list string) : string := "/" +:+ String.concat "/" segs.

(** A text in which the pattern does not occur. *)
Fixpoint absent (pat s : string) : bool :=
  negb (String.prefix pat s) &&
  match s with
  | EmptyString => true
  | String _ t => absent pat t
  end.

End Paths.

(** ** The initial prompt *)

Module Prompt.
Import PromptLoader.

(** A template is a sequence of texts and placeholders. *)
Inductive Piece : Type :=
| Text (s : string)
| Date
| Memory
| Task.

Definition name_of (p : Piece) : string :=
  match p with
  | Text _ => EmptyString
  | Date => "current_date}"
  | Memory => "memory_section}"
  | Task => "task}"
  end.

Definition placeholder (p : Piece) : string :=
  match p with
  | Text s => s
  | _ => String "{" (name_of p)
  end.

(** The text of the template. *)
Definition render (pieces : list Piece) : string :=
  fold_right (fun p s => placeholder p +:+ s) EmptyString pieces.

(** The template with a date, a memory section and a task in the place of
    their placeholders. *)
Definition fill (date memory task : string) (pieces : list Piece) : string :=
  fold_right
    (fun p s =>
       match p with
       | Text t => t
       | Date => date
       | Memory => memory
       | Task => task
       end +:+ s)
    EmptyString pieces.

Definition is_kind (target p : Piece) : bool :=
  match target, p with
  | Date, Date | Memory, Memory | Task, Task => true
  | _, _ => false
  end.

(** The pieces after one placeholder has been replaced by a text. *)
Definition set (target : Piece) (repl : string) (pieces : list Piece) : list Piece :=
  map (fun p => if is_kind target p then Text repl else p) pieces.

(** The texts of the template have no brace. *)
Definition plain (pieces : list Piece) : bool :=
  forallb (fun p => match p with Text s => Paths.free_of "{" s | _ => true end) pieces.

Definition no_task (pieces : list Piece) : bool :=
  forallb (fun p => negb (is_kind Task p)) pieces.

(** The template of [tp] is made of these pieces, its texts have no brace,
    and the date stamp has neither a brace nor a dollar. *)
Definition template_of_form (tp : Templates) (isoString : string) (pieces : list Piece)
  : Prop :=
  initial_prompt_txt tp = render pieces /\
  plain pieces = true /\
  Paths.free_of "{" (currentDate_of isoString) = true /\
  Paths.free_of "$" (currentDate_of isoString) = true.

End Prompt.

(** ** The results of a web search ([web-search.ts]) *)

Module WebSearch.
Import ToolsExecutor.

(** An item of [TavilySearchResponse.results]; the score keeps the text of
    the number. *)
Record TavilyItem : Type := {
  item_title : string;
  item_url : string;
  item_content : string;
  item_score : string
}.

(** [content.substring(0, 200) + (content.length > 200 ? '...' : '')] *)
Definition snippet_of (content : string) : string :=
  String.substring 0 200 content
  +:+ (if (200 <? String.length content)%nat then "..." else EmptyString).

(** The function given to [data.results.map] in [WebSearchTool.search]. *)
Definition to_SearchResult (item : TavilyItem) : SearchResult :=
  {| title := item_title item;
     url := item_url item;
     snippet := snippet_of (item_content item);
     score := Some (item_score item) |}.

End WebSearch.

(** ** The text of a streamed answer *)

Module Transcript.
Import Js Settings ToolsExecutor PromptLoader Runner.

(** [delta.content], when the loop over the stream takes it: not empty. *)
Definition text_of_delta (delta : Delta) : option string :=
  if truthy_string (d_content delta) then Some (or_else (d_content delta) "") else None.

Definition text_of_chunk (chunk : Chunk) : option string :=
  match choice_delta chunk with
  | Some delta => text_of_delta delta
  | None => None
  end.

Definition texts_of (chunks : list Chunk) : list string := omap text_of_chunk chunks.

(** The events of a text: [content_block_start] unless the block has
    started, then one [content_block_delta] for each piece. *)
Definition text_events (sessionId : string) (started : bool) (texts : list string)
  : list ServerEvent :=
  match texts with
  | [] => []
  | _ :: _ =>
      (if started then [] else [stream_message sessionId (stream_event content_block_start)])
      ++ map (fun t => stream_message sessionId (stream_event (content_block_delta t))) texts
  end.

Definition is_empty {A : Type} (l : list A) : bool :=
  match l with [] => true | _ :: _ => false end.

(** The shape of a list of chat messages. *)
Definition is_assistant (m : ChatMessage) : bool :=
  match role m with assistant => true | _ => false end.

Definition ends_with_assistant (l : list ChatMessage) : bool :=
  match last l with
  | Some m => is_assistant m
  | None => false
  end.

(** No assistant message directly follows another one. *)
Fixpoint assistants_apart (l : list ChatMessage) : bool :=
  match l with
  | a :: rest =>
      match rest with
      | b :: _ => negb (is_assistant a && is_assistant b)
      | [] => true
      end && assistants_apart rest
  | [] => true
  end.

(** A message of the history that follows the system message: written by
    the user or by the assistant, with a content and nothing else. *)
Definition of_the_log (m : ChatMessage) : Prop :=
  (role m = user \/ role m = assistant) /\ m = plain_message (role m) (content m).

(** One pass of the loop "Execute tools": the call, its parsed arguments,
    their [explanation], and the result of the executor. *)
Record Execution : Type := {
  ex_call : ToolCall;
  ex_args : Json;
  ex_explanation : JsValue;
  ex_result : ToolResult
}.

(** The message pushed to [toolResults]. *)
Definition tool_message (e : Execution) : ChatMessage :=
  {| role := tool; content := result_content (ex_result e); tool_calls := None;
     tool_call_id := Some (tc_id (ex_call e)); name := Some (tc_name (ex_call e)) |}.

(** The events of one pass: the permission request, then the result. *)
Definition execution_events (sessionId : string) (e : Execution) : list ServerEvent :=
  [permission_request sessionId (tc_id (ex_call e)) (tc_name (ex_call e)) (ex_args e)
     (ex_explanation e);
   stream_message sessionId
     (user_message
        [tool_result_block (tc_id (ex_call e)) (result_display (ex_result e))
           (negb (success (ex_result e)))])].



(** The requests of a run carry more and more messages: each list of
    messages starts with the one before. *)
Fixpoint growing (l : list (list ChatMessage)) : Prop :=
  match l with
  | a :: rest =>
      match rest with
      | b :: _ => exists more, b = a ++ more
      | [] => True
      end /\ growing rest
  | [] => True
  end.

(** The text that an event of the log adds to the answer in progress: a
    text, or the output of a tool between brackets. *)
Definition piece (msg : StoredMessage) : string :=
  match msg with
  | text t _ => or_else t ""
  | tool_result _ out _ _ => nl +:+ "[Tool Output: " +:+ or_else out "" +:+ "]" +:+ nl
  | _ => EmptyString
  end.

(** The answer in progress becomes a message unless it is blank. *)
Definition answer (pending : string) : list ChatMessage :=
  if String.eqb (trim pending) "" then []
  else [plain_message assistant (trim pending)].

(** The messages that a log stands for: each prompt is a user message, and
    the pieces between two prompts make one answer. *)
Fixpoint merged (pending : string) (log : list StoredMessage) : list ChatMessage :=
  match log with
  | [] => answer pending
  | user_prompt p :: rest =>
      answer pending ++ plain_message user (or_else p "") :: merged EmptyString rest
  | msg :: rest => merged (pending +:+ piece msg) rest
  end.

(** While the log is read, the messages never end with an assistant
    message; the assistant messages are not empty and stand apart. *)
Definition between_prompts (h : History) : Prop :=
  assistants_apart (messages h) = true /\
  ends_with_assistant (messages h) = false /\
  Forall (fun m => is_assistant m = true -> String.eqb (content m) "" = false) (messages h).

(** A part of the run that suspends only while the run is not aborted:
    [k] is the suspension during which [abort()] is called. *)
Definition late {World A : Type} (k : nat) (m : @M World A) : Prop :=
  forall st, awaits (snd (m st)) <= Nat.max k (awaits st).

(** The request fails, or the stream breaks after its last chunk. *)
Definition fails {World : Type} (env : Env World) (client : Client) (request : Request)
    (w : World) (e : Thrown) : Prop :=
  (exists w1, create env client request w = (Throw e, w1)) \/
  (exists stream w1,
     create env client request w = (Ret stream, w1) /\ stream_error stream = Some e /\
     abortAt env = None).

(** The events that end a run. *)
Definition result_event (options : RunnerOptions) (turns : nat) (answer : string)
  : ServerEvent :=
  stream_message (session_id (session options))
    (result_message "success" false turns answer (session_id (session options))).

Definition completed_event (options : RunnerOptions) : ServerEvent :=
  session_status (session_id (session options)) completed
    (session_title (session options)) None.

Definition error_event (options : RunnerOptions) (message : string) : ServerEvent :=
  session_status (session_id (session options)) error_status
    (session_title (session options)) (Some message).

(** The messages of the requests of a run, in the order of the requests. *)
Definition conversations (requests : list (Client * Request)) : list (list ChatMessage) :=
  map (fun cr => req_messages (snd cr)) requests.

End Transcript.

(** ** A search service for the examples *)

Module SearchExamples.
Import Js Settings ToolsExecutor.




End SearchExamples.

(** * Properties *)

Import Js Settings ToolsExecutor ToolsDefinitions PromptLoader Runner Spec.

(** ** Strings *)

Lemma endsWith_refl (s : string) : endsWith s s = true.
Proof. destruct s; cbn [endsWith]; rewrite String.eqb_refl; reflexivity. Qed.

Lemma endsWith_app (a suf : string) : endsWith (a +:+ suf) suf = true.
Proof.
  induction a as [|c a IH].
  - apply endsWith_refl.
  - change (String c a +:+ suf) with (String c (a +:+ suf)).
    cbn [endsWith]. rewrite IH. apply orb_true_r.
Qed.

Lemma replace_trailing_slash_app (s : string) : replace_trailing_slash (s +:+ "/") = s.
Proof.
  induction s as [|c s IH]; simpl; [reflexivity|].
  rewrite IH.
  destruct (s +:+ "/") eqn:E.
  - destruct s; discriminate.
  - rewrite andb_false_r. reflexivity.
Qed.

Lemma replace_trailing_slash_id (s : string) :
  endsWith s "/" = false -> replace_trailing_slash s = s.
Proof.
  induction s as [|c s IH]; simpl; [reflexivity|].
  intros H. apply orb_false_elim in H as [Hhere Hrest].
  rewrite (IH Hrest).
  destruct (Ascii.eqb c "/") eqn:Ec; [|reflexivity].
  destruct (String.eqb s "") eqn:Es; [|reflexivity].
  apply Ascii.eqb_eq in Ec. apply String.eqb_eq in Es. subst.
  discriminate Hhere.
Qed.

(** ** The tool executor (C2) *)

Section ExecutorFacts.
Context {World : Type} (pf : Platform World).



End ExecutorFacts.



(** ** Path confinement (C1) *)

Lemma split_on_head_prefix (sep : ascii) (s : string) :
  match NodePath.split_on sep s with
  | seg :: _ => String.prefix seg s = true
  | [] => False
  end.
Proof.
  induction s as [|c s IH]; simpl; [reflexivity|].
  destruct (Ascii.eqb c sep); [reflexivity|].
  destruct (NodePath.split_on sep s) as [|seg rest]; [contradiction|].
  simpl. destruct (ascii_dec c c); [exact IH|congruence].
Qed.

Lemma prefix_trans_eqb (seg s : string) :
  String.prefix seg s = true -> String.eqb seg ".." = true -> startsWith s ".." = true.
Proof.
  intros Hp He. apply String.eqb_eq in He. subst seg. exact Hp.
Qed.

(** What [isPathSafe] accepts is confined: its test on the first two
    characters rejects every relative form whose first segment is [..]. *)
Lemma isPathSafe_sound {World : Type} (pf : Platform World) (ex : ToolExecutor)
    (filePath : string) :
  isPathSafe pf ex filePath = true ->
  confined (process_cwd pf) (cwd ex) filePath = true.
Proof.
  unfold isPathSafe, confined.
  set (rel := NodePath.relative _ _ _).
  intros H. apply andb_true_iff in H as [Hdots Habs].
  rewrite Habs, andb_true_r.
  unfold begins_with_parent_segment.
  pose proof (split_on_head_prefix "/" rel) as Hp.
  destruct (NodePath.split_on "/" rel) as [|seg rest]; [reflexivity|].
  destruct (String.eqb seg "..") eqn:E; [|reflexivity].
  rewrite (prefix_trans_eqb _ _ Hp E) in Hdots. discriminate Hdots.
Qed.

(** C1, at the failing input.  In the working directory [/home/user/project]
    the path [..foo] names an entry of the directory itself: resolved, it is
    [/home/user/project/..foo]; its relative form [..foo] is one segment,
    which is not the parent directory, and is not absolute.  [isPathSafe]
    refuses it all the same, because that form starts with two dots. *)
Theorem isPathSafe_refuses_a_confined_path :
  NodePath.resolve "/" ["/home/user/project"; "..foo"] = "/home/user/project/..foo" /\
  NodePath.relative "/" "/home/user/project" "/home/user/project/..foo" = "..foo" /\
  confined "/" "/home/user/project" "..foo" = true /\
  inside "/" "/home/user/project" "..foo" = true /\
  isPathSafe Examples.host Examples.executor "..foo" = false.
Proof. vm_compute. repeat split; reflexivity. Qed.

(** ** The tool schema (C9) *)

(** [getTools] does what the settings say. *)
Lemma getTools_follows_flag (settings : option ApiSettings) :
  let enabled :=
    match settings with
    | Some s => match enableMemory s with Some b => b | None => false end
    | None => false
    end in
  names (getTools settings) =
    ["Bash"; "Read"; "Write"; "Edit"; "Glob"; "Grep"; "WebSearch"; "ExtractPageContent"]
    ++ (if enabled then ["Memory"] else []).
Proof.
  unfold getTools, getTools_of.
  destruct settings as [s|]; [destruct (enableMemory s) as [[|]|]|]; reflexivity.
Qed.

(** The request of an iteration carries [TOOLS], whatever the settings. *)
Lemma request_tools (guiSettings : ApiSettings) (messages : list ChatMessage) :
  req_tools (request_of guiSettings messages) = TOOLS.
Proof. reflexivity. Qed.

(** C9, at the failing input.  With [enableMemory] set to [false], the
    request that the run makes lists the Memory tool, and so does the init
    event; [getTools], which the runner does not call, would have left it
    out. *)
Theorem memory_tool_sent_although_disabled :
  let settings := Examples.settings_with "http://localhost:8000/" (Some false) in
  let env := Examples.environment settings None (Examples.calls_then_hello 0) None in
  enableMemory settings = Some false /\
  option_map (fun st => map (fun cr => names (req_tools (snd cr))) (sent st))
    (runClaude env Examples.options 0)
  = Some [["Bash"; "Read"; "Write"; "Edit"; "Glob"; "Grep"; "WebSearch";
           "ExtractPageContent"; "Memory"]] /\
  option_map (fun st => head (events st)) (runClaude env Examples.options 0)
  = Some (Some (stream_message "s1"
                  (system_init "/home/user/project" "s1"
                     ["Bash"; "Read"; "Write"; "Edit"; "Glob"; "Grep"; "WebSearch";
                      "ExtractPageContent"; "Memory"] "qwen" "default"))) /\
  names (getTools (Some settings))
  = ["Bash"; "Read"; "Write"; "Edit"; "Glob"; "Grep"; "WebSearch"; "ExtractPageContent"].
Proof. vm_compute. repeat split; reflexivity. Qed.

(** ** The conversation history (C5) *)

Section HistoryFacts.
Context {World : Type} (env : Env World) (options : RunnerOptions).

Lemma flush_lastUserPrompt (h : History) : lastUserPrompt (flush h) = lastUserPrompt h.
Proof. unfold flush. destruct (String.eqb _ _); reflexivity. Qed.

Lemma flush_users (h : History) :
  List.filter is_user (messages (flush h)) = List.filter is_user (messages h).
Proof.
  unfold flush. destruct (String.eqb _ _); [reflexivity|].
  simpl. rewrite List.filter_app. simpl. apply app_nil_r.
Qed.

(** The variable [lastUserPrompt] holds the text of the last [user_prompt]
    event read so far. *)
Lemma lastUserPrompt_fold (log : list StoredMessage) (h : History) :
  lastUserPrompt (fold_left convert log h)
  = default (lastUserPrompt h) (last_user_prompt log).
Proof.
  revert h. induction log as [|msg log IH]; intros h; [reflexivity|].
  simpl. rewrite IH. unfold last_user_prompt. csimpl.
  destruct msg as [p|t u|i n a u|i o e u|ty]; simpl; try reflexivity.
  rewrite last_cons.
  destruct (last (omap prompt_text log)); reflexivity.
Qed.

(** Every [user_prompt] event becomes one user message, and nothing else
    does. *)
Lemma users_fold (log : list StoredMessage) (h : History) :
  length (List.filter is_user (messages (fold_left convert log h)))
  = length (List.filter is_user (messages h)) + length (List.filter is_user_prompt log).
Proof.
  revert h. induction log as [|msg log IH]; intros h; simpl; [lia|].
  rewrite IH.
  destruct msg as [p|t u|i n a u|i o e u|ty]; simpl; try lia.
  rewrite List.filter_app, length_app, flush_users. simpl. lia.
Qed.

Lemma history_of_lastUserPrompt (log : list StoredMessage) :
  lastUserPrompt (history_of env options log) = default EmptyString (last_user_prompt log).
Proof.
  unfold history_of. destruct log as [|msg log]; [reflexivity|].
  rewrite flush_lastUserPrompt. apply lastUserPrompt_fold.
Qed.

Lemma history_of_users (log : list StoredMessage) :
  length (List.filter is_user (messages (history_of env options log)))
  = length (List.filter is_user_prompt log).
Proof.
  unfold history_of. destruct log as [|msg log]; [reflexivity|].
  rewrite flush_users, users_fold. reflexivity.
Qed.

End HistoryFacts.

(** C5.  The history built from a log [log] and a new prompt [P]:
    - the prompt that the builder compares with is the text of the last
      [user_prompt] event of the log (the empty text if there is none);
    - if [P] is that text, the messages are those of the log alone, with one
      user message for each [user_prompt] event: no user message is added
      for [P];
    - if [P] differs from it, one user message is appended after the
      messages of the log, whose content is the initial-prompt template
      filled in with [P] and the date read at that moment. *)
Theorem resubmitted_prompt_is_not_appended {World : Type} (env : Env World)
    (options : RunnerOptions) (log : list StoredMessage) (P : string)
    (st : RunState World) :
  let h := history_of env options log in
  lastUserPrompt h = default EmptyString (last_user_prompt log) /\
  (last_user_prompt log = Some P ->
     build_messages env options log P st = (Ret (messages h), st) /\
     length (List.filter is_user (messages h)) = length (List.filter is_user_prompt log)) /\
  (P <> default EmptyString (last_user_prompt log) ->
     build_messages env options log P st
     = (Ret (messages h ++
             [{| role := user;
                 content :=
                   getInitialPrompt (templates env) (toISOString env (now env (ticks st))) P None;
                 tool_calls := None; tool_call_id := None; name := None |}]),
        snd (Date_now env st))).
Proof.
  intros h. pose proof (history_of_lastUserPrompt env options log) as Hlast.
  fold h in Hlast. split; [exact Hlast|]. split.
  - intros HP. split; [|apply history_of_users].
    unfold build_messages. fold h. rewrite Hlast, HP. simpl.
    rewrite String.eqb_refl. reflexivity.
  - intros HP. unfold build_messages. fold h. rewrite Hlast.
    destruct (String.eqb_spec P (default EmptyString (last_user_prompt log))) as [E|_];
      [contradiction|].
    reflexivity.
Qed.

(** The scenario of the specification: the log holds the prompt "hi" and "hi"
    is submitted again; and the same log with another prompt. *)
Lemma resubmitted_prompt_is_not_appended_witness :
  let env := Examples.environment Examples.local None Examples.always_calls None in
  fst (build_messages env Examples.options [user_prompt (Some "hi")] "hi" (start 0))
  = Ret [plain_message system "You work in /home/user/project on Linux.";
         plain_message user "hi"] /\
  fst (build_messages env Examples.options [user_prompt (Some "hi")] "again" (start 0))
  = Ret [plain_message system "You work in /home/user/project on Linux.";
         plain_message user "hi";
         plain_message user "[2023-11-14 22:13:20] again"].
Proof.
  intros env. split.
  - exact (f_equal fst
             (proj1 (proj1 (proj2 (resubmitted_prompt_is_not_appended env
                Examples.options [user_prompt (Some "hi")] "hi" (start 0))) eq_refl))).
  - refine (f_equal fst
             (proj2 (proj2 (resubmitted_prompt_is_not_appended env
                Examples.options [user_prompt (Some "hi")] "again" (start 0))) _)).
    simpl. discriminate.
Defined.

(** ** The stream assembler (C4) *)

Section Arrays.
Context {A : Type}.
Implicit Types (arr : list (option A)) (x : A) (i j : nat).

Lemma array_set_length arr i x : length (array_set arr i x) = Nat.max (S i) (length arr).
Proof.
  unfold array_set. case_decide.
  - rewrite length_insert. lia.
  - rewrite !length_app, length_replicate. simpl. lia.
Qed.

Lemma array_get_set_eq arr i x : array_get (array_set arr i x) i = Some x.
Proof.
  unfold array_get, array_set. case_decide.
  - rewrite list_lookup_insert_eq by assumption. reflexivity.
  - rewrite lookup_app_r by lia.
    rewrite lookup_app_r by (rewrite length_replicate; lia).
    rewrite length_replicate, Nat.sub_diag. reflexivity.
Qed.

Lemma array_get_set_ne arr i j x : i <> j -> array_get (array_set arr i x) j = array_get arr j.
Proof.
  intros Hne. unfold array_get, array_set. case_decide.
  - rewrite list_lookup_insert_ne by assumption. reflexivity.
  - destruct (decide (j < length arr)) as [Hj|Hj].
    + rewrite lookup_app_l by assumption. reflexivity.
    + rewrite (lookup_ge_None_2 arr j) by lia.
      rewrite lookup_app_r by lia.
      destruct (decide (j - length arr < i - length arr)) as [Hk|Hk].
      * rewrite lookup_app_l by (rewrite length_replicate; assumption).
        rewrite lookup_replicate_2 by assumption. reflexivity.
      * rewrite lookup_app_r by (rewrite length_replicate; lia).
        rewrite length_replicate.
        destruct (j - length arr - (i - length arr)) as [|k] eqn:E; [lia|reflexivity].
Qed.

End Arrays.

Lemma append_cons (c : ascii) (a b : string) : String c a +:+ b = String c (a +:+ b).
Proof. reflexivity. Qed.

Lemma append_nil_r (s : string) : s +:+ EmptyString = s.
Proof.
  induction s as [|c s IH]; [reflexivity|]. rewrite append_cons, IH. reflexivity.
Qed.

Lemma append_assoc (a b c : string) : (a +:+ b) +:+ c = a +:+ (b +:+ c).
Proof.
  induction a as [|x a IH]; [reflexivity|]. rewrite !append_cons, IH. reflexivity.
Qed.

Lemma concatenation_snoc (texts : list string) (s : string) :
  concatenation (texts ++ [s]) = concatenation texts +:+ s.
Proof.
  induction texts as [|x texts IH]; simpl.
  - apply append_nil_r.
  - fold (concatenation (texts ++ [s])). fold (concatenation texts).
    rewrite IH, append_assoc. reflexivity.
Qed.

Lemma concatenation_step (first : ToolCallDelta) (others : list ToolCallDelta)
    (fragment : ToolCallDelta) :
  concatenation (map argument_fragment (first :: others)) +:+ argument_fragment fragment
  = argument_fragment first
    +:+ concatenation (map argument_fragment (others ++ [fragment])).
Proof.
  change (concatenation (map argument_fragment (first :: others)))
    with (argument_fragment first +:+ concatenation (map argument_fragment others)).
  rewrite map_app.
  change (map argument_fragment [fragment]) with [argument_fragment fragment].
  rewrite concatenation_snoc, append_assoc. reflexivity.
Qed.

Lemma slot_count_snoc (fragments : list ToolCallDelta) (fragment : ToolCallDelta) :
  slot_count (fragments ++ [fragment])
  = match tcd_index fragment with
    | Some j => Nat.max (S j) (slot_count fragments)
    | None => slot_count fragments
    end.
Proof.
  induction fragments as [|f fs IH]; simpl.
  - destruct (tcd_index fragment); [lia|reflexivity].
  - fold (slot_count (fs ++ [fragment])). fold (slot_count fs). rewrite IH.
    destruct (tcd_index f), (tcd_index fragment); lia.
Qed.

Lemma slot_fragments_snoc (i : nat) (fragments : list ToolCallDelta) (fragment : ToolCallDelta) :
  slot_fragments i (fragments ++ [fragment])
  = slot_fragments i fragments ++ (if in_slot i fragment then [fragment] else []).
Proof. unfold slot_fragments. rewrite List.filter_app. reflexivity. Qed.

Lemma truthy_string_or_else (x : option string) :
  truthy_string x = true -> Some (or_else x EmptyString) = x.
Proof.
  unfold truthy_string, falsy_string, or_else.
  destruct x as [s|]; [|discriminate]. destruct (String.eqb s ""); [discriminate|reflexivity].
Qed.

Lemma falsy_string_or_else (x : option string) :
  truthy_string x = false -> or_else x EmptyString = EmptyString.
Proof.
  unfold truthy_string, falsy_string, or_else.
  destruct x as [s|]; [|reflexivity]. destruct (String.eqb s ""); [reflexivity|discriminate].
Qed.

Section AssemblerFacts.
Context {World : Type} (env : Env World) (options : RunnerOptions).

(** One fragment more: the array stays assembled. *)
Lemma accumulate_assembles (fragments : list ToolCallDelta) (calls : list (option ToolCall))
    (fragment : ToolCallDelta) (st : RunState World) :
  assembled fragments calls ->
  exists calls' st',
    accumulate env calls fragment st = (Ret calls', st') /\
    assembled (fragments ++ [fragment]) calls' /\
    events st' = events st /\ awaits st' = awaits st.
Proof.
  intros [Hlen Hslots]. unfold accumulate.
  destruct (tcd_index fragment) as [index|] eqn:Hindex.
  2:{ exists calls, st. split; [reflexivity|]. split; [|split; reflexivity]. split.
      - rewrite slot_count_snoc, Hindex. exact Hlen.
      - intros i. rewrite slot_fragments_snoc. unfold in_slot. rewrite Hindex.
        rewrite app_nil_r. apply Hslots. }
  pose proof (Hslots index) as Hhere.
  assert (Hother : forall i x, i <> index ->
            slot_assembled i (slot_fragments i (fragments ++ [fragment]))
              (array_get (array_set calls index x) i)).
  { intros i x Hne. rewrite slot_fragments_snoc. unfold in_slot. rewrite Hindex.
    destruct (Nat.eqb_spec i index) as [->|_]; [contradiction|].
    rewrite app_nil_r, array_get_set_ne by congruence. apply Hslots. }
  assert (Hhere' : slot_fragments index (fragments ++ [fragment])
                   = slot_fragments index fragments ++ [fragment]).
  { rewrite slot_fragments_snoc. unfold in_slot. rewrite Hindex, Nat.eqb_refl. reflexivity. }
  destruct (array_get calls index) as [call|] eqn:Hget.
  - (* the slot exists *)
    destruct (slot_fragments index fragments) as [|first others] eqn:Hfs;
      [discriminate Hhere|].
    destruct Hhere as (call0 & Hcall0 & Hargs & Hname & Hid).
    injection Hcall0 as <-.
    destruct (truthy_string (fd_arguments_of fragment)) eqn:Htruthy.
    + eexists _, st. split; [reflexivity|]. split; [|split; reflexivity]. split.
      * rewrite array_set_length, slot_count_snoc, Hindex, Hlen. reflexivity.
      * intros i. destruct (decide (i = index)) as [->|Hne]; [|apply Hother; exact Hne].
        rewrite Hhere', array_get_set_eq. simpl.
        eexists. split; [reflexivity|]. simpl. split; [|split; assumption].
        rewrite Hargs. apply concatenation_step.
    + exists calls, st. split; [reflexivity|]. split; [|split; reflexivity]. split.
      * rewrite slot_count_snoc, Hindex, Hlen.
        assert (index < length calls); [|lia].
        unfold array_get in Hget. destruct (calls !! index) eqn:E; [|discriminate].
        eapply lookup_lt_Some; exact E.
      * intros i. destruct (decide (i = index)) as [->|Hne].
        2:{ rewrite slot_fragments_snoc. unfold in_slot. rewrite Hindex.
            destruct (Nat.eqb_spec i index) as [->|_]; [contradiction|].
            rewrite app_nil_r. apply Hslots. }
        rewrite Hhere', Hget. simpl.
        eexists. split; [reflexivity|]. split; [|split; assumption].
        assert (Hnone : argument_fragment fragment = EmptyString)
          by (apply falsy_string_or_else; exact Htruthy).
        rewrite <- concatenation_step, Hnone, append_nil_r. exact Hargs.
  - (* the slot is new *)
    destruct (slot_fragments index fragments) as [|first others] eqn:Hfs.
    2:{ destruct Hhere as (call0 & Hcall0 & _). discriminate Hcall0. }
    destruct (truthy_string (tcd_id fragment)) eqn:Hid.
    + eexists _, st. split; [reflexivity|]. split; [|split; reflexivity]. split.
      * rewrite array_set_length, slot_count_snoc, Hindex, Hlen. reflexivity.
      * intros i. destruct (decide (i = index)) as [->|Hne]; [|apply Hother; exact Hne].
        rewrite Hhere', array_get_set_eq. simpl.
        eexists. split; [reflexivity|]. simpl. rewrite Hid.
        split; [rewrite append_nil_r; reflexivity|].
        split; [reflexivity|]. apply truthy_string_or_else. exact Hid.
    + eexists _, _. split; [reflexivity|]. split; [|split; reflexivity]. split.
      * rewrite array_set_length, slot_count_snoc, Hindex, Hlen. reflexivity.
      * intros i. destruct (decide (i = index)) as [->|Hne]; [|apply Hother; exact Hne].
        rewrite Hhere', array_get_set_eq. simpl.
        eexists. split; [reflexivity|]. simpl. rewrite Hid.
        split; [rewrite append_nil_r; reflexivity|].
        split; [reflexivity|]. eexists. reflexivity.
Qed.

Lemma accumulate_all_assembles (more : list ToolCallDelta) :
  forall (fragments : list ToolCallDelta) (calls : list (option ToolCall)) (st : RunState World),
  assembled fragments calls ->
  exists calls' st',
    accumulate_all env calls more st = (Ret calls', st') /\
    assembled (fragments ++ more) calls' /\
    events st' = events st /\ awaits st' = awaits st.
Proof.
  induction more as [|fragment more IH]; intros fragments calls st Hass.
  - exists calls, st. rewrite app_nil_r. repeat split; try reflexivity; apply Hass.
  - destruct (accumulate_assembles fragments calls fragment st Hass)
      as (calls1 & st1 & Hstep & Hass1 & Hev1 & Haw1).
    destruct (IH _ calls1 st1 Hass1) as (calls2 & st2 & Hrest & Hass2 & Hev2 & Haw2).
    exists calls2, st2. simpl. unfold bind. rewrite Hstep, Hrest.
    split; [reflexivity|]. split; [|split; congruence].
    rewrite <- app_assoc in Hass2. exact Hass2.
Qed.

(** A chunk with a delta: its fragments are added, and the suspensions do
    not change. *)
Lemma process_delta_assembles (fragments : list ToolCallDelta) (a : Assembly) (delta : Delta)
    (st : RunState World) :
  assembled fragments (toolCalls a) ->
  exists a' st',
    process_delta env options a delta st = (Ret a', st') /\
    assembled (fragments ++ fragments_of_chunk {| choice_delta := Some delta |}) (toolCalls a') /\
    awaits st' = awaits st.
Proof.
  intros Hass. unfold process_delta, fragments_of_chunk. simpl.
  set (first_part := if truthy_string (d_content delta) then _ else _).
  assert (Hfirst : exists a1 st1, first_part st = (Ret a1, st1) /\
                     toolCalls a1 = toolCalls a /\ awaits st1 = awaits st).
  { subst first_part. destruct (truthy_string (d_content delta)).
    - destruct (contentStarted a); eexists _, _; (split; [reflexivity|]); split; reflexivity.
    - exists a, st. repeat split. }
  destruct Hfirst as (a1 & st1 & Hfirst & Hcalls & Haw1).
  unfold bind at 1. rewrite Hfirst.
  destruct (d_tool_calls delta) as [more|].
  - rewrite <- Hcalls in Hass.
    destruct (accumulate_all_assembles more fragments (toolCalls a1) st1 Hass)
      as (calls' & st' & Hacc & Hass' & _ & Haw').
    unfold bind. rewrite Hacc. eexists _, st'. split; [reflexivity|].
    split; [exact Hass'|congruence].
  - exists a1, st1. split; [reflexivity|]. rewrite app_nil_r, Hcalls.
    split; [exact Hass|exact Haw1].
Qed.

(** The loop over the stream, one turn at a time. *)
Lemma consume_nil (failure : option Thrown) (a : Assembly) (st : RunState World) :
  consume env options [] failure a st
  = match failure with
    | Some e => (Throw e, snd (suspend st))
    | None => (Ret a, snd (suspend st))
    end.
Proof. destruct failure; reflexivity. Qed.

Lemma consume_cons (chunk : Chunk) (rest : list Chunk) (failure : option Thrown)
    (a : Assembly) (st : RunState World) :
  consume env options (chunk :: rest) failure a st
  = let st0 := snd (suspend st) in
    if is_aborted env st0 then (Ret a, snd (suspend st0))
    else
      match choice_delta chunk with
      | None => consume env options rest failure a st0
      | Some delta =>
          match process_delta env options a delta st0 with
          | (Ret a', st1) => consume env options rest failure a' st1
          | (Throw e, st1) => (Throw e, st1)
          end
      end.
Proof.
  cbn [consume]. unfold bind, suspend, aborted. cbn [snd].
  destruct (is_aborted env _); [reflexivity|].
  destruct (choice_delta chunk); reflexivity.
Qed.

Lemma never_aborted (st : RunState World) : abortAt env = None -> is_aborted env st = false.
Proof. intros H. unfold is_aborted. rewrite H. reflexivity. Qed.

(** A stream that closes, consumed without an abort: the calls are assembled
    from all its fragments. *)
Lemma consume_assembles (chunks : list Chunk) :
  abortAt env = None ->
  forall (fragments : list ToolCallDelta) (a : Assembly) (st : RunState World),
  assembled fragments (toolCalls a) ->
  exists a' st',
    consume env options chunks None a st = (Ret a', st') /\
    assembled (fragments ++ fragments_of chunks) (toolCalls a').
Proof.
  intros Hno. induction chunks as [|chunk chunks IH]; intros fragments a st Hass.
  - exists a, (snd (suspend st)). split; [apply (consume_nil None)|].
    rewrite app_nil_r. exact Hass.
  - rewrite consume_cons. cbv zeta. rewrite (never_aborted _ Hno).
    unfold fragments_of. cbn [flat_map]. fold (fragments_of chunks).
    destruct chunk as [[delta|]]; cbn [choice_delta].
    + destruct (process_delta_assembles fragments a delta (snd (suspend st)) Hass)
        as (a1 & st1 & Hstep & Hass1 & _).
      rewrite Hstep.
      destruct (IH _ a1 st1 Hass1) as (a2 & st2 & Hrest & Hass2).
      exists a2, st2. split; [exact Hrest|].
      rewrite app_assoc. exact Hass2.
    + destruct (IH fragments a (snd (suspend st)) Hass) as (a2 & st2 & Hrest & Hass2).
      exists a2, st2. split; [exact Hrest|]. exact Hass2.
Qed.

End AssemblerFacts.

(** C4.  A stream that is consumed to its end leaves, for the fragments it
    brought in whatever deltas, an array with exactly one call in every slot
    that a fragment named and nothing in the others; the call of a slot has
    the argument fragments of the slot concatenated in the order of arrival,
    the id of the first fragment of the slot (a generated one if that
    fragment has none) and the name of that first fragment.  The two
    fragments of [Read({path: "x"})] give the one call with id [c1]. *)
Theorem tool_call_fragments_are_reassembled {World : Type} (env : Env World)
    (options : RunnerOptions) (chunks : list Chunk) (st : RunState World) :
  abortAt env = None ->
  (exists a st',
     consume env options chunks None fresh st = (Ret a, st') /\
     length (toolCalls a) = slot_count (fragments_of chunks) /\
     forall i,
       match slot_fragments i (fragments_of chunks) with
       | [] => array_get (toolCalls a) i = None
       | first :: others =>
           exists call,
             array_get (toolCalls a) i = Some call /\
             tc_arguments call = concatenation (map argument_fragment (first :: others)) /\
             tc_name call = or_else (fd_name_of first) "" /\
             (if truthy_string (tcd_id first) then Some (tc_id call) = tcd_id first
              else exists t, tc_id call = "call_" +:+ string_of_Z t +:+ "_" +:+ string_of_nat i)
       end) /\
  (chunks = Examples.two_fragments ->
   exists st',
     consume env options chunks None fresh st
     = (Ret {| assistantMessage := EmptyString;
               toolCalls := [Some {| tc_id := "c1"; tc_name := "Read";
                                     tc_arguments := Examples.json_text "{'path':'x'}" |}];
               contentStarted := false |}, st')).
Proof.
  intros Hno. split.
  - assert (Hstart : assembled [] (toolCalls fresh)).
    { split; [reflexivity|]. intros i. simpl. unfold array_get. simpl. reflexivity. }
    destruct (consume_assembles env options chunks Hno [] fresh st Hstart)
      as (a & st' & Hrun & Hlen & Hslots).
    exists a, st'. split; [exact Hrun|]. split; [exact Hlen|].
    intros i. specialize (Hslots i). unfold slot_assembled in Hslots.
    change ([] ++ fragments_of chunks) with (fragments_of chunks) in Hslots.
    destruct (slot_fragments i (fragments_of chunks)); exact Hslots.
  - intros ->. destruct env. cbn [abortAt] in Hno. subst.
    eexists. lazy. reflexivity.
Qed.

Lemma tool_call_fragments_are_reassembled_witness :
  exists st',
    consume (Examples.environment Examples.local None Examples.always_calls None)
      Examples.options Examples.two_fragments None fresh (start 0)
    = (Ret {| assistantMessage := EmptyString;
              toolCalls := [Some {| tc_id := "c1"; tc_name := "Read";
                                    tc_arguments := Examples.json_text "{'path':'x'}" |}];
              contentStarted := false |}, st').
Proof.
  exact (proj2 (tool_call_fragments_are_reassembled
                  (Examples.environment Examples.local None Examples.always_calls None)
                  Examples.options Examples.two_fragments (start 0) eq_refl) eq_refl).
Defined.

(** ** What the parts of a run leave unchanged *)

Section Frames.
Context {World : Type} (env : Env World) (options : RunnerOptions).
Implicit Types (P Q : ServerEvent -> bool) (st : RunState World).

Lemma keeps_refl P s st : keeps P s st st.
Proof.
  split; [reflexivity|]. split; [|intros _; split; reflexivity].
  exists []. rewrite app_nil_r. split; reflexivity.
Qed.

Lemma keeps_trans P s st1 st2 st3 :
  keeps P s st1 st2 -> keeps P s st2 st3 -> keeps P s st1 st3.
Proof.
  intros (Hs1 & (e1 & He1 & Hp1) & Hq1) (Hs2 & (e2 & He2 & Hp2) & Hq2).
  split; [congruence|]. split.
  - exists (e1 ++ e2). rewrite He2, He1, <- app_assoc. split; [reflexivity|].
    rewrite forallb_app, Hp1, Hp2. reflexivity.
  - intros Hs. destruct (Hq1 Hs), (Hq2 Hs). split; congruence.
Qed.

Lemma keeps_weaken P Q (s s' : bool) st st' :
  (forall e, P e = true -> Q e = true) -> (s = true -> s' = true) ->
  keeps P s st st' -> keeps Q s' st st'.
Proof.
  intros HPQ Hss (Hsent & (evs & Hevs & HP) & Hstill).
  split; [exact Hsent|]. split.
  - exists evs. split; [exact Hevs|].
    rewrite forallb_forall in *. intros e He. apply HPQ, HP, He.
  - intros Hs'. apply Hstill. destruct s; [|reflexivity].
    rewrite Hss in Hs' by reflexivity. discriminate Hs'.
Qed.

Lemma framed_weaken {A : Type} P Q (s s' : bool) (m : @M World A) :
  (forall e, P e = true -> Q e = true) -> (s = true -> s' = true) ->
  framed P s m -> framed Q s' m.
Proof. intros HPQ Hss Hm st. eapply keeps_weaken; eauto. Qed.

Lemma framed_ret {A : Type} P s (a : A) : framed P s (@ret World A a).
Proof. intros st. apply keeps_refl. Qed.

Lemma framed_throw {A : Type} P s (e : Thrown) : framed P s (@throw World A e).
Proof. intros st. apply keeps_refl. Qed.

Lemma framed_bind {A B : Type} P s (m : @M World A) (k : A -> @M World B) :
  framed P s m -> (forall a, framed P s (k a)) -> framed P s (bind m k).
Proof.
  intros Hm Hk st. unfold bind. specialize (Hm st).
  destruct (m st) as [[a|e] st1]; simpl in *; [|exact Hm].
  eapply keeps_trans; [exact Hm|apply Hk].
Qed.

Lemma framed_onEvent P s (e : ServerEvent) : P e = true -> framed P s (@onEvent World e).
Proof.
  intros HP st. split; [reflexivity|]. split; [|intros _; split; reflexivity].
  exists [e]. split; [reflexivity|]. simpl. rewrite HP. reflexivity.
Qed.

Lemma framed_saveToDb P s (m : StoredMessage) : framed P s (saveToDb env options m).
Proof.
  intros st. unfold saveToDb.
  destruct (sessionStore env); [|apply keeps_refl].
  destruct (String.eqb _ _); [apply keeps_refl|].
  split; [reflexivity|]. split; [|intros _; split; reflexivity].
  exists []. simpl. rewrite app_nil_r. split; reflexivity.
Qed.

Lemma framed_Date_now P s : framed P s (Date_now env).
Proof.
  intros st. split; [reflexivity|]. split; [|intros _; split; reflexivity].
  exists []. simpl. rewrite app_nil_r. split; reflexivity.
Qed.

Lemma framed_onSessionUpdate P s (id : string) : framed P s (@onSessionUpdate World id).
Proof.
  intros st. split; [reflexivity|]. split; [|intros _; split; reflexivity].
  exists []. simpl. rewrite app_nil_r. split; reflexivity.
Qed.

Lemma framed_aborted P s : framed P s (aborted env).
Proof. intros st. apply keeps_refl. Qed.

Lemma framed_suspend P : framed P true (@suspend World).
Proof.
  intros st. split; [reflexivity|]. split; [|discriminate].
  exists []. simpl. rewrite app_nil_r. split; reflexivity.
Qed.

Lemma framed_await {A : Type} P (f : World -> Outcome A * World) : framed P true (@await World A f).
Proof.
  unfold await. apply framed_bind; [apply framed_suspend|]. intros _ st.
  destruct (f (world st)) as [r w]. simpl.
  split; [reflexivity|]. split; [|discriminate].
  exists []. simpl. rewrite app_nil_r. split; reflexivity.
Qed.

Lemma framed_lift {A : Type} P s (o : Outcome A) : framed P s (@lift World A o).
Proof. destruct o; [apply framed_ret|apply framed_throw]. Qed.

Lemma framed_parse P s (text : string) : framed P s (parse env text).
Proof. unfold parse. destruct (JSON_parse text); [apply framed_ret|apply framed_throw]. Qed.

Lemma framed_element P s (entry : option ToolCall) : framed P s (element env entry).
Proof. destruct entry; [apply framed_ret|apply framed_throw]. Qed.

End Frames.

(** The frame of a term of the monad, by its structure. *)
Ltac framed_step :=
  first
    [ apply framed_ret
    | apply framed_throw
    | apply framed_Date_now
    | apply framed_aborted
    | apply framed_saveToDb
    | apply framed_onSessionUpdate
    | apply framed_parse
    | apply framed_element
    | apply framed_lift
    | apply framed_suspend
    | apply framed_await
    | apply framed_onEvent; reflexivity
    | apply framed_bind; [|intros ?]
    | assumption
    | match goal with
      | |- framed _ _ (match ?x with _ => _ end) => destruct x
      | |- framed _ _ (when ?b _) => destruct b; unfold when
      end ].

Ltac framed := repeat framed_step.

Section PartsFramed.
Context {World : Type} (env : Env World) (options : RunnerOptions).

Lemma framed_accumulate P s calls fragment : framed P s (accumulate env calls fragment).
Proof. unfold accumulate. framed. Qed.

Lemma framed_accumulate_all P s fragments :
  forall calls, framed P s (accumulate_all env calls fragments).
Proof.
  induction fragments as [|fragment rest IH]; intros calls; cbn [accumulate_all].
  - framed.
  - apply framed_bind; [apply framed_accumulate|]. intros calls'. apply IH.
Qed.

(** The stream phase emits stream events only. *)
Lemma framed_process_delta s a delta :
  framed is_stream_event s (process_delta env options a delta).
Proof.
  unfold process_delta, sendMessage. framed; apply framed_accumulate_all.
Qed.

Lemma framed_consume chunks failure :
  forall a, framed is_stream_event true (consume env options chunks failure a).
Proof.
  induction chunks as [|chunk rest IH]; intros a; cbn [consume].
  - framed.
  - apply framed_bind; [apply framed_suspend|]. intros _.
    apply framed_bind; [apply framed_aborted|]. intros stop.
    destruct stop; [framed|].
    destruct (choice_delta chunk); [|apply IH].
    apply framed_bind; [|intros a'; apply IH].
    apply (framed_weaken is_stream_event is_stream_event false true); auto.
    apply framed_process_delta.
Qed.

Lemma framed_respond client request :
  framed is_stream_event true (respond env options client request).
Proof.
  unfold respond. apply framed_bind; [apply framed_await|].
  intros stream. apply framed_consume.
Qed.

(** Announcing the calls emits announcements only and executes nothing. *)
Lemma framed_announce calls : framed is_announcement false (announce env options calls).
Proof.
  induction calls as [|entry rest IH]; cbn [announce]; unfold sendMessage; framed.
Qed.

Lemma framed_execute_all toolExecutor calls :
  forall results, framed quiet true (execute_all env options toolExecutor calls results).
Proof.
  induction calls as [|entry rest IH]; intros results; cbn [execute_all];
    unfold sendMessage, sendPermissionRequest; framed.
  apply IH.
Qed.

End PartsFramed.

(** ** Parts of a run that do not throw *)

Section Returns.
Context {World : Type} (env : Env World) (options : RunnerOptions).

Lemma returns_weaken {A : Type} (Q Q' : A -> Prop) (m : @M World A) :
  (forall a, Q a -> Q' a) -> returns Q m -> returns Q' m.
Proof. intros HQ Hm st. destruct (Hm st) as (a & st' & E & Ha). eauto. Qed.

Lemma returns_ret {A : Type} (Q : A -> Prop) (a : A) : Q a -> returns Q (@ret World A a).
Proof. intros Ha st. exists a, st. split; [reflexivity|exact Ha]. Qed.

Lemma returns_bind {A B : Type} (Q : A -> Prop) (R : B -> Prop) (m : @M World A)
    (k : A -> @M World B) :
  returns Q m -> (forall a, Q a -> returns R (k a)) -> returns R (bind m k).
Proof.
  intros Hm Hk st. destruct (Hm st) as (a & st1 & E & Ha).
  destruct (Hk a Ha st1) as (b & st2 & E2 & Hb).
  exists b, st2. unfold bind. rewrite E. split; assumption.
Qed.


Lemma returns_onEvent (e : ServerEvent) : returns (fun _ => True) (@onEvent World e).
Proof. intros st. eexists _, _. split; [reflexivity|exact I]. Qed.

Lemma returns_saveToDb (m : StoredMessage) : returns (fun _ => True) (saveToDb env options m).
Proof.
  intros st. unfold saveToDb. destruct (sessionStore env); [|eauto].
  destruct (String.eqb _ _); eauto.
Qed.

Lemma returns_Date_now : returns (fun _ => True) (Date_now env).
Proof. intros st. eexists _, _. split; [reflexivity|exact I]. Qed.

Lemma returns_onSessionUpdate (id : string) :
  returns (fun _ => True) (@onSessionUpdate World id).
Proof. intros st. eexists _, _. split; [reflexivity|exact I]. Qed.







End Returns.

Ltac returns_step :=
  first
    [ apply returns_ret; try exact I
    | apply returns_onEvent
    | apply returns_saveToDb
    | apply returns_Date_now
    | apply returns_onSessionUpdate
    | eapply returns_bind; [|intros ? ?]
    | match goal with
      | |- returns _ (match ?x with _ => _ end) => destruct x
      | |- returns _ (when ?b _) => destruct b; unfold when
      end ].

Ltac returns := repeat returns_step.

(** ** The agent loop *)

Lemma stream_events_quiet (e : ServerEvent) : is_stream_event e = true -> quiet e = true.
Proof. destruct e as [? []| |]; try discriminate; reflexivity. Qed.

Lemma announcements_quiet (e : ServerEvent) : is_announcement e = true -> quiet e = true.
Proof. destruct e as [? []| |]; try discriminate; reflexivity. Qed.

Section LoopFacts.
Context {World : Type} (env : Env World) (options : RunnerOptions).
Variables (client : Client) (guiSettings : ApiSettings) (toolExecutor : ToolExecutor).

(** *** The two loops over the tool calls *)





(** *** One turn of the loop *)

Lemma framed_run_tools (messages : list ChatMessage) (a : Assembly) :
  framed quiet true (run_tools env options toolExecutor messages a).
Proof.
  unfold run_tools.
  apply framed_bind; [framed|]. intros _.
  apply framed_bind.
  - apply (framed_weaken is_announcement quiet false true);
      [apply announcements_quiet|discriminate|apply framed_announce].
  - intros _. apply framed_bind; [apply framed_execute_all|]. intros results. apply framed_ret.
Qed.

Lemma framed_finish (iterationCount : nat) (a : Assembly) :
  framed any_event true (finish env options iterationCount a).
Proof. unfold finish, sendMessage. framed. Qed.

Lemma framed_conclude (iterationCount : nat) (messages : list ChatMessage) (a : Assembly) :
  framed any_event true (conclude env options toolExecutor iterationCount messages a).
Proof.
  unfold conclude, sendMessage. apply framed_bind; [framed|]. intros _.
  destruct (toolCalls a); [apply framed_finish|].
  apply (framed_weaken quiet any_event true true); auto. apply framed_run_tools.
Qed.

Lemma framed_conclude_calls (iterationCount : nat) (messages : list ChatMessage)
    (a : Assembly) :
  toolCalls a <> [] ->
  framed quiet true (conclude env options toolExecutor iterationCount messages a).
Proof.
  intros Hcalls. unfold conclude, sendMessage. apply framed_bind; [framed|]. intros _.
  destruct (toolCalls a); [contradiction|]. apply framed_run_tools.
Qed.



Lemma iteration_unfold (iterationCount : nat) (messages : list ChatMessage)
    (st : RunState World) :
  iteration env options client guiSettings toolExecutor iterationCount messages st
  = let request := request_of guiSettings messages in
    match respond env options client request (snd (record_request client request st)) with
    | (Ret a, st1) => conclude env options toolExecutor iterationCount messages a st1
    | (Throw e, st1) => (Throw e, st1)
    end.
Proof. reflexivity. Qed.

(** A turn makes one request, the one for its messages, and takes back no
    event. *)
Lemma iteration_effect (iterationCount : nat) (messages : list ChatMessage)
    (st : RunState World) :
  let st' :=
    snd (iteration env options client guiSettings toolExecutor iterationCount messages st) in
  sent st' = sent st ++ [(client, request_of guiSettings messages)] /\
  exists evs, events st' = events st ++ evs.
Proof.
  rewrite iteration_unfold. cbv zeta.
  set (request := request_of guiSettings messages).
  set (st0 := snd (record_request client request st)).
  pose proof (framed_respond env options client request st0) as Hrespond.
  destruct (respond env options client request st0) as [[a|e] st1]; cbn [snd] in *.
  - pose proof (framed_conclude iterationCount messages a st1) as Hconclude.
    pose proof (keeps_trans _ _ _ _ _
                  (keeps_weaken is_stream_event any_event true true st0 st1
                     (fun _ _ => eq_refl) (fun H => H) Hrespond) Hconclude)
      as (Hsent & (evs & Hevs & _) & _).
    split; [rewrite Hsent; reflexivity|]. exists evs. rewrite Hevs. reflexivity.
  - destruct Hrespond as (Hsent & (evs & Hevs & _) & _).
    split; [rewrite Hsent; reflexivity|]. exists evs. rewrite Hevs. reflexivity.
Qed.


(** *** The loop *)

Lemma agent_loop_unfold (fuel iterationCount : nat) (messages : list ChatMessage)
    (st : RunState World) :
  agent_loop env options (S fuel) client guiSettings toolExecutor iterationCount messages st
  = if is_aborted env st || negb (iterationCount <? MAX_ITERATIONS)%nat
    then (Ret (Some iterationCount), st)
    else
      match iteration env options client guiSettings toolExecutor (S iterationCount)
              messages st with
      | (Ret Break, st') => (Ret (Some (S iterationCount)), st')
      | (Ret (Continue messages'), st') =>
          agent_loop env options fuel client guiSettings toolExecutor (S iterationCount)
            messages' st'
      | (Throw e, st') => (Throw e, st')
      end.
Proof.
  cbn [agent_loop]. unfold bind, aborted.
  destruct (is_aborted env st || negb (iterationCount <? MAX_ITERATIONS)%nat); [reflexivity|].
  destruct (iteration _ _ _ _ _ _ _ _) as [[[|messages']|e] st']; reflexivity.
Qed.

Lemma agent_loop_no_fuel (iterationCount : nat) (messages : list ChatMessage)
    (st : RunState World) :
  agent_loop env options 0 client guiSettings toolExecutor iterationCount messages st
  = if is_aborted env st || negb (iterationCount <? MAX_ITERATIONS)%nat
    then (Ret (Some iterationCount), st)
    else (Ret None, st).
Proof.
  cbn [agent_loop]. unfold bind, aborted.
  destruct (is_aborted env st || negb (iterationCount <? MAX_ITERATIONS)%nat); reflexivity.
Qed.

(** The loop leaves within its fuel when that covers the turns up to the cap,
    and makes at most that many requests, each through the client of the run
    and with the tool table. *)
Lemma agent_loop_settles (fuel : nat) :
  forall (iterationCount : nat) (messages : list ChatMessage) (st : RunState World),
  MAX_ITERATIONS - iterationCount <= fuel ->
  exists r st',
    agent_loop env options fuel client guiSettings toolExecutor iterationCount messages st
    = (r, st') /\
    r <> Ret None /\
    exists requests,
      sent st' = sent st ++ requests /\
      length requests <= MAX_ITERATIONS - iterationCount /\
      Forall (fun cr => fst cr = client /\ req_tools (snd cr) = TOOLS) requests.
Proof.
  induction fuel as [|fuel IH]; intros iterationCount messages st Hfuel.
  - rewrite agent_loop_no_fuel.
    destruct (Nat.ltb_spec iterationCount MAX_ITERATIONS) as [Hlt|Hge]; [lia|].
    rewrite orb_true_r. eexists _, st. split; [reflexivity|]. split; [discriminate|].
    exists []. rewrite app_nil_r. split; [reflexivity|]. split; [simpl; lia|constructor].
  - rewrite agent_loop_unfold.
    destruct (is_aborted env st || negb (iterationCount <? MAX_ITERATIONS)%nat) eqn:Hguard.
    + eexists _, st. split; [reflexivity|]. split; [discriminate|].
      exists []. rewrite app_nil_r. split; [reflexivity|]. split; [simpl; lia|constructor].
    + apply orb_false_elim in Hguard as [_ Hlt]. apply negb_false_iff, Nat.ltb_lt in Hlt.
      pose proof (iteration_effect (S iterationCount) messages st) as [Hsent _].
      destruct (iteration _ _ _ _ _ _ _ _) as [[[|messages']|e] st1]; cbn [snd] in Hsent.
      * eexists _, st1. split; [reflexivity|]. split; [discriminate|].
        eexists. split; [exact Hsent|]. split; [simpl; lia|].
        constructor; [split; reflexivity|constructor].
      * destruct (IH (S iterationCount) messages' st1 ltac:(lia))
          as (r & st2 & E & Hr & requests & Hsent2 & Hlen & Hall).
        exists r, st2. split; [exact E|]. split; [exact Hr|].
        exists ((client, request_of guiSettings messages) :: requests).
        split; [rewrite Hsent2, Hsent, <- app_assoc; reflexivity|].
        split; [simpl; lia|]. constructor; [split; reflexivity|exact Hall].
      * eexists _, st1. split; [reflexivity|]. split; [discriminate|].
        eexists. split; [exact Hsent|]. split; [simpl; lia|].
        constructor; [split; reflexivity|constructor].
Qed.


(** A turn that the loop gets to decides how the loop ends. *)
Lemma reaches_result fuel iterationCount messages st fuel2 count2 messages2 st2 :
  reaches env options client guiSettings toolExecutor fuel iterationCount messages st
    fuel2 count2 messages2 st2 ->
  agent_loop env options fuel client guiSettings toolExecutor iterationCount messages st
  = agent_loop env options fuel2 client guiSettings toolExecutor count2 messages2 st2.
Proof.
  induction 1 as [|fuel iterationCount messages st messages' st' fuel2 count2 messages2 st2
                   Hab Hlt Hstep Hreach IH]; [reflexivity|].
  rewrite agent_loop_unfold, Hab. cbn [orb].
  apply Nat.ltb_lt in Hlt. rewrite Hlt. cbn [negb]. rewrite Hstep. exact IH.
Qed.

End LoopFacts.

(** ** The whole run *)

Section RunFacts.
Context {World : Type} (env : Env World) (options : RunnerOptions).

Lemma bind_ret_state {A B : Type} (m : @M World A) (k : A -> @M World B) st a st1 :
  m st = (Ret a, st1) -> bind m k st = k a st1.
Proof. intros E. unfold bind. rewrite E. reflexivity. Qed.



Lemma build_messages_returns (log : list StoredMessage) (newPrompt : string) :
  returns (fun _ => True) (build_messages env options log newPrompt).
Proof. unfold build_messages. destruct (String.eqb _ _); returns. Qed.

Lemma framed_build_messages P s (log : list StoredMessage) (newPrompt : string) :
  framed P s (build_messages env options log newPrompt).
Proof. unfold build_messages. destruct (String.eqb _ _); framed. Qed.

(** The way to the loop does not throw, makes no request and suspends
    nowhere; its one event is the init event. *)
Lemma prepare_returns (guiSettings : ApiSettings) :
  returns (fun _ => True) (prepare env options guiSettings).
Proof.
  unfold prepare, sendMessage.
  eapply returns_bind; [apply build_messages_returns|]. intros messages _.
  eapply returns_bind; [apply returns_onEvent|]. intros ? _.
  apply (returns_bind (fun _ => True)).
  { destruct (has_onSessionUpdate options); unfold when; returns. }
  intros ? _. returns.
Qed.

Lemma framed_prepare (guiSettings : ApiSettings) :
  framed quiet false (prepare env options guiSettings).
Proof.
  unfold prepare, sendMessage.
  apply framed_bind; [apply framed_build_messages|]. intros messages.
  framed.
Qed.

Lemma report_effect (e : Thrown) (st : RunState World) :
  let st' := snd (report options e st) in
  events st' = events st ++
               [session_status (session_id (session options)) error_status
                  (session_title (session options)) (Some (String_of_thrown e))] /\
  sent st' = sent st /\ world st' = world st /\ awaits st' = awaits st.
Proof. repeat split. Qed.

(** The body, once the settings are there. *)
Lemma body_configured (guiSettings : ApiSettings) (st : RunState World) :
  loadApiSettings (stored_settings env) = Some guiSettings ->
  falsy_string (baseUrl guiSettings) = false ->
  falsy_string (model guiSettings) = false ->
  body env options st
  = match prepare env options guiSettings st with
    | (Ret messages, st0) =>
        match agent_loop env options MAX_ITERATIONS (new_OpenAI guiSettings) guiSettings
                (new_ToolExecutor (pf env) (currentCwd env options) (Some guiSettings))
                0 messages st0 with
        | (Ret (Some iterationCount), st1) =>
            if (MAX_ITERATIONS <=? iterationCount)%nat
            then (Throw (ErrorObj "Error" "Max iterations reached"), st1)
            else (Ret (Some tt), st1)
        | (Ret None, st1) => (Ret None, st1)
        | (Throw e, st1) => (Throw e, st1)
        end
    | (Throw e, st0) => (Throw e, st0)
    end.
Proof.
  intros Hload Hurl Hmodel. unfold body. rewrite Hload, Hurl, Hmodel. cbn [orb].
  unfold bind.
  destruct (prepare env options guiSettings st) as [[messages|e] st0]; [|reflexivity].
  destruct (agent_loop _ _ _ _ _ _ _ _ _) as [[[iterationCount|]|e] st1]; try reflexivity.
  destruct (MAX_ITERATIONS <=? iterationCount)%nat; reflexivity.
Qed.

Lemma body_not_configured (st : RunState World) :
  ~ configured env -> body env options st = (Throw not_configured, st).
Proof.
  intros Hnot. unfold body.
  destruct (loadApiSettings (stored_settings env)) as [guiSettings|] eqn:Hload; [|reflexivity].
  destruct (falsy_string (baseUrl guiSettings)) eqn:Hurl; [reflexivity|].
  destruct (falsy_string (model guiSettings)) eqn:Hmodel; [reflexivity|].
  exfalso. apply Hnot. exists guiSettings. repeat split; assumption.
Qed.

(** The task always settles: the fuel of the loop is enough.  It makes at
    most [MAX_ITERATIONS] requests, each through the client built from the
    settings and with the tool table [TOOLS]. *)
Lemma runClaude_settles (w : World) :
  exists st,
    runClaude env options w = Some st /\
    length (sent st) <= MAX_ITERATIONS /\
    Forall (fun cr =>
              (exists guiSettings,
                 loadApiSettings (stored_settings env) = Some guiSettings /\
                 fst cr = new_OpenAI guiSettings) /\
              req_tools (snd cr) = TOOLS) (sent st).
Proof.
  unfold runClaude.
  destruct (loadApiSettings (stored_settings env)) as [guiSettings|] eqn:Hload.
  2:{ unfold body. rewrite Hload. cbn. eexists. split; [reflexivity|].
      cbn. split; [lia|constructor]. }
  destruct (falsy_string (baseUrl guiSettings) || falsy_string (model guiSettings)) eqn:Hcfg.
  { unfold body. rewrite Hload, Hcfg. cbn. eexists. split; [reflexivity|].
    cbn. split; [lia|constructor]. }
  apply orb_false_elim in Hcfg as [Hurl Hmodel].
  rewrite (body_configured guiSettings _ Hload Hurl Hmodel).
  destruct (prepare_returns guiSettings (start w)) as (messages & st0 & Eprep & _).
  pose proof (framed_prepare guiSettings (start w)) as (Hsent0 & _ & _).
  rewrite Eprep in *. cbn [snd] in Hsent0.
  destruct (agent_loop_settles env options (new_OpenAI guiSettings) guiSettings
              (new_ToolExecutor (pf env) (currentCwd env options) (Some guiSettings))
              MAX_ITERATIONS 0 messages st0 ltac:(lia))
    as (r & st1 & Eloop & Hr & requests & Hsent1 & Hlen & Hall).
  rewrite Eloop. rewrite Hsent0 in Hsent1. cbn [start sent app] in Hsent1.
  assert (Hfinal : length (sent st1) <= MAX_ITERATIONS /\
            Forall (fun cr =>
              (exists guiSettings0,
                 Some guiSettings = Some guiSettings0 /\
                 fst cr = new_OpenAI guiSettings0) /\
              req_tools (snd cr) = TOOLS) (sent st1)).
  { rewrite Hsent1. split; [lia|].
    eapply Forall_impl; [exact Hall|]. intros cr [Hc Ht]. split; [eauto|exact Ht]. }
  destruct r as [[iterationCount|]|e]; [|contradiction|].
  - destruct (MAX_ITERATIONS <=? iterationCount)%nat; eexists; (split; [reflexivity|]);
      exact Hfinal.
  - eexists. split; [reflexivity|]. exact Hfinal.
Qed.

End RunFacts.

(** ** The iteration cap (C7) *)





(** ** Arguments that are not JSON (C3) *)


Section ParseFailure.
Context {World : Type} (env : Env World) (options : RunnerOptions).


End ParseFailure.



(** ** The final answer (C6) *)

Section FinalAnswer.
Context {World : Type} (env : Env World) (options : RunnerOptions).
Variables (client : Client) (guiSettings : ApiSettings) (toolExecutor : ToolExecutor).

(** The branch of the final answer: the assistant message, the result and
    the status "completed", and [break]. *)
Lemma finish_effect (iterationCount : nat) (a : Assembly) (st : RunState World) :
  exists st' t,
    finish env options iterationCount a st = (Ret Break, st') /\
    events st'
    = events st ++
      [stream_message (session_id (session options))
         (assistant_message ("msg_" +:+ string_of_Z t) [text_block (assistantMessage a)]);
       stream_message (session_id (session options))
         (result_message "success" false iterationCount (assistantMessage a)
            (session_id (session options)));
       session_status (session_id (session options)) completed
         (session_title (session options)) None].
Proof.
  unfold finish, bind, Date_now, sendMessage, onEvent, saveToDb, ret.
  destruct (sessionStore env); [destruct (String.eqb _ _)|];
    eexists _, _; (split; [reflexivity|]); cbn [events];
    rewrite <- !app_assoc; reflexivity.
Qed.

(** A turn that ends at its last statement went through tool calls: its
    events are neither results nor statuses. *)
Lemma iteration_continue_quiet (iterationCount : nat) (messages messages' : list ChatMessage)
    (st st' : RunState World) :
  iteration env options client guiSettings toolExecutor iterationCount messages st
  = (Ret (Continue messages'), st') ->
  exists evs, events st' = events st ++ evs /\ forallb quiet evs = true.
Proof.
  rewrite iteration_unfold. cbv zeta.
  set (request := request_of guiSettings messages).
  set (st0 := snd (record_request client request st)).
  pose proof (framed_respond env options client request st0) as Hrespond.
  destruct (respond env options client request st0) as [[a|e] st1]; [|discriminate].
  cbn [snd] in Hrespond. intros Hcon.
  assert (Hquiet : keeps quiet true st1 st').
  { destruct (toolCalls a) as [|entry rest] eqn:Hcalls.
    - exfalso. unfold conclude in Hcon. rewrite Hcalls in Hcon.
      unfold bind in Hcon.
      destruct (when (contentStarted a) _ st1) as [[u|e] st2]; [|discriminate Hcon].
      destruct (finish_effect iterationCount a st2) as (st3 & t & E & _).
      rewrite E in Hcon. discriminate Hcon.
    - pose proof (framed_conclude_calls env options toolExecutor iterationCount messages a
                    ltac:(rewrite Hcalls; discriminate) st1) as H.
      rewrite Hcon in H. exact H. }
  pose proof (keeps_trans _ _ _ _ _
                (keeps_weaken is_stream_event quiet true true st0 st1
                   stream_events_quiet (fun H => H) Hrespond) Hquiet)
    as (_ & (evs & Hevs & Hq) & _).
  exists evs. split; [exact Hevs|exact Hq].
Qed.

Lemma reaches_quiet fuel iterationCount messages st fuel2 count2 messages2 st2 :
  reaches env options client guiSettings toolExecutor fuel iterationCount messages st
    fuel2 count2 messages2 st2 ->
  exists evs, events st2 = events st ++ evs /\ forallb quiet evs = true.
Proof.
  induction 1 as [|fuel iterationCount messages st messages' st' fuel2 count2 messages2 st2
                   Hab Hlt Hstep Hreach IH].
  - exists []. rewrite app_nil_r. split; reflexivity.
  - destruct (iteration_continue_quiet _ _ _ _ _ Hstep) as (evs1 & Hevs1 & Hq1).
    destruct IH as (evs2 & Hevs2 & Hq2).
    exists (evs1 ++ evs2). rewrite Hevs2, Hevs1, <- app_assoc. split; [reflexivity|].
    rewrite forallb_app, Hq1, Hq2. reflexivity.
Qed.

End FinalAnswer.

(** What a run does with a final answer.  Take a run with settings, and a
    turn of its loop that the run gets to, not aborted and below the cap, whose
    answer assembles into no tool call.  The run settles; its terminal events
    are the result event (no error, the whole text, the number of the turn)
    and the status "completed", in that order, and nothing else when the turn
    is not the last one allowed.  When it is the last one allowed
    ([MAX_ITERATIONS]), the status "error" of the iteration limit follows. *)
Lemma final_answer_ends_the_run {World : Type} (env : Env World)
    (options : RunnerOptions) (w : World) (guiSettings : ApiSettings)
    (messages0 : list ChatMessage) (st0 : RunState World)
    (fuel iterationCount : nat) (messages : list ChatMessage) (st : RunState World)
    (a : Assembly) (st1 : RunState World) :
  let client := new_OpenAI guiSettings in
  let toolExecutor :=
    new_ToolExecutor (pf env) (currentCwd env options) (Some guiSettings) in
  let request := request_of guiSettings messages in
  loadApiSettings (stored_settings env) = Some guiSettings ->
  falsy_string (baseUrl guiSettings) = false ->
  falsy_string (model guiSettings) = false ->
  prepare env options guiSettings (start w) = (Ret messages0, st0) ->
  reaches env options client guiSettings toolExecutor MAX_ITERATIONS 0 messages0 st0
    (S fuel) iterationCount messages st ->
  is_aborted env st = false ->
  iterationCount < MAX_ITERATIONS ->
  respond env options client request (snd (record_request client request st)) = (Ret a, st1) ->
  toolCalls a = [] ->
  exists st2,
    runClaude env options w = Some st2 /\
    List.filter terminal (events st2)
    = [stream_message (session_id (session options))
         (result_message "success" false (S iterationCount) (assistantMessage a)
            (session_id (session options)));
       session_status (session_id (session options)) completed
         (session_title (session options)) None]
      ++ (if (S iterationCount <? MAX_ITERATIONS)%nat then []
          else [session_status (session_id (session options)) error_status
                  (session_title (session options))
                  (Some "Error: Max iterations reached")]).
Proof.
  intros client toolExecutor request Hload Hurl Hmodel Hprep Hreach Hab Hlt Hresp Hcalls.
  (* the events up to the answer are neither results nor statuses *)
  pose proof (framed_prepare env options guiSettings (start w)) as (_ & (evs0 & Hevs0 & Hq0) & _).
  rewrite Hprep in Hevs0. cbn [snd start events app] in Hevs0.
  destruct (reaches_quiet env options _ _ _ _ _ _ _ _ _ _ _ Hreach) as (evs1 & Hevs1 & Hq1).
  pose proof (keeps_weaken is_stream_event quiet true true _ _
                stream_events_quiet (fun H => H)
                (framed_respond env options client request
                   (snd (record_request client request st))))
    as (_ & (evs2 & Hevs2 & Hq2) & _).
  rewrite Hresp in Hevs2. cbn [snd record_request events] in Hevs2.
  (* what follows the answer *)
  set (stop := @when World (contentStarted a)
                 (sendMessage options (stream_event content_block_stop))).
  assert (Hstop : exists st1' evs3,
            stop st1 = (Ret tt, st1') /\ events st1' = events st1 ++ evs3 /\
            forallb quiet evs3 = true).
  { subst stop. destruct (contentStarted a); cbn [when].
    - eexists _, [_]. split; [reflexivity|]. split; reflexivity.
    - exists st1, []. rewrite app_nil_r. repeat split. }
  destruct Hstop as (st1' & evs3 & Estop & Hevs3 & Hq3).
  destruct (finish_effect env options (S iterationCount) a st1') as (st2 & t & Efin & Hevs4).
  assert (Eloop : agent_loop env options MAX_ITERATIONS client guiSettings toolExecutor
                    0 messages0 st0 = (Ret (Some (S iterationCount)), st2)).
  { rewrite (reaches_result env options _ _ _ _ _ _ _ _ _ _ _ Hreach).
    rewrite agent_loop_unfold, Hab. cbn [orb].
    pose proof Hlt as Hlt'. apply Nat.ltb_lt in Hlt'. rewrite Hlt'. cbn [negb].
    rewrite iteration_unfold. cbv zeta. fold request. rewrite Hresp.
    unfold conclude. fold stop. rewrite (bind_ret_state _ _ _ _ _ Estop).
    rewrite Hcalls, Efin. reflexivity. }
  assert (Hquiet : forall evs, forallb quiet evs = true -> List.filter terminal evs = []).
  { induction evs as [|e evs IH]; intros H; [reflexivity|].
    cbn [forallb] in H. apply andb_true_iff in H as [He Hrest].
    unfold quiet in He. apply negb_true_iff in He.
    cbn [List.filter]. rewrite He. apply IH, Hrest. }
  unfold runClaude. rewrite (body_configured env options guiSettings _ Hload Hurl Hmodel).
  rewrite Hprep. fold client toolExecutor. rewrite Eloop.
  destruct (Nat.ltb_spec (S iterationCount) MAX_ITERATIONS) as [Hbelow|Hlast].
  - destruct (Nat.leb_spec MAX_ITERATIONS (S iterationCount)) as [Hle|_]; [lia|].
    eexists. split; [reflexivity|].
    rewrite Hevs4, Hevs3, Hevs2, Hevs1, Hevs0.
    rewrite !List.filter_app, (Hquiet _ Hq0), (Hquiet _ Hq1), (Hquiet _ Hq2), (Hquiet _ Hq3).
    reflexivity.
  - destruct (Nat.leb_spec MAX_ITERATIONS (S iterationCount)) as [_|Hgt]; [|lia].
    eexists. split; [reflexivity|].
    cbn [snd report onEvent events].
    rewrite Hevs4, Hevs3, Hevs2, Hevs1, Hevs0.
    rewrite !List.filter_app, (Hquiet _ Hq0), (Hquiet _ Hq1), (Hquiet _ Hq2), (Hquiet _ Hq3).
    reflexivity.
Qed.

(** C6, at the failing input.  The model asks for a tool in its first 49
    answers and gives its final answer, without tool calls, in the fiftieth.
    The run emits the result event with [is_error: false] and the status
    "completed", and then, the count of iterations having reached the cap,
    the status "error" of the iteration limit. *)
Theorem final_answer_in_the_last_iteration_reports_an_error :
  let env :=
    Examples.environment Examples.local None (Examples.calls_then_hello 49) None in
  option_map (fun st => (length (sent st), List.filter terminal (events st)))
    (runClaude env Examples.options 0)
  = Some (50,
          [stream_message "s1" (result_message "success" false 50 "Hello" "s1");
           session_status "s1" completed "t" None;
           session_status "s1" error_status "t" (Some "Error: Max iterations reached")]).
Proof. vm_compute. reflexivity. Qed.

(** ** Abort (C8) *)

(** C8, at the failing input.  The model streams the text "Hello" in two
    chunks and [abort()] is called while the run waits for the second one
    (its third suspension: the request, the first chunk, the second chunk).
    The loop over the stream stops at the next chunk and closes the stream
    (a fourth suspension); no tool call has been assembled, so the run goes
    on into the branch of the final answer: it
    emits the assistant message and the result event with the text received
    so far, and the status "completed". *)
Theorem aborted_run_reports_a_result :
  let env :=
    Examples.environment Examples.local None (Examples.calls_then_hello 0) (Some 3) in
  option_map (fun st => (awaits st, events st)) (runClaude env Examples.options 0)
  = Some (4,
          [stream_message "s1"
             (system_init "/home/user/project" "s1"
                ["Bash"; "Read"; "Write"; "Edit"; "Glob"; "Grep"; "WebSearch";
                 "ExtractPageContent"; "Memory"] "qwen" "default");
           stream_message "s1" (stream_event content_block_start);
           stream_message "s1" (stream_event (content_block_delta "Hel"));
           stream_message "s1" (stream_event content_block_stop);
           stream_message "s1" (assistant_message "msg_1700000000001" [text_block "Hel"]);
           stream_message "s1" (result_message "success" false 1 "Hel" "s1");
           session_status "s1" completed "t" None]).
Proof. vm_compute. reflexivity. Qed.

(** The other poll point.  The model asks for two tools in one answer and
    [abort()] is called while the first one is executing (the fourth
    suspension: the request, the chunk, the end of the stream, the tool).
    The first tool finishes and its result is reported; the second is not
    executed; the loop is left at its head, and the run ends without a
    result event and without any status event. *)
Lemma abort_between_tools_ends_quietly :
  let env :=
    Examples.environment Examples.local None
      (fun _ _ w => (Ret Examples.two_calls, S w)) (Some 4) in
  option_map
    (fun st =>
       (awaits st, length (sent st),
        length (List.filter is_permission_request (events st)),
        length (List.filter is_tool_result (events st)),
        List.filter terminal (events st)))
    (runClaude env Examples.options 0)
  = Some (4, 1, 1, 1, []).
Proof. vm_compute. reflexivity. Qed.

(** ** The base URL of the client (C10) *)

(** Every request of a run goes through the client built from the loaded
    settings, and carries the whole tool table. *)
Lemma requests_of_a_run {World : Type} (env : Env World) (options : RunnerOptions)
    (w : World) (st : RunState World) (client : Client) (request : Request) :
  runClaude env options w = Some st ->
  In (client, request) (sent st) ->
  (exists guiSettings,
     loadApiSettings (stored_settings env) = Some guiSettings /\
     client = new_OpenAI guiSettings) /\
  req_tools request = TOOLS.
Proof.
  intros Hrun Hin.
  destruct (runClaude_settles env options w) as (st' & Hrun' & _ & Hall).
  rewrite Hrun in Hrun'. injection Hrun' as <-.
  rewrite List.Forall_forall in Hall. exact (Hall _ Hin).
Qed.

(** C10.  The base URL with which the model client is constructed ends with
    [/v1]: a configured endpoint that ends with [/v1] is used as it is;
    otherwise a trailing [/], if there is one, is removed (one only) and
    [/v1] is appended.  Every request of a run is made through the client
    so constructed from the loaded settings. *)
Theorem client_baseURL_ends_with_v1 (guiSettings : ApiSettings) :
  let endpoint := or_else (baseUrl guiSettings) "" in
  let used := client_baseURL (new_OpenAI guiSettings) in
  endsWith used "/v1" = true /\
  (endsWith endpoint "/v1" = true -> used = endpoint) /\
  (endsWith endpoint "/v1" = false ->
     used = replace_trailing_slash endpoint +:+ "/v1" /\
     (forall s, endpoint = s +:+ "/" -> used = s +:+ "/v1") /\
     (endsWith endpoint "/" = false -> used = endpoint +:+ "/v1")) /\
  (forall (World : Type) (env : Env World) (options : RunnerOptions) (w : World)
          (st : RunState World) (client : Client) (request : Request),
     loadApiSettings (stored_settings env) = Some guiSettings ->
     runClaude env options w = Some st ->
     In (client, request) (sent st) ->
     client_baseURL client = used).
Proof.
  intros endpoint used. subst used. unfold new_OpenAI, ensure_v1. simpl.
  fold endpoint.
  assert (Hrun : forall (World : Type) (env : Env World) (options : RunnerOptions)
                   (w : World) (st : RunState World) (client : Client) (request : Request),
            loadApiSettings (stored_settings env) = Some guiSettings ->
            runClaude env options w = Some st ->
            In (client, request) (sent st) ->
            client_baseURL client
            = (if endsWith endpoint "/v1" then endpoint
               else replace_trailing_slash endpoint +:+ "/v1")).
  { intros World env options w st client request Hload Hrun Hin.
    destruct (requests_of_a_run env options w st client request Hrun Hin)
      as [(guiSettings' & Hload' & ->) _].
    rewrite Hload in Hload'. injection Hload' as <-. reflexivity. }
  destruct (endsWith endpoint "/v1") eqn:E.
  - split; [exact E|]. split; [reflexivity|]. split; [discriminate|exact Hrun].
  - split; [apply endsWith_app|]. split; [discriminate|]. split; [|exact Hrun].
    intros _. split; [reflexivity|]. split.
    + intros s ->. rewrite replace_trailing_slash_app. reflexivity.
    + intros H. rewrite (replace_trailing_slash_id _ H). reflexivity.
Qed.

Lemma client_baseURL_ends_with_v1_witness :
  client_baseURL (new_OpenAI (Examples.settings_with "http://localhost:8000/v1" None))
    = "http://localhost:8000/v1" /\
  client_baseURL (new_OpenAI (Examples.settings_with "http://localhost:8000/" None))
    = "http://localhost:8000/v1" /\
  client_baseURL (new_OpenAI (Examples.settings_with "http://localhost:8000//" None))
    = "http://localhost:8000//v1" /\
  client_baseURL (new_OpenAI (Examples.settings_with "http://localhost:8000" None))
    = "http://localhost:8000/v1".
Proof.
  split; [|split; [|split]].
  - apply (proj1 (proj2 (client_baseURL_ends_with_v1
                           (Examples.settings_with "http://localhost:8000/v1" None)))).
    reflexivity.
  - apply (proj1 (proj2 (proj1 (proj2 (proj2 (client_baseURL_ends_with_v1
                           (Examples.settings_with "http://localhost:8000/" None))))
                           eq_refl)) "http://localhost:8000").
    reflexivity.
  - apply (proj1 (proj2 (proj1 (proj2 (proj2 (client_baseURL_ends_with_v1
                           (Examples.settings_with "http://localhost:8000//" None))))
                           eq_refl)) "http://localhost:8000/").
    reflexivity.
  - apply (proj2 (proj2 (proj1 (proj2 (proj2 (client_baseURL_ends_with_v1
                           (Examples.settings_with "http://localhost:8000" None))))
                           eq_refl))).
    reflexivity.
Defined.

(** * Further properties of the code *)

(** ** Node paths and the confinement check *)

Section PathFacts.
Import NodePath Paths.

Lemma split_on_cons (sep : ascii) (s : string) :
  exists seg rest, split_on sep s = seg :: rest.
Proof.
  induction s as [|c s (seg & rest & IH)]; cbn [split_on]; [eauto|].
  destruct (Ascii.eqb c sep); [eauto|]. rewrite IH. eauto.
Qed.

(** Splitting at a separator splits the text before it and the text after
    it. *)
Lemma split_on_app (sep : ascii) (a b : string) :
  split_on sep (a +:+ String sep b) = split_on sep a ++ split_on sep b.
Proof.
  induction a as [|c a IH].
  - change (EmptyString +:+ String sep b) with (String sep b).
    cbn [split_on]. rewrite Ascii.eqb_refl. reflexivity.
  - rewrite append_cons. cbn [split_on]. rewrite IH.
    destruct (Ascii.eqb c sep); [reflexivity|].
    destruct (split_on_cons sep a) as (seg & rest & ->). reflexivity.
Qed.

Lemma split_on_free (sep : ascii) (s : string) :
  free_of sep s = true -> split_on sep s = [s].
Proof.
  induction s as [|c s IH]; [reflexivity|]. cbn [free_of split_on].
  intros H. apply andb_true_iff in H as [Hc Hs]. apply negb_true_iff in Hc.
  rewrite Hc, (IH Hs). reflexivity.
Qed.

Lemma split_on_is_free (sep : ascii) (s : string) :
  Forall (fun seg => free_of sep seg = true) (split_on sep s).
Proof.
  induction s as [|c s IH]; cbn [split_on]; [repeat constructor|].
  destruct (Ascii.eqb c sep) eqn:Ec; [constructor; [reflexivity|exact IH]|].
  destruct (split_on sep s) as [|seg rest]; [repeat constructor; cbn; rewrite Ec; reflexivity|].
  inversion IH as [|? ? Hseg Hrest]; subst.
  constructor; [|exact Hrest]. cbn [free_of]. rewrite Ec, Hseg. reflexivity.
Qed.

Lemma concat_cons2 (sep x y : string) (l : list string) :
  String.concat sep (x :: y :: l) = x +:+ sep +:+ String.concat sep (y :: l).
Proof. reflexivity. Qed.

(** Joining and splitting again gives the segments back. *)
Lemma split_on_concat (segs : list string) :
  segs <> [] ->
  Forall (fun seg => free_of "/" seg = true) segs ->
  split_on "/" (String.concat "/" segs) = segs.
Proof.
  induction segs as [|x [|y l] IH]; intros Hne Hfree; [contradiction| |].
  - cbn [String.concat]. apply split_on_free. inversion Hfree; assumption.
  - rewrite concat_cons2.
    change ("/" +:+ String.concat "/" (y :: l)) with (String "/" (String.concat "/" (y :: l))).
    rewrite split_on_app. inversion Hfree as [|? ? Hx Hrest]; subst.
    rewrite (split_on_free _ _ Hx), (IH ltac:(discriminate) Hrest). reflexivity.
Qed.

(** [normalize_segments] goes through the segments from left to right. *)
Lemma normalize_segments_app (allow : bool) (l1 l2 acc : list string) :
  normalize_segments allow acc (l1 ++ l2)
  = normalize_segments allow (rev (normalize_segments allow acc l1)) l2.
Proof.
  revert acc. induction l1 as [|seg l1 IH]; intros acc.
  - cbn [app normalize_segments]. rewrite rev_involutive. reflexivity.
  - cbn [app normalize_segments].
    destruct (String.eqb seg "" || String.eqb seg "."); [apply IH|].
    destruct (String.eqb seg ".."); [|apply IH].
    destruct acc as [|last acc']; [apply IH|].
    destruct (String.eqb last ".."); apply IH.
Qed.

Lemma proper_parts (seg : string) :
  proper seg = true ->
  String.eqb seg "" = false /\ String.eqb seg "." = false /\
  String.eqb seg ".." = false /\ free_of "/" seg = true.
Proof.
  unfold proper. intros H.
  apply andb_true_iff in H as [H Hfree]. apply andb_true_iff in H as [H Hdd].
  apply andb_true_iff in H as [He Hd].
  apply negb_true_iff in He, Hd, Hdd. auto.
Qed.

(** Proper segments are kept as they are. *)
Lemma normalize_segments_proper (allow : bool) (segs acc : list string) :
  Forall (fun seg => proper seg = true) segs ->
  normalize_segments allow acc segs = rev acc ++ segs.
Proof.
  revert acc. induction segs as [|seg segs IH]; intros acc Hall.
  - cbn [normalize_segments]. rewrite app_nil_r. reflexivity.
  - inversion Hall as [|? ? Hseg Hrest]; subst.
    destruct (proper_parts seg Hseg) as (He & Hd & Hdd & _).
    cbn [normalize_segments]. rewrite He, Hd, Hdd. cbn [orb].
    rewrite (IH _ Hrest). cbn [rev]. rewrite <- app_assoc. reflexivity.
Qed.

(** For an absolute path, what [normalize_segments] keeps is proper. *)
Lemma normalize_segments_gives_proper (segs acc : list string) :
  Forall (fun seg => free_of "/" seg = true) segs ->
  Forall (fun seg => proper seg = true) acc ->
  Forall (fun seg => proper seg = true) (normalize_segments false acc segs).
Proof.
  revert acc. induction segs as [|seg segs IH]; intros acc Hfree Hacc.
  - cbn [normalize_segments]. apply Forall_rev. exact Hacc.
  - inversion Hfree as [|? ? Hseg Hrest]; subst. cbn [normalize_segments].
    destruct (String.eqb seg "") eqn:He; [apply IH; assumption|].
    destruct (String.eqb seg ".") eqn:Hd; [apply IH; assumption|]. cbn [orb].
    destruct (String.eqb seg "..") eqn:Hdd.
    + destruct acc as [|last acc']; [apply IH; assumption|].
      inversion Hacc as [|? ? Hlast Hacc']; subst.
      destruct (String.eqb last ".."); apply IH; assumption.
    + apply IH; [assumption|]. constructor; [|assumption].
      unfold proper. rewrite He, Hd, Hdd, Hseg. reflexivity.
Qed.

Lemma resolve_prepend_absolute (process_cwd : string) (args : list string) :
  isAbsolute process_cwd = true ->
  snd (resolve_prepend (process_cwd :: args)) = true.
Proof.
  intros Habs. cbn [resolve_prepend].
  destruct (resolve_prepend args) as [resolvedPath [|]]; [reflexivity|].
  destruct process_cwd; [discriminate Habs|]. cbn. exact Habs.
Qed.

(** With an absolute current directory, [resolve] gives the absolute path of
    proper segments. *)
Lemma resolve_from_root (process_cwd : string) (args : list string) :
  isAbsolute process_cwd = true ->
  exists segs,
    resolve process_cwd args = from_root segs /\
    Forall (fun seg => proper seg = true) segs.
Proof.
  intros Habs. unfold resolve.
  pose proof (resolve_prepend_absolute process_cwd args Habs) as Hsnd.
  destruct (resolve_prepend (process_cwd :: args)) as [resolvedPath resolvedAbsolute].
  cbn [snd] in Hsnd. subst resolvedAbsolute. cbn [negb].
  eexists. split; [reflexivity|].
  apply normalize_segments_gives_proper; [apply split_on_is_free|constructor].
Qed.

Lemma proper_is_free (segs : list string) :
  Forall (fun seg => proper seg = true) segs ->
  Forall (fun seg => free_of "/" seg = true) segs.
Proof.
  intros H. eapply Forall_impl; [exact H|]. intros seg Hseg.
  apply (proper_parts seg Hseg).
Qed.

Lemma split_on_from_root (segs : list string) :
  Forall (fun seg => proper seg = true) segs ->
  split_on "/" (from_root segs)
  = EmptyString :: match segs with [] => [EmptyString] | _ => segs end.
Proof.
  intros Hall. unfold from_root.
  change ("/" +:+ String.concat "/" segs) with (String "/" (String.concat "/" segs)).
  cbn [split_on]. rewrite Ascii.eqb_refl. f_equal.
  destruct segs as [|x l]; [reflexivity|].
  apply split_on_concat; [discriminate|apply proper_is_free, Hall].
Qed.

Lemma filter_proper (segs : list string) :
  Forall (fun seg => proper seg = true) segs ->
  List.filter (fun seg => negb (String.eqb seg "")) segs = segs.
Proof.
  induction 1 as [|seg segs Hseg _ IH]; [reflexivity|].
  cbn [List.filter]. destruct (proper_parts seg Hseg) as (-> & _). cbn [negb].
  rewrite IH. reflexivity.
Qed.

Lemma segments_from_root (segs : list string) :
  Forall (fun seg => proper seg = true) segs ->
  segments (from_root segs) = segs.
Proof.
  intros Hall. unfold segments. rewrite (split_on_from_root segs Hall).
  destruct segs as [|x l]; [reflexivity|].
  transitivity (List.filter (fun seg => negb (String.eqb seg "")) (x :: l));
    [reflexivity|apply filter_proper, Hall].
Qed.

Lemma resolve_of_from_root (process_cwd : string) (segs : list string) :
  Forall (fun seg => proper seg = true) segs ->
  resolve process_cwd [from_root segs] = from_root segs.
Proof.
  intros Hall. unfold resolve. cbn [resolve_prepend].
  assert (Hne : String.eqb (from_root segs) "" = false) by reflexivity.
  rewrite Hne.
  assert (Ha : isAbsolute (from_root segs) = true) by reflexivity.
  rewrite Ha. cbn [negb].
  change (from_root segs +:+ "/" +:+ "") with (from_root segs +:+ String "/" EmptyString).
  rewrite split_on_app, (split_on_from_root segs Hall).
  change (split_on "/" EmptyString) with [EmptyString].
  destruct segs as [|x l]; [reflexivity|].
  change ((EmptyString :: x :: l) ++ [EmptyString])
    with (EmptyString :: ((x :: l) ++ [EmptyString])).
  change (normalize_segments false [] (EmptyString :: ((x :: l) ++ [EmptyString])))
    with (normalize_segments false [] ((x :: l) ++ [EmptyString])).
  rewrite normalize_segments_app, (normalize_segments_proper false (x :: l) [] Hall).
  change (rev [] ++ x :: l) with (x :: l).
  change (normalize_segments false (rev (x :: l)) [EmptyString]) with (rev (rev (x :: l))).
  rewrite rev_involutive. reflexivity.
Qed.

End PathFacts.

Section ConfinementFacts.
Import NodePath Paths.
Context {World : Type} (pf : Platform World).

Lemma starts_with_segments_refl (l : list string) : starts_with_segments l l = true.
Proof. induction l as [|x l IH]; [reflexivity|]. cbn. rewrite String.eqb_refl. exact IH. Qed.

Lemma strip_common_nothing_up (from to : list string) :
  fst (strip_common from to) = [] -> starts_with_segments from to = true.
Proof.
  revert to. induction from as [|f from IH]; intros to H; [reflexivity|].
  destruct to as [|t to]; [discriminate H|].
  cbn [strip_common] in H. cbn [starts_with_segments].
  destruct (String.eqb f t); [apply IH, H|discriminate H].
Qed.

Lemma strip_common_below (dir more : list string) :
  strip_common dir (dir ++ more) = ([], more).
Proof.
  induction dir as [|d dir IH]; [destruct more; reflexivity|].
  cbn [app strip_common]. rewrite String.eqb_refl. exact IH.
Qed.

Lemma relative_going_up (up down : list string) :
  up <> [] ->
  startsWith (String.concat "/" (map (fun _ : string => "..") up ++ down)) ".." = true.
Proof.
  destruct up as [|u up]; [contradiction|]. intros _. cbn [map app].
  destruct (map (fun _ : string => "..") up ++ down) as [|y l]; reflexivity.
Qed.

(** The relative form of one resolved path with respect to another. *)
Lemma relative_of_from_root (dir path : list string) :
  Forall (fun seg => proper seg = true) dir ->
  Forall (fun seg => proper seg = true) path ->
  relative_segments (process_cwd pf) (from_root dir) (from_root path)
  = if String.eqb (from_root dir) (from_root path) then []
    else let '(up, down) := strip_common dir path in
         map (fun _ : string => "..") up ++ down.
Proof.
  intros Hdir Hpath. unfold relative_segments.
  destruct (String.eqb (from_root dir) (from_root path)) eqn:E; [reflexivity|].
  rewrite (resolve_of_from_root _ dir Hdir), (resolve_of_from_root _ path Hpath), E.
  rewrite (segments_from_root dir Hdir), (segments_from_root path Hpath). reflexivity.
Qed.

End ConfinementFacts.

(** X1.  What [isPathSafe] accepts lies in the working directory: for an
    executor made by the constructor (in a process whose current directory is
    absolute), a path that [isPathSafe] accepts resolves to a path whose first
    segments are those of the working directory. *)
Theorem isPathSafe_accepts_only_inside {World : Type} (pf : Platform World)
    (cwd0 : string) (settings : option ApiSettings) (filePath : string) :
  NodePath.isAbsolute (process_cwd pf) = true ->
  isPathSafe pf (new_ToolExecutor pf cwd0 settings) filePath = true ->
  inside (process_cwd pf) (cwd (new_ToolExecutor pf cwd0 settings)) filePath = true.
Proof.
  intros Habs. unfold isPathSafe, inside. cbn [cwd new_ToolExecutor].
  destruct (resolve_from_root (process_cwd pf) [cwd0] Habs) as (dir & -> & Hdir).
  destruct (resolve_from_root (process_cwd pf) [Paths.from_root dir; filePath] Habs)
    as (path & -> & Hpath).
  rewrite (segments_from_root dir Hdir), (segments_from_root path Hpath).
  unfold NodePath.relative. rewrite (relative_of_from_root pf dir path Hdir Hpath).
  destruct (String.eqb_spec (Paths.from_root dir) (Paths.from_root path)) as [E|_].
  - intros _. apply (f_equal NodePath.segments) in E.
    rewrite (segments_from_root dir Hdir), (segments_from_root path Hpath) in E.
    subst path. apply starts_with_segments_refl.
  - intros H. apply andb_true_iff in H as [Hdots _]. apply negb_true_iff in Hdots.
    apply strip_common_nothing_up.
    destruct (NodePath.strip_common dir path) as [up down]. cbn [fst].
    destruct up as [|u up]; [reflexivity|].
    rewrite (relative_going_up (u :: up) down) in Hdots by discriminate.
    discriminate Hdots.
Qed.

Lemma isPathSafe_accepts_only_inside_witness :
  inside "/" "/home/user/project" "src/../README.md" = true.
Proof.
  apply (isPathSafe_accepts_only_inside Examples.host "/home/user/project" None
           "src/../README.md"); reflexivity.
Defined.

Section AcceptanceFacts.
Import NodePath Paths.

Lemma proper_not_absolute (seg rest : string) :
  proper seg = true -> isAbsolute (seg +:+ rest) = false.
Proof.
  intros H. destruct (proper_parts seg H) as (He & _ & _ & Hfree).
  destruct seg as [|c seg]; [discriminate He|].
  rewrite append_cons. cbn [isAbsolute]. cbn [free_of] in Hfree.
  apply andb_true_iff in Hfree as [Hc _]. apply negb_true_iff in Hc. exact Hc.
Qed.

Lemma proper_not_dots (seg rest : string) :
  proper seg = true ->
  startsWith seg ".." = false ->
  startsWith (seg +:+ String "/" rest) ".." = false.
Proof.
  intros H Hdots. destruct (proper_parts seg H) as (He & Hd & _ & _).
  unfold startsWith in *.
  destruct seg as [|c1 seg]; [discriminate He|].
  rewrite append_cons. cbn [String.prefix] in *.
  destruct (ascii_dec "." c1) as [<-|]; [|reflexivity].
  destruct seg as [|c2 seg]; [vm_compute in Hd; discriminate Hd|].
  rewrite append_cons. cbn [String.prefix] in *.
  destruct (ascii_dec "." c2); [|reflexivity]. destruct seg; discriminate Hdots.
Qed.

Lemma concat_first (x : string) (l : list string) :
  String.concat "/" (x :: l)
  = match l with [] => x | _ => x +:+ String "/" (String.concat "/" l) end.
Proof. destruct l; reflexivity. Qed.

Lemma from_root_injective (l1 l2 : list string) :
  Forall (fun seg => proper seg = true) l1 ->
  Forall (fun seg => proper seg = true) l2 ->
  from_root l1 = from_root l2 -> l1 = l2.
Proof.
  intros H1 H2 E. apply (f_equal segments) in E.
  rewrite (segments_from_root l1 H1), (segments_from_root l2 H2) in E. exact E.
Qed.

(** Resolving proper segments against a resolved directory appends them. *)
Lemma resolve_below (process_cwd : string) (dir names : list string) :
  Forall (fun seg => proper seg = true) dir ->
  Forall (fun seg => proper seg = true) names ->
  resolve process_cwd [from_root dir; String.concat "/" names] = from_root (dir ++ names).
Proof.
  intros Hdir Hnames. destruct names as [|x l].
  { rewrite app_nil_r. apply (resolve_of_from_root process_cwd dir Hdir). }
  set (p := String.concat "/" (x :: l)).
  assert (Hp_abs : isAbsolute p = false).
  { subst p. rewrite concat_first. inversion Hnames as [|? ? Hx _]; subst.
    destruct l; [rewrite <- (append_nil_r x)|]; apply proper_not_absolute, Hx. }
  assert (Hp_ne : String.eqb p "" = false).
  { subst p. rewrite concat_first. inversion Hnames as [|? ? Hx _]; subst.
    destruct (proper_parts x Hx) as (He & _). destruct x; [discriminate He|].
    destruct l; reflexivity. }
  unfold resolve. cbn [resolve_prepend]. rewrite Hp_ne, Hp_abs.
  assert (Hne : String.eqb (from_root dir) "" = false) by reflexivity.
  assert (Ha : isAbsolute (from_root dir) = true) by reflexivity.
  rewrite Hne, Ha. cbn [negb].
  change (from_root dir +:+ "/" +:+ p +:+ "/" +:+ "")
    with (from_root dir +:+ String "/" (p +:+ String "/" EmptyString)).
  rewrite !split_on_app, (split_on_from_root dir Hdir).
  subst p. rewrite (split_on_concat (x :: l) ltac:(discriminate) (proper_is_free _ Hnames)).
  change (split_on "/" EmptyString) with [EmptyString].
  unfold from_root. f_equal. f_equal.
  assert (Hstart : forall rest,
            normalize_segments false []
              ((EmptyString :: match dir with [] => [EmptyString] | _ => dir end) ++ rest)
            = normalize_segments false (rev dir) rest).
  { intros rest. destruct dir as [|d dir']; [reflexivity|].
    change ((EmptyString :: d :: dir') ++ rest) with (EmptyString :: ((d :: dir') ++ rest)).
    change (normalize_segments false [] (EmptyString :: ((d :: dir') ++ rest)))
      with (normalize_segments false [] ((d :: dir') ++ rest)).
    rewrite normalize_segments_app, (normalize_segments_proper false (d :: dir') [] Hdir).
    reflexivity. }
  rewrite Hstart, normalize_segments_app,
    (normalize_segments_proper false (x :: l) (rev dir) Hnames).
  rewrite rev_involutive.
  change (normalize_segments false (rev (dir ++ x :: l)) [EmptyString])
    with (rev (rev (dir ++ x :: l))).
  apply rev_involutive.
Qed.

End AcceptanceFacts.

(** X2.  [isPathSafe] accepts the entries below the working directory that
    are named plainly: a relative path made of proper segments (none empty,
    [.] or [..], none with a slash) whose first segment does not begin with
    two dots is accepted, and so is the empty path. *)
Theorem isPathSafe_accepts_plain_paths {World : Type} (pf : Platform World)
    (cwd0 : string) (settings : option ApiSettings) (names : list string) :
  NodePath.isAbsolute (process_cwd pf) = true ->
  Forall (fun seg => Paths.proper seg = true) names ->
  match names with
  | first :: _ => startsWith first ".." = false
  | [] => True
  end ->
  isPathSafe pf (new_ToolExecutor pf cwd0 settings) (String.concat "/" names) = true.
Proof.
  intros Habs Hnames Hfirst. unfold isPathSafe. cbn [cwd new_ToolExecutor].
  destruct (resolve_from_root (process_cwd pf) [cwd0] Habs) as (dir & -> & Hdir).
  rewrite (resolve_below (process_cwd pf) dir names Hdir Hnames).
  assert (Hpath : Forall (fun seg => Paths.proper seg = true) (dir ++ names))
    by (apply Forall_app; split; assumption).
  unfold NodePath.relative. rewrite (relative_of_from_root pf dir _ Hdir Hpath).
  destruct (String.eqb_spec (Paths.from_root dir) (Paths.from_root (dir ++ names)))
    as [E|_]; [reflexivity|].
  rewrite strip_common_below. cbn [map app].
  destruct names as [|x l]; [reflexivity|].
  inversion Hnames as [|? ? Hx _]; subst.
  rewrite concat_first.
  destruct l as [|y l].
  - rewrite Hfirst. rewrite <- (append_nil_r x) at 1.
    rewrite (proper_not_absolute x EmptyString Hx). reflexivity.
  - rewrite (proper_not_dots x _ Hx Hfirst), (proper_not_absolute x _ Hx). reflexivity.
Qed.

Lemma isPathSafe_accepts_plain_paths_witness :
  isPathSafe Examples.host Examples.executor "src/electron/.env" = true.
Proof.
  apply (isPathSafe_accepts_plain_paths Examples.host "/home/user/project" None
           ["src"; "electron"; ".env"]).
  - reflexivity.
  - repeat constructor.
  - reflexivity.
Defined.

(** ** The web tools of the executor *)

(** X3.  Without a Tavily key in the settings (no settings, no key, or an
    empty key) the executor built by the constructor answers both web tools
    with their configuration failure, whatever the arguments, and leaves the
    world as it is: nothing is attempted. *)
Theorem web_tools_need_a_key {World : Type} (pf : Platform World) (cwd0 : string)
    (settings : option ApiSettings) (args : Json) (w : World) :
  match settings with
  | Some s => falsy_string (tavilyApiKey s) = true
  | None => True
  end ->
  executeTool pf (new_ToolExecutor pf cwd0 settings) "WebSearch" args w
  = (Ret {| success := false; output := None;
            error := Some "Web search is not available. Please configure Tavily API key in Settings." |},
     w) /\
  executeTool pf (new_ToolExecutor pf cwd0 settings) "ExtractPageContent" args w
  = (Ret {| success := false; output := None;
            error := Some "Page extraction is not available. Please configure Tavily API key in Settings." |},
     w).
Proof.
  intros Hkey.
  assert (Hnone : webSearchTool (new_ToolExecutor pf cwd0 settings) = None /\
                  extractPageTool (new_ToolExecutor pf cwd0 settings) = None).
  { unfold new_ToolExecutor. cbn [webSearchTool extractPageTool].
    destruct settings as [s|]; [rewrite Hkey|]; split; reflexivity. }
  destruct Hnone as [Hws Hep].
  unfold executeTool, dispatch. cbn [String.eqb Ascii.eqb Bool.eqb].
  unfold executeWebSearch, executeExtractPage. rewrite Hws, Hep. split; reflexivity.
Qed.

Lemma web_tools_need_a_key_witness :
  executeTool Examples.host (new_ToolExecutor Examples.host "/home/user/project"
                               (Some Examples.local)) "WebSearch" (JObj []) 0
  = (Ret (failure "Web search is not available. Please configure Tavily API key in Settings."),
     0).
Proof.
  apply (proj1 (web_tools_need_a_key Examples.host "/home/user/project"
                  (Some Examples.local) (JObj []) 0 eq_refl)).
Defined.



(** ** The snippets of a web search *)

Lemma substring_0_length (n : nat) (s : string) :
  String.length (String.substring 0 n s) = Nat.min n (String.length s).
Proof.
  revert n. induction s as [|c s IH]; intros [|n]; cbn; try reflexivity.
  rewrite IH. reflexivity.
Qed.

Lemma substring_0_all (n : nat) (s : string) :
  String.length s <= n -> String.substring 0 n s = s.
Proof.
  revert n. induction s as [|c s IH]; intros [|n] H; cbn in *; try reflexivity; try lia.
  rewrite IH by lia. reflexivity.
Qed.

Lemma substring_0_prefix (n : nat) (s : string) :
  String.prefix (String.substring 0 n s) s = true.
Proof.
  revert n. induction s as [|c s IH]; intros [|n]; cbn; try reflexivity.
  destruct (ascii_dec c c); [apply IH|congruence].
Qed.

Lemma length_append (a b : string) :
  String.length (a +:+ b) = String.length a + String.length b.
Proof.
  induction a as [|c a IH]; [reflexivity|]. rewrite append_cons. cbn [String.length].
  rewrite IH. reflexivity.
Qed.

(** X5.  The snippet of a search result is never longer than 203
    characters: it is the content itself when that has at most 200
    characters, and otherwise the first 200 characters of the content
    followed by three dots. *)
Theorem snippets_are_bounded (content : string) :
  String.length (WebSearch.snippet_of content) <= 203 /\
  (String.length content <= 200 -> WebSearch.snippet_of content = content) /\
  (200 < String.length content ->
   WebSearch.snippet_of content = String.substring 0 200 content +:+ "..." /\
   String.length (WebSearch.snippet_of content) = 203 /\
   String.prefix (String.substring 0 200 content) content = true).
Proof.
  unfold WebSearch.snippet_of.
  destruct (Nat.ltb_spec 200 (String.length content)) as [Hlong|Hshort].
  - split; [|split; [lia|]].
    + rewrite length_append, substring_0_length. cbn [String.length]. lia.
    + intros _. split; [reflexivity|]. split; [|apply substring_0_prefix].
      rewrite length_append, substring_0_length. cbn [String.length]. lia.
  - split; [|split; [|lia]].
    + rewrite length_append, substring_0_length. cbn [String.length]. lia.
    + intros _. rewrite append_nil_r. apply substring_0_all, Hshort.
Qed.

(** ** Loading the settings *)

(** X6.  [loadApiSettings] gives nothing exactly when there is no settings
    file or when the key, the endpoint and the model are all empty.
    Otherwise it gives the stored settings with a permission mode that is
    never empty ("ask" by default) and every other field as stored; loading
    what was loaded changes nothing. *)
Theorem loaded_settings_are_usable (stored : option ApiSettings) :
  (loadApiSettings stored = None <->
   match stored with
   | None => True
   | Some s =>
       falsy_string (apiKey s) = true /\ falsy_string (baseUrl s) = true /\
       falsy_string (model s) = true
   end) /\
  (forall loaded, loadApiSettings stored = Some loaded ->
     exists s,
       stored = Some s /\
       falsy_string (permissionMode loaded) = false /\
       permissionMode loaded = Some (or_else (permissionMode s) "ask") /\
       apiKey loaded = apiKey s /\ baseUrl loaded = baseUrl s /\ model loaded = model s /\
       temperature loaded = temperature s /\ enableMemory loaded = enableMemory s /\
       tavilyApiKey loaded = tavilyApiKey s) /\
  loadApiSettings (loadApiSettings stored) = loadApiSettings stored.
Proof.
  destruct stored as [[k u m t e tk pm]|].
  2:{ cbn. split; [tauto|]. split; [discriminate|reflexivity]. }
  destruct k as [[|? k]|], u as [[|? u]|], m as [[|? m]|], pm as [[|? pm]|]; cbn;
    (split; [split; intros; first [discriminate|reflexivity|tauto|idtac]|]);
    try (match goal with H : _ /\ _ |- _ => destruct H as (? & ? & ?); discriminate end);
    (split;
     [intros loaded Hl; first [discriminate Hl|injection Hl as <-];
      eexists; (split; [reflexivity|]); cbn; repeat (split; try reflexivity)
     |reflexivity]).
Qed.

(** ** The outcome of a web search *)



(** ** A run without settings *)

(** X7.  When no settings can be loaded, or the loaded settings lack the
    endpoint or the model, the run makes no request, loads no history,
    touches nothing and never suspends: all it does is send one error status
    with the text "Error: API settings not configured. Please set Base URL
    and Model in Settings.". *)
Theorem unconfigured_run_only_reports {World : Type} (env : Env World)
    (options : RunnerOptions) (w : World) :
  (forall guiSettings,
     loadApiSettings (stored_settings env) = Some guiSettings ->
     falsy_string (baseUrl guiSettings) = true \/ falsy_string (model guiSettings) = true) ->
  runClaude env options w
  = Some {| events :=
              [session_status (session_id (session options)) error_status
                 (session_title (session options))
                 (Some "Error: API settings not configured. Please set Base URL and Model in Settings.")];
            recorded := []; session_updates := []; sent := [];
            world := w; awaits := 0; ticks := 0 |}.
Proof.
  intros Hnot.
  assert (Hconf : ~ configured env).
  { intros (guiSettings & Hload & Hurl & Hmodel).
    destruct (Hnot guiSettings Hload) as [H|H]; congruence. }
  unfold runClaude. rewrite (body_not_configured env options (start w) Hconf).
  reflexivity.
Qed.

Lemma unconfigured_run_only_reports_witness :
  let env :=
    {| pf := Examples.host;
       templates := {| platform := "linux"; system_txt := ""; initial_prompt_txt := "{task}" |};
       stored_settings :=
         Some {| apiKey := Some "sk-1"; baseUrl := Some "http://localhost:8000";
                 model := None; temperature := None; enableMemory := None;
                 tavilyApiKey := None; permissionMode := None |};
       DEFAULT_CWD := "/home/user/project";
       sessionStore := None;
       now := fun k => Z.of_nat k;
       toISOString := fun _ => "2023-11-14T22:13:20.000Z";
       create := Examples.always_calls;
       syntaxErrorMessage := fun _ => "Unexpected end of JSON input";
       abortAt := None |} in
  option_map (fun st => (events st, sent st, world st)) (runClaude env Examples.options 0)
  = Some ([session_status "s1" error_status "t"
             (Some "Error: API settings not configured. Please set Base URL and Model in Settings.")],
          [], 0).
Proof.
  intros env.
  rewrite (unconfigured_run_only_reports env Examples.options 0).
  - reflexivity.
  - intros guiSettings [= <-]. right. reflexivity.
Defined.

(** ** The text of an answer *)

Section TextFacts.
Context {World : Type} (env : Env World) (options : RunnerOptions).
Import Transcript.

Lemma text_events_cons (sessionId : string) (started : bool) (t : string)
    (rest : list string) :
  text_events sessionId started (t :: rest)
  = text_events sessionId started [t] ++ text_events sessionId true rest.
Proof.
  destruct rest as [|t' rest]; cbn [text_events map].
  - rewrite app_nil_r. reflexivity.
  - destruct started; cbn [app]; reflexivity.
Qed.

(** The tool call fragments add no event and do not suspend. *)
Lemma accumulate_silent (calls : list (option ToolCall)) (fragment : ToolCallDelta)
    (st : RunState World) :
  exists calls' st',
    accumulate env calls fragment st = (Ret calls', st') /\
    events st' = events st /\ awaits st' = awaits st.
Proof.
  unfold accumulate.
  destruct (tcd_index fragment) as [index|]; [|eauto].
  destruct (array_get calls index) as [call|].
  - destruct (truthy_string (fd_arguments_of fragment)); eauto.
  - destruct (truthy_string (tcd_id fragment)); eauto.
Qed.

Lemma accumulate_all_silent (fragments : list ToolCallDelta) :
  forall (calls : list (option ToolCall)) (st : RunState World),
  exists calls' st',
    accumulate_all env calls fragments st = (Ret calls', st') /\
    events st' = events st /\ awaits st' = awaits st.
Proof.
  induction fragments as [|fragment fragments IH]; intros calls st; [eauto|].
  destruct (accumulate_silent calls fragment st) as (calls1 & st1 & H1 & He1 & Ha1).
  destruct (IH calls1 st1) as (calls2 & st2 & H2 & He2 & Ha2).
  exists calls2, st2. cbn [accumulate_all].
  rewrite (bind_ret_state _ _ _ _ _ H1). split; [exact H2|]. split; congruence.
Qed.

Lemma process_delta_text (a : Assembly) (delta : Delta) (st : RunState World) :
  exists a' st',
    process_delta env options a delta st = (Ret a', st') /\
    assistantMessage a'
    = assistantMessage a +:+ concatenation (option_list (text_of_delta delta)) /\
    contentStarted a' = contentStarted a || negb (is_empty (option_list (text_of_delta delta))) /\
    events st'
    = events st ++ text_events (session_id (session options)) (contentStarted a)
                     (option_list (text_of_delta delta)) /\
    awaits st' = awaits st.
Proof.
  unfold process_delta, text_of_delta.
  set (first_part := if truthy_string (d_content delta) then _ else _).
  assert (Hfirst : exists a1 st1,
            first_part st = (Ret a1, st1) /\
            assistantMessage a1
            = assistantMessage a +:+ concatenation (option_list (text_of_delta delta)) /\
            contentStarted a1
            = contentStarted a || negb (is_empty (option_list (text_of_delta delta))) /\
            events st1
            = events st ++ text_events (session_id (session options)) (contentStarted a)
                             (option_list (text_of_delta delta)) /\
            awaits st1 = awaits st).
  { subst first_part. unfold text_of_delta.
    destruct (truthy_string (d_content delta)).
    - destruct (contentStarted a) eqn:Hstarted; eexists _, _;
        (split; [reflexivity|]); cbn;
        rewrite ?append_nil_r, ?orb_true_r, <- ?app_assoc; repeat split; reflexivity.
    - exists a, st. cbn. rewrite append_nil_r, orb_false_r, app_nil_r. repeat split. }
  destruct Hfirst as (a1 & st1 & H1 & Hm1 & Hs1 & He1 & Ha1).
  unfold text_of_delta in Hm1, Hs1, He1.
  rewrite (bind_ret_state _ _ _ _ _ H1).
  destruct (d_tool_calls delta) as [fragments|].
  - destruct (accumulate_all_silent fragments (toolCalls a1) st1)
      as (calls & st2 & H2 & He2 & Ha2).
    rewrite (bind_ret_state _ _ _ _ _ H2).
    eexists _, _. split; [reflexivity|]. cbn [assistantMessage contentStarted].
    repeat split; congruence.
  - exists a1, st1. repeat split; assumption.
Qed.

Lemma texts_of_cons (chunk : Chunk) (rest : list Chunk) :
  texts_of (chunk :: rest) = option_list (text_of_chunk chunk) ++ texts_of rest.
Proof. unfold texts_of. cbn. destruct (text_of_chunk chunk); reflexivity. Qed.

Lemma concatenation_app (l1 l2 : list string) :
  concatenation (l1 ++ l2) = concatenation l1 +:+ concatenation l2.
Proof.
  induction l1 as [|t l1 IH]; [reflexivity|].
  change (concatenation ((t :: l1) ++ l2)) with (t +:+ concatenation (l1 ++ l2)).
  change (concatenation (t :: l1)) with (t +:+ concatenation l1).
  rewrite IH. symmetry. apply append_assoc.
Qed.

Lemma text_events_app (sessionId : string) (started : bool) (l1 l2 : list string) :
  text_events sessionId started (l1 ++ l2)
  = text_events sessionId started l1
    ++ text_events sessionId (started || negb (is_empty l1)) l2.
Proof.
  destruct l1 as [|t l1]; [cbn; rewrite orb_false_r; reflexivity|].
  destruct l2 as [|t2 l2]; [rewrite !app_nil_r; reflexivity|].
  cbn [app text_events is_empty negb map]. rewrite orb_true_r, map_app.
  destruct started; cbn [app map]; rewrite <- ?app_assoc; reflexivity.
Qed.

Lemma is_empty_app {A : Type} (l1 l2 : list A) :
  is_empty (l1 ++ l2) = is_empty l1 && is_empty l2.
Proof. destruct l1; reflexivity. Qed.

(** A stream consumed without an abort. *)
Lemma consume_text (failure : option Thrown) (chunks : list Chunk) :
  abortAt env = None ->
  forall (a : Assembly) (st : RunState World),
  exists a' st',
    consume env options chunks failure a st
    = (match failure with Some e => Throw e | None => Ret a' end, st') /\
    assistantMessage a' = assistantMessage a +:+ concatenation (texts_of chunks) /\
    contentStarted a' = contentStarted a || negb (is_empty (texts_of chunks)) /\
    events st'
    = events st ++ text_events (session_id (session options)) (contentStarted a)
                     (texts_of chunks).
Proof.
  intros Hno. induction chunks as [|chunk chunks IH]; intros a st.
  - exists a, (snd (suspend st)). rewrite consume_nil. cbn.
    rewrite append_nil_r, orb_false_r, app_nil_r.
    split; [destruct failure; reflexivity|]. repeat split.
  - rewrite consume_cons. cbn zeta. rewrite (never_aborted env _ Hno).
    rewrite texts_of_cons. unfold text_of_chunk.
    destruct (choice_delta chunk) as [delta|].
    + destruct (process_delta_text a delta (snd (suspend st)))
        as (a1 & st1 & H1 & Hm1 & Hs1 & He1 & _).
      rewrite H1.
      destruct (IH a1 st1) as (a2 & st2 & H2 & Hm2 & Hs2 & He2).
      exists a2, st2. split; [exact H2|].
      rewrite concatenation_app, text_events_app, is_empty_app, negb_andb.
      rewrite Hm2, Hs2, He2, Hm1, Hs1, He1. cbn [suspend snd events].
      rewrite append_assoc, app_assoc, orb_assoc. repeat split.
    + destruct (IH a (snd (suspend st))) as (a2 & st2 & H2 & Hm2 & Hs2 & He2).
      exists a2, st2. split; [exact H2|]. cbn [option_list app].
      rewrite Hm2, Hs2, He2. repeat split.
Qed.

End TextFacts.

(** X8.  The answer of the model, read to its end without an abort: the
    text of the turn is the concatenation, in order, of the non-empty
    contents of the chunks, and exactly these are shown, as one
    [content_block_start] (only if there is any text) followed by one
    [content_block_delta] for each; a stream that breaks at its end has shown
    the same events before it throws. *)
Theorem streamed_text_is_relayed {World : Type} (env : Env World) (options : RunnerOptions)
    (client : Client) (request : Request) (st : RunState World) (stream : Stream)
    (w' : World) :
  abortAt env = None ->
  create env client request (world st) = (Ret stream, w') ->
  exists a st',
    respond env options client request st
    = (match stream_error stream with Some e => Throw e | None => Ret a end, st') /\
    assistantMessage a = concatenation (Transcript.texts_of (chunks stream)) /\
    contentStarted a = negb (Transcript.is_empty (Transcript.texts_of (chunks stream))) /\
    events st'
    = events st ++ Transcript.text_events (session_id (session options)) false
                     (Transcript.texts_of (chunks stream)).
Proof.
  intros Hno Hcreate. unfold respond, await, suspend, bind. cbn [world snd fst].
  rewrite Hcreate.
  destruct (consume_text env options (stream_error stream) (chunks stream) Hno fresh
              {| events := events st; recorded := recorded st;
                 session_updates := session_updates st; sent := sent st;
                 world := w'; awaits := S (awaits st); ticks := ticks st |})
    as (a & st' & H & Hm & Hs & He).
  exists a, st'. split; [exact H|]. split; [exact Hm|]. split; [exact Hs|exact He].
Qed.

Lemma streamed_text_is_relayed_witness :
  exists a st',
    respond (Examples.environment Examples.local None (Examples.calls_then_hello 0) None)
      Examples.options (new_OpenAI Examples.local) (request_of Examples.local [])
      (start 0)
    = (Ret a, st') /\
    assistantMessage a = "Hello" /\
    events st'
    = [stream_message "s1" (stream_event content_block_start);
       stream_message "s1" (stream_event (content_block_delta "Hel"));
       stream_message "s1" (stream_event (content_block_delta "lo"))].
Proof.
  destruct (streamed_text_is_relayed
              (Examples.environment Examples.local None (Examples.calls_then_hello 0) None)
              Examples.options (new_OpenAI Examples.local) (request_of Examples.local [])
              (start 0) Examples.hello 1 eq_refl eq_refl)
    as (a & st' & H & Hm & _ & He).
  exists a, st'. split; [exact H|]. split; [exact Hm|exact He].
Defined.

(** ** The shape of the history *)

Section HistoryShape.
Context {World : Type} (env : Env World) (options : RunnerOptions).
Import Transcript.

Lemma flush_messages (h : History) :
  messages (flush h) = messages h \/
  exists c, String.eqb c "" = false /\
            messages (flush h) = messages h ++ [plain_message assistant c].
Proof.
  unfold flush. destruct (String.eqb (trim (currentAssistantMessage h)) "") eqn:E.
  - left. reflexivity.
  - right. exists (trim (currentAssistantMessage h)). split; [exact E|reflexivity].
Qed.

Lemma convert_messages (h : History) (msg : StoredMessage) :
  messages (convert h msg)
  = match msg with
    | user_prompt p => messages (flush h) ++ [plain_message user (or_else p "")]
    | _ => messages h
    end.
Proof. destruct msg; reflexivity. Qed.

(** The user messages are the prompts of the log, in order. *)
Lemma prompts_fold (log : list StoredMessage) (h : History) :
  map content (List.filter is_user (messages (fold_left convert log h)))
  = map content (List.filter is_user (messages h)) ++ omap prompt_text log.
Proof.
  revert h. induction log as [|msg log IH]; intros h; [cbn; rewrite app_nil_r; reflexivity|].
  cbn [fold_left]. rewrite IH, convert_messages.
  destruct msg as [p|t u|i n a u|i o e u|ty]; try reflexivity.
  rewrite List.filter_app, map_app, flush_users. cbn. rewrite <- app_assoc. reflexivity.
Qed.

(** What follows the first message is written by the user or the
    assistant, and carries a content only. *)
Lemma of_the_log_fold (log : list StoredMessage) (first : ChatMessage) :
  forall (h : History) (rest : list ChatMessage),
  messages h = first :: rest -> Forall of_the_log rest ->
  exists rest', messages (fold_left convert log h) = first :: rest' /\ Forall of_the_log rest'.
Proof.
  induction log as [|msg log IH]; intros h rest Hm Hrest; [eauto|].
  cbn [fold_left].
  assert (Hflush : exists rest1, messages (flush h) = first :: rest1 /\ Forall of_the_log rest1).
  { destruct (flush_messages h) as [E|(c & _ & E)]; rewrite E, Hm.
    - eauto.
    - exists (rest ++ [plain_message assistant c]). split; [reflexivity|].
      apply Forall_app. split; [exact Hrest|].
      constructor; [|constructor]. split; [right|]; reflexivity. }
  destruct Hflush as (rest1 & Hm1 & Hrest1).
  assert (Hstep : exists rest2,
            messages (convert h msg) = first :: rest2 /\ Forall of_the_log rest2).
  { rewrite convert_messages. destruct msg as [p|t u|i n a u|i o e u|ty]; eauto.
    rewrite Hm1. exists (rest1 ++ [plain_message user (or_else p "")]).
    split; [reflexivity|]. apply Forall_app. split; [exact Hrest1|].
    constructor; [|constructor]. split; [left|]; reflexivity. }
  destruct Hstep as (rest2 & Hm2 & Hrest2). exact (IH _ _ Hm2 Hrest2).
Qed.

Lemma assistants_apart_snoc (l : list ChatMessage) (m : ChatMessage) :
  assistants_apart (l ++ [m])
  = assistants_apart l && negb (ends_with_assistant l && is_assistant m).
Proof.
  induction l as [|a l IH]; [reflexivity|].
  destruct l as [|b l].
  - cbn. unfold ends_with_assistant. cbn. rewrite !andb_true_r. reflexivity.
  - change ((a :: b :: l) ++ [m]) with (a :: ((b :: l) ++ [m])).
    change (assistants_apart (a :: (b :: l) ++ [m]))
      with (negb (is_assistant a && is_assistant b) && assistants_apart ((b :: l) ++ [m])).
    rewrite IH.
    change (assistants_apart (a :: b :: l))
      with (negb (is_assistant a && is_assistant b) && assistants_apart (b :: l)).
    unfold ends_with_assistant. rewrite !last_cons. cbn [last].
    destruct (last l); rewrite andb_assoc; reflexivity.
Qed.

Lemma ends_with_assistant_snoc (l : list ChatMessage) (m : ChatMessage) :
  ends_with_assistant (l ++ [m]) = is_assistant m.
Proof. unfold ends_with_assistant. rewrite last_snoc. reflexivity. Qed.

Lemma flush_apart (h : History) :
  between_prompts h ->
  assistants_apart (messages (flush h)) = true /\
  Forall (fun m => is_assistant m = true -> String.eqb (content m) "" = false)
    (messages (flush h)).
Proof.
  intros (Hap & Hend & Hne).
  destruct (flush_messages h) as [E|(c & Hc & E)]; rewrite E; [split; assumption|].
  split.
  - rewrite assistants_apart_snoc, Hap, Hend. reflexivity.
  - apply Forall_app. split; [exact Hne|]. constructor; [|constructor].
    intros _. exact Hc.
Qed.

Lemma convert_between_prompts (h : History) (msg : StoredMessage) :
  between_prompts h -> between_prompts (convert h msg).
Proof.
  intros Hh. unfold between_prompts. rewrite convert_messages.
  destruct msg as [p|t u|i n a u|i o e u|ty]; try exact Hh.
  destruct (flush_apart h Hh) as (Hap & Hne).
  rewrite assistants_apart_snoc, ends_with_assistant_snoc, Hap.
  split; [cbn; rewrite andb_false_r; reflexivity|]. split; [reflexivity|].
  apply Forall_app. split; [exact Hne|]. constructor; [|constructor].
  intros H. discriminate H.
Qed.

Lemma fold_between_prompts (log : list StoredMessage) :
  forall h, between_prompts h -> between_prompts (fold_left convert log h).
Proof.
  induction log as [|msg log IH]; intros h Hh; [exact Hh|].
  cbn [fold_left]. apply IH, convert_between_prompts, Hh.
Qed.

(** White space at the front of a text does not show after [trim]. *)
Lemma trimStart_head (s : string) (x : ascii) (t : string) :
  trimStart s = String x t -> isWhiteSpace x = false.
Proof.
  induction s as [|c s IH]; cbn [trimStart]; [discriminate|].
  destruct (isWhiteSpace c) eqn:Hc; [exact IH|]. intros [= <- _]. exact Hc.
Qed.

Lemma trimStart_blank (c : string) : trim c = EmptyString -> trimStart c = EmptyString.
Proof.
  unfold trim. destruct (trimStart c) as [|x t] eqn:E; [reflexivity|].
  cbn [trimEnd]. rewrite (trimStart_head _ _ _ E). cbn [andb]. discriminate.
Qed.

Lemma trimStart_append (c s : string) :
  trimStart c = EmptyString -> trimStart (c +:+ s) = trimStart s.
Proof.
  induction c as [|x c IH]; [reflexivity|].
  rewrite append_cons. cbn [trimStart].
  destruct (isWhiteSpace x); [exact IH|discriminate].
Qed.

Lemma trim_blank_append (c s : string) : trim c = EmptyString -> trim (c +:+ s) = trim s.
Proof.
  intros H. unfold trim. rewrite (trimStart_append _ _ (trimStart_blank _ H)). reflexivity.
Qed.

Lemma answer_blank_append (c s : string) :
  trim c = EmptyString -> answer (c +:+ s) = answer s.
Proof. intros H. unfold answer. rewrite (trim_blank_append _ _ H). reflexivity. Qed.

(** A blank answer in progress, which [flush] leaves in place, does not show
    in what follows. *)
Lemma merged_blank_append (log : list StoredMessage) :
  forall c s, trim c = EmptyString -> merged (c +:+ s) log = merged s log.
Proof.
  induction log as [|msg log IH]; intros c s H; [apply answer_blank_append, H|].
  destruct msg as [p|t u|i n a u|i o e u|ty]; cbn [merged];
    rewrite ?(answer_blank_append _ _ H), ?append_assoc; try reflexivity;
    apply IH, H.
Qed.

Lemma merged_blank (log : list StoredMessage) (c : string) :
  trim c = EmptyString -> merged c log = merged EmptyString log.
Proof.
  intros H. rewrite <- (append_nil_r c). apply merged_blank_append, H.
Qed.

Lemma flush_merged (h : History) :
  messages (flush h) = messages h ++ answer (currentAssistantMessage h) /\
  forall log, merged (currentAssistantMessage (flush h)) log = merged EmptyString log.
Proof.
  unfold flush, answer.
  destruct (String.eqb_spec (trim (currentAssistantMessage h)) "") as [E|_].
  - split; [rewrite app_nil_r; reflexivity|].
    intros log. apply merged_blank, E.
  - split; reflexivity.
Qed.

(** The loop over the log, followed by the last [flush], computes the
    messages that the log stands for. *)
Lemma fold_merged (log : list StoredMessage) :
  forall h,
  messages (flush (fold_left convert log h))
  = messages h ++ merged (currentAssistantMessage h) log.
Proof.
  induction log as [|msg log IH]; intros h.
  - exact (proj1 (flush_merged h)).
  - cbn [fold_left]. rewrite IH.
    destruct msg as [p|t u|i n a u|i o e u|ty]; cbn [convert merged piece messages
      currentAssistantMessage]; rewrite ?append_nil_r; try reflexivity.
    destruct (flush_merged h) as [Hm Hc]. rewrite Hm, Hc, <- !app_assoc. reflexivity.
Qed.

End HistoryShape.

(** X9.  The history that is sent to the model starts with the system
    prompt; every later message is a user or an assistant message with a
    content and nothing else (no tool message, no tool call); and the user
    messages are exactly the prompts of the log, one for each [user_prompt]
    event, in the order of the log. *)
Theorem history_keeps_the_prompts {World : Type} (env : Env World) (options : RunnerOptions)
    (log : list StoredMessage) :
  let h := history_of env options log in
  (exists rest,
     messages h
     = plain_message system (getSystemPrompt (templates env) (currentCwd env options)) :: rest /\
     Forall Transcript.of_the_log rest) /\
  map content (List.filter is_user (messages h)) = omap prompt_text log.
Proof.
  unfold history_of. destruct log as [|msg log].
  - split; [exists []; split; [reflexivity|constructor]|reflexivity].
  - set (h0 := {| messages := _ |}). split.
    + destruct (of_the_log_fold (msg :: log) _ h0 [] eq_refl (List.Forall_nil _))
        as (rest & Hm & Hrest).
      destruct (flush_messages (fold_left convert (msg :: log) h0)) as [E|(c & _ & E)];
        rewrite E, Hm.
      * eauto.
      * exists (rest ++ [plain_message assistant c]). split; [reflexivity|].
        apply Forall_app. split; [exact Hrest|].
        constructor; [|constructor]. split; [right|]; reflexivity.
    + rewrite flush_users, prompts_fold. reflexivity.
Qed.

(** X10.  The history is the system prompt followed by the messages that the
    log stands for: each prompt is a user message, and the texts and the tool
    outputs (each between brackets, on a line of its own) that the log holds
    between two prompts are concatenated in order, trimmed, and make one
    assistant message, unless the result is empty.  So no assistant message
    directly follows another one, and no assistant message is empty. *)
Theorem history_merges_the_answers {World : Type} (env : Env World) (options : RunnerOptions)
    (log : list StoredMessage) :
  let h := history_of env options log in
  messages h
  = plain_message system (getSystemPrompt (templates env) (currentCwd env options))
    :: Transcript.merged EmptyString log /\
  Transcript.assistants_apart (messages h) = true /\
  Forall (fun m => Transcript.is_assistant m = true -> String.eqb (content m) "" = false)
    (messages h).
Proof.
  unfold history_of. destruct log as [|msg log].
  - split; [reflexivity|]. split; [reflexivity|].
    constructor; [|constructor]. intros H. discriminate H.
  - set (h0 := {| messages := _ |}). split.
    + rewrite fold_merged. reflexivity.
    + apply flush_apart, fold_between_prompts.
      split; [reflexivity|]. split; [reflexivity|].
      constructor; [|constructor]. intros H. discriminate H.
Qed.

(** ** The loop that executes the tools *)

Section ToolPhase.
Context {World : Type} (env : Env World) (options : RunnerOptions).
Variable toolExecutor : ToolExecutor.
Import Transcript.

(** One pass of the loop. *)
Lemma execute_all_cons (entry : option ToolCall) (rest : list (option ToolCall))
    (results : list ChatMessage) (st : RunState World) :
  execute_all env options toolExecutor (entry :: rest) results st
  = if is_aborted env st then (Ret results, st)
    else
      match entry with
      | None =>
          (Throw (ErrorObj "TypeError" (typeErrorMessage (pf env) "undefined" "function")), st)
      | Some toolCall =>
          match JSON_parse (arguments_text toolCall) with
          | None =>
              (Throw (ErrorObj "SyntaxError"
                        (syntaxErrorMessage env (arguments_text toolCall))), st)
          | Some toolArgs =>
              match arg (pf env) toolArgs "explanation" with
              | Throw e => (Throw e, st)
              | Ret explanation =>
                  let st1 :=
                    snd (sendPermissionRequest options (tc_id toolCall) (tc_name toolCall)
                           toolArgs explanation st) in
                  match await (executeTool (pf env) toolExecutor (tc_name toolCall) toolArgs)
                          st1 with
                  | (Throw e, st2) => (Throw e, st2)
                  | (Ret result, st2) =>
                      let e := {| ex_call := toolCall; ex_args := toolArgs;
                                  ex_explanation := explanation; ex_result := result |} in
                      execute_all env options toolExecutor rest (results ++ [tool_message e])
                        (snd (saveToDb env options
                                (tool_result (tc_id toolCall) (result_display result)
                                   (negb (success result)) ("tool_result_" +:+ tc_id toolCall))
                                (snd (sendMessage options
                                        (user_message
                                           [tool_result_block (tc_id toolCall)
                                              (result_display result)
                                              (negb (success result))]) st2))))
                  end
              end
          end
      end.
Proof.
  cbn [execute_all]. unfold bind at 1. unfold aborted.
  destruct (is_aborted env st); [reflexivity|].
  destruct entry as [toolCall|]; [|reflexivity].
  unfold bind at 1. cbn [element]. unfold ret at 1.
  unfold bind at 1. unfold parse.
  destruct (JSON_parse (arguments_text toolCall)) as [toolArgs|]; [|reflexivity].
  unfold ret at 1. unfold bind at 1.
  destruct (arg (pf env) toolArgs "explanation") as [explanation|e]; [|reflexivity].
  cbn [lift]. unfold ret at 1.
  unfold bind at 1. unfold sendPermissionRequest at 1. unfold onEvent at 1.
  cbn [snd]. unfold bind at 1.
  destruct (await _ _) as [[result|e] st2]; [|reflexivity].
  unfold bind at 1. unfold sendMessage at 1. unfold onEvent at 1.
  unfold bind at 1.
  unfold saveToDb. destruct (sessionStore env); [|reflexivity].
  destruct (String.eqb (session_id (session options)) ""); reflexivity.
Qed.

Lemma await_effect {A : Type} (f : World -> Outcome A * World) (st : RunState World) :
  exists r w,
    f (world st) = (r, w) /\
    await f st
    = (r, {| events := events st; recorded := recorded st;
             session_updates := session_updates st; sent := sent st;
             world := w; awaits := S (awaits st); ticks := ticks st |}).
Proof.
  unfold await, bind, suspend. cbn [world events recorded session_updates sent awaits ticks].
  destruct (f (world st)) as [r w]. exists r, w. split; reflexivity.
Qed.

Lemma saveToDb_effect (m : StoredMessage) (st : RunState World) :
  events (snd (saveToDb env options m st)) = events st /\
  awaits (snd (saveToDb env options m st)) = awaits st /\
  sent (snd (saveToDb env options m st)) = sent st.
Proof.
  unfold saveToDb. destruct (sessionStore env); [|repeat split].
  destruct (String.eqb _ _); repeat split.
Qed.

(** What the loop has done when it returns. *)
Lemma execute_all_protocol (calls : list (option ToolCall)) :
  forall (results : list ChatMessage) (st : RunState World)
         (results' : list ChatMessage) (st' : RunState World),
  execute_all env options toolExecutor calls results st = (Ret results', st') ->
  exists done : list Execution,
    results' = results ++ map tool_message done /\
    map (fun e => Some (ex_call e)) done = take (length done) calls /\
    Forall (fun e => JSON_parse (arguments_text (ex_call e)) = Some (ex_args e) /\
                     arg (pf env) (ex_args e) "explanation" = Ret (ex_explanation e)) done /\
    events st'
    = events st ++ flat_map (execution_events (session_id (session options))) done /\
    awaits st' = awaits st + length done /\
    sent st' = sent st /\
    (length done < length calls -> is_aborted env st' = true).
Proof.
  induction calls as [|entry rest IH]; intros results st results' st' H.
  - cbn in H. injection H as <- <-. exists []. cbn.
    rewrite !app_nil_r, Nat.add_0_r. repeat split; try constructor. lia.
  - rewrite execute_all_cons in H.
    destruct (is_aborted env st) eqn:Hab.
    { injection H as <- <-. exists []. cbn.
      rewrite !app_nil_r, Nat.add_0_r. repeat split; try constructor. intros _. exact Hab. }
    destruct entry as [toolCall|]; [|discriminate H].
    destruct (JSON_parse (arguments_text toolCall)) as [toolArgs|] eqn:Hparse;
      [|discriminate H].
    destruct (arg (pf env) toolArgs "explanation") as [explanation|e] eqn:Harg;
      [|discriminate H].
    cbn zeta in H.
    destruct (await_effect (executeTool (pf env) toolExecutor (tc_name toolCall) toolArgs)
                (snd (sendPermissionRequest options (tc_id toolCall) (tc_name toolCall)
                        toolArgs explanation st)))
      as (r & w & _ & Hawait).
    rewrite Hawait in H. destruct r as [result|e]; [|discriminate H].
    apply IH in H as (done & Hres & Hcalls & Hparsed & Hev & Haw & Hsent & Hstop).
    set (e := {| ex_call := toolCall; ex_args := toolArgs; ex_explanation := explanation;
                 ex_result := result |}) in *.
    pose proof (saveToDb_effect
                  (tool_result (tc_id toolCall) (result_display result)
                     (negb (success result)) ("tool_result_" +:+ tc_id toolCall))) as Hsave.
    rewrite (proj1 (Hsave _)) in Hev.
    rewrite (proj1 (proj2 (Hsave _))) in Haw.
    rewrite (proj2 (proj2 (Hsave _))) in Hsent.
    cbn in Hev, Haw, Hsent.
    exists (e :: done). cbn [map length flat_map take].
    split; [rewrite Hres, <- app_assoc; reflexivity|].
    split; [rewrite Hcalls; reflexivity|].
    split; [constructor; [split; assumption|exact Hparsed]|].
    split; [rewrite Hev, <- !app_assoc; reflexivity|].
    split; [rewrite Haw; lia|].
    split; [exact Hsent|].
    intros Hlt. apply Hstop. lia.
Qed.

End ToolPhase.

(** X11.  When the loop that executes the tools returns, it has gone through
    the first calls of the list, in order, and stopped before the end only
    because of an abort.  For each of them it has pushed one tool message
    that carries the id and the name of the call, shown one permission
    request followed by one tool result, and suspended once; it has made no
    request to the model. *)
Theorem tool_results_answer_the_calls {World : Type} (env : Env World)
    (options : RunnerOptions) (toolExecutor : ToolExecutor)
    (calls : list (option ToolCall)) (results : list ChatMessage) (st : RunState World)
    (results' : list ChatMessage) (st' : RunState World) :
  execute_all env options toolExecutor calls results st = (Ret results', st') ->
  exists done : list Transcript.Execution,
    results' = results ++ map Transcript.tool_message done /\
    map (fun e => Some (Transcript.ex_call e)) done = take (length done) calls /\
    Forall (fun e =>
              JSON_parse (arguments_text (Transcript.ex_call e)) = Some (Transcript.ex_args e) /\
              arg (pf env) (Transcript.ex_args e) "explanation"
              = Ret (Transcript.ex_explanation e)) done /\
    events st'
    = events st
      ++ flat_map (Transcript.execution_events (session_id (session options))) done /\
    awaits st' = awaits st + length done /\
    sent st' = sent st /\
    (length done < length calls -> is_aborted env st' = true).
Proof. apply execute_all_protocol. Qed.

Lemma tool_results_answer_the_calls_witness :
  exists done : list Transcript.Execution,
    map Transcript.tool_message done
    = [{| role := tool; content := "done"; tool_calls := None;
          tool_call_id := Some "c1"; name := Some "Bash" |};
       {| role := tool; content := "done"; tool_calls := None;
          tool_call_id := Some "c2"; name := Some "Bash" |}] /\
    length done = 2.
Proof.
  pose (env := Examples.environment Examples.local None Examples.always_calls None).
  pose (calls :=
          [Some {| tc_id := "c1"; tc_name := "Bash";
                   tc_arguments := Examples.json_text "{'command':'ls'}" |};
           Some {| tc_id := "c2"; tc_name := "Bash";
                   tc_arguments := Examples.json_text "{'command':'pwd'}" |}]).
  assert (H : execute_all env Examples.options Examples.executor calls [] (start 0)
              = (Ret [{| role := tool; content := "done"; tool_calls := None;
                         tool_call_id := Some "c1"; name := Some "Bash" |};
                      {| role := tool; content := "done"; tool_calls := None;
                         tool_call_id := Some "c2"; name := Some "Bash" |}],
                 snd (execute_all env Examples.options Examples.executor calls []
                        (start 0)))).
  { vm_compute. reflexivity. }
  destruct (tool_results_answer_the_calls env Examples.options Examples.executor calls []
              (start 0) _ _ H) as (done & Hres & _ & _ & _ & Haw & _).
  exists done. split; [symmetry; exact Hres|].
  symmetry. exact Haw.
Defined.

(** ** The tool phase of a turn *)

Section ToolTurn.
Context {World : Type} (env : Env World) (options : RunnerOptions).
Variable toolExecutor : ToolExecutor.
Import Transcript.





End ToolTurn.



(** ** How long an aborted run goes on *)

Section AbortBound.
Context {World : Type} (env : Env World) (options : RunnerOptions).
Variable k : nat.
Hypothesis Habort : abortAt env = Some k.
Import Transcript.

Lemma is_aborted_awaits (st : RunState World) : is_aborted env st = (k <=? awaits st)%nat.
Proof. unfold is_aborted. rewrite Habort. reflexivity. Qed.

Lemma late_bind {A B : Type} (m : @M World A) (f : A -> @M World B) :
  late k m -> (forall a, late k (f a)) -> late k (bind m f).
Proof.
  intros Hm Hf st. unfold late in *. unfold bind. specialize (Hm st).
  destruct (m st) as [[a|e] st1]; cbn [snd] in *; [|exact Hm].
  specialize (Hf a st1). lia.
Qed.

Lemma late_framed {A : Type} P (m : @M World A) : framed P false m -> late k m.
Proof.
  intros Hm st. destruct (Hm st) as (_ & _ & Hsame).
  destruct (Hsame eq_refl) as [_ ->]. lia.
Qed.

Lemma late_execute_all (toolExecutor : ToolExecutor) (calls : list (option ToolCall)) :
  forall results, late k (execute_all env options toolExecutor calls results).
Proof.
  induction calls as [|entry rest IH]; intros results st; [cbn; lia|].
  rewrite execute_all_cons.
  destruct (is_aborted env st) eqn:Hab; [cbn; lia|].
  rewrite is_aborted_awaits in Hab. apply Nat.leb_gt in Hab.
  destruct entry as [toolCall|]; [|cbn; lia].
  destruct (JSON_parse (arguments_text toolCall)) as [toolArgs|]; [|cbn; lia].
  destruct (arg (pf env) toolArgs "explanation") as [explanation|e]; [|cbn; lia].
  cbn zeta.
  destruct (await_effect (executeTool (pf env) toolExecutor (tc_name toolCall) toolArgs)
              (snd (sendPermissionRequest options (tc_id toolCall) (tc_name toolCall)
                      toolArgs explanation st)))
    as (r & w & _ & Hawait).
  rewrite Hawait. destruct r as [result|e]; [|cbn; lia].
  match goal with |- awaits (snd (execute_all _ _ _ _ ?res ?s)) <= _ =>
    specialize (IH res s);
    assert (Hs : awaits s = S (awaits st))
      by (rewrite (proj1 (proj2 (saveToDb_effect env options _ _))); reflexivity)
  end.
  rewrite Hs in IH. lia.
Qed.

Lemma late_run_tools (toolExecutor : ToolExecutor) (messages : list ChatMessage)
    (a : Assembly) :
  late k (run_tools env options toolExecutor messages a).
Proof.
  unfold run_tools.
  apply late_bind; [apply (late_framed any_event); framed|]. intros _.
  apply late_bind.
  { apply (late_framed is_announcement), framed_announce. }
  intros _. apply late_bind; [apply late_execute_all|].
  intros results. apply (late_framed any_event). framed.
Qed.

Lemma late_conclude (toolExecutor : ToolExecutor) (iterationCount : nat)
    (messages : list ChatMessage) (a : Assembly) :
  late k (conclude env options toolExecutor iterationCount messages a).
Proof.
  unfold conclude.
  apply late_bind; [apply (late_framed any_event); framed|]. intros _.
  destruct (toolCalls a); [|apply late_run_tools].
  apply (late_framed any_event). unfold finish, sendMessage. framed.
Qed.

Lemma consume_awaits (failure : option Thrown) (chunks : list Chunk) :
  forall (a : Assembly) (st : RunState World),
  awaits (snd (consume env options chunks failure a st))
  <= Nat.max (S k) (S (S (awaits st))).
Proof.
  induction chunks as [|chunk chunks IH]; intros a st.
  - rewrite consume_nil. destruct failure; cbn [suspend snd awaits]; lia.
  - rewrite consume_cons. cbn zeta.
    destruct (is_aborted env (snd (suspend st))) eqn:Hab; [cbn [suspend snd awaits]; lia|].
    rewrite is_aborted_awaits in Hab. apply Nat.leb_gt in Hab. cbn [suspend snd awaits] in Hab.
    destruct (choice_delta chunk) as [delta|].
    + destruct (process_delta_text env options a delta (snd (suspend st)))
        as (a1 & st1 & H1 & _ & _ & _ & Ha1).
      rewrite H1. specialize (IH a1 st1). rewrite Ha1 in IH.
      cbn [suspend snd awaits] in IH. lia.
    + specialize (IH a (snd (suspend st))). cbn [suspend snd awaits] in IH |- *. lia.
Qed.

Lemma respond_awaits (client : Client) (request : Request) (st : RunState World) :
  is_aborted env st = false ->
  awaits (snd (respond env options client request st)) <= S (S k).
Proof.
  intros Hab. rewrite is_aborted_awaits in Hab. apply Nat.leb_gt in Hab.
  unfold respond, bind.
  destruct (await_effect (create env client request) st) as (r & w & _ & Hawait).
  rewrite Hawait. destruct r as [stream|e]; [|cbn [snd awaits]; lia].
  match goal with |- awaits (snd (consume _ _ ?c ?f ?a ?s)) <= _ =>
    pose proof (consume_awaits f c a s) as Hc
  end.
  cbn [snd awaits] in Hc. lia.
Qed.

Lemma iteration_awaits (client : Client) (guiSettings : ApiSettings)
    (toolExecutor : ToolExecutor) (iterationCount : nat) (messages : list ChatMessage)
    (st : RunState World) :
  is_aborted env st = false ->
  awaits (snd (iteration env options client guiSettings toolExecutor iterationCount
                 messages st)) <= S (S k).
Proof.
  intros Hab. rewrite iteration_unfold. cbn zeta.
  pose proof (respond_awaits client (request_of guiSettings messages)
                (snd (record_request client (request_of guiSettings messages) st)) Hab)
    as Hr.
  destruct (respond env options client _ _) as [[a|e] st1]; cbn [snd] in Hr; [|exact Hr].
  pose proof (late_conclude toolExecutor iterationCount messages a st1) as Hc.
  unfold late in Hc. lia.
Qed.

Lemma agent_loop_awaits (client : Client) (guiSettings : ApiSettings)
    (toolExecutor : ToolExecutor) (fuel : nat) :
  forall (iterationCount : nat) (messages : list ChatMessage) (st : RunState World),
  awaits st <= S (S k) ->
  awaits (snd (agent_loop env options fuel client guiSettings toolExecutor iterationCount
                 messages st)) <= S (S k).
Proof.
  induction fuel as [|fuel IH]; intros iterationCount messages st Hst.
  - rewrite agent_loop_no_fuel. destruct (_ || _); exact Hst.
  - rewrite agent_loop_unfold.
    destruct (is_aborted env st) eqn:Hab; [exact Hst|]. cbn [orb].
    destruct (negb _); [exact Hst|].
    pose proof (iteration_awaits client guiSettings toolExecutor (S iterationCount)
                  messages st Hab) as Hi.
    destruct (iteration _ _ _ _ _ _ _ _) as [[[|messages']|e] st1]; cbn [snd] in Hi;
      [exact Hi| |exact Hi].
    apply IH, Hi.
Qed.

Lemma body_awaits (w : World) : awaits (snd (body env options (start w))) <= S (S k).
Proof.
  unfold body.
  destruct (loadApiSettings (stored_settings env)) as [guiSettings|]; [|cbn; lia].
  destruct (_ || _); [cbn; lia|].
  unfold bind.
  destruct (framed_prepare env options guiSettings (start w)) as (_ & _ & Hsame).
  destruct (Hsame eq_refl) as [_ Haw]. cbn [start awaits] in Haw.
  destruct (prepare env options guiSettings (start w)) as [[messages|e] st0];
    cbn [snd] in *; [|lia].
  match goal with |- context [agent_loop _ _ ?f ?c ?g ?t ?i ?m ?s] =>
    pose proof (agent_loop_awaits c g t f i m s) as Hloop
  end.
  destruct (agent_loop _ _ _ _ _ _ _ _ _) as [[[n|]|e] st1]; cbn [snd] in *;
    try (apply Hloop; lia).
  destruct (_ <=? _)%nat; cbn; apply Hloop; lia.
Qed.

End AbortBound.

(** X12.  An abort is obeyed within two suspensions: when [abort()] is called
    during the suspension number [k] of a run, the run is suspended at most
    twice more before it ends.  (Twice when the abort comes during the
    request: the first chunk is awaited before the flag is read, and leaving
    the loop over the stream awaits the closing of the stream.) *)
Theorem abort_is_obeyed_within_two_suspensions {World : Type} (env : Env World)
    (options : RunnerOptions) (w : World) (k : nat) (st : RunState World) :
  abortAt env = Some k ->
  runClaude env options w = Some st ->
  awaits st <= S (S k).
Proof.
  intros Habort Hrun. pose proof (body_awaits env options k Habort w) as Hb.
  unfold runClaude in Hrun.
  destruct (body env options (start w)) as [[[u|]|e] st1]; cbn [snd] in Hb.
  - injection Hrun as <-. exact Hb.
  - discriminate Hrun.
  - injection Hrun as <-. exact Hb.
Qed.

(** A run aborted during its request (the first suspension) is suspended
    twice more. *)
Lemma abort_is_obeyed_within_two_suspensions_witness :
  exists st,
    runClaude (Examples.environment Examples.local None (Examples.calls_then_hello 0)
                 (Some 1))
      Examples.options 0 = Some st /\
    awaits st <= 3 /\ awaits st = 3.
Proof.
  eexists. split; [vm_compute; reflexivity|]. split; [|vm_compute; reflexivity].
  eapply (abort_is_obeyed_within_two_suspensions
            (Examples.environment Examples.local None (Examples.calls_then_hello 0)
               (Some 1))
            Examples.options 0 1); [reflexivity|vm_compute; reflexivity].
Defined.

(** ** How a turn and the loop end *)

Section Outcomes.
Context {World : Type} (env : Env World) (options : RunnerOptions).
Variables (client : Client) (guiSettings : ApiSettings) (toolExecutor : ToolExecutor).
Import Transcript.

Lemma quiet_no_terminal (evs : list ServerEvent) :
  forallb quiet evs = true -> List.filter terminal evs = [].
Proof.
  induction evs as [|e evs IH]; intros H; [reflexivity|].
  cbn [forallb] in H. apply andb_true_iff in H as [He Hrest].
  unfold quiet in He. apply negb_true_iff in He.
  cbn [List.filter]. rewrite He. apply IH, Hrest.
Qed.

(** The tool phase hands the messages on, grown by the assistant message
    and the results. *)
Lemma run_tools_continues (messages : list ChatMessage) (a : Assembly)
    (st : RunState World) (step : Step) (st' : RunState World) :
  run_tools env options toolExecutor messages a st = (Ret step, st') ->
  exists more, step = Continue (messages ++ more).
Proof.
  unfold run_tools, bind. intros H.
  repeat match type of H with
         | context [match ?m ?s with _ => _ end] =>
             destruct (m s) as [[?|?] ?]; try discriminate H
         end.
  injection H as <- _. eexists. rewrite <- app_assoc. reflexivity.
Qed.

(** What a turn has done after the stream. *)
Lemma conclude_outcome (iterationCount : nat) (messages : list ChatMessage) (a : Assembly)
    (st : RunState World) :
  exists r st' evs,
    conclude env options toolExecutor iterationCount messages a st = (r, st') /\
    events st' = events st ++ evs /\
    match r with
    | Ret Break =>
        List.filter terminal evs
        = [result_event options iterationCount (assistantMessage a); completed_event options]
    | Ret (Continue messages') =>
        (exists more, messages' = messages ++ more) /\ forallb quiet evs = true
    | Throw _ => forallb quiet evs = true
    end.
Proof.
  destruct (toolCalls a) as [|entry rest] eqn:Hcalls.
  - set (stop := @when World (contentStarted a)
                   (sendMessage options (stream_event content_block_stop))).
    assert (Hstop : exists st1 evs1,
              stop st = (Ret tt, st1) /\ events st1 = events st ++ evs1 /\
              forallb quiet evs1 = true).
    { subst stop. destruct (contentStarted a); cbn [when].
      - eexists _, [_]. split; [reflexivity|]. split; reflexivity.
      - exists st, []. rewrite app_nil_r. repeat split. }
    destruct Hstop as (st1 & evs1 & Estop & Hevs1 & Hq1).
    destruct (finish_effect env options iterationCount a st1) as (st2 & t & Efin & Hevs2).
    eexists (Ret Break), st2, _. split; [|split].
    + unfold conclude. fold stop. rewrite (bind_ret_state _ _ _ _ _ Estop), Hcalls.
      exact Efin.
    + rewrite Hevs2, Hevs1, <- app_assoc. reflexivity.
    + rewrite List.filter_app, (quiet_no_terminal _ Hq1). reflexivity.
  - assert (Hne : toolCalls a <> []) by (rewrite Hcalls; discriminate).
    pose proof (framed_conclude_calls env options toolExecutor iterationCount messages a
                  Hne st) as (_ & (evs & Hevs & Hq) & _).
    destruct (conclude env options toolExecutor iterationCount messages a st)
      as [r st'] eqn:Econ.
    cbn [snd] in Hevs. exists r, st', evs. split; [reflexivity|]. split; [exact Hevs|].
    destruct r as [step|e]; [|exact Hq].
    unfold conclude, bind in Econ. rewrite Hcalls in Econ.
    destruct (when _ _ st) as [[u|e] st1]; [|discriminate Econ].
    destruct (run_tools_continues _ _ _ _ _ Econ) as (more & ->).
    split; [eauto|exact Hq].
Qed.

(** What one turn of the loop has done. *)
Lemma iteration_outcome (iterationCount : nat) (messages : list ChatMessage)
    (st : RunState World) :
  exists r st' evs,
    iteration env options client guiSettings toolExecutor iterationCount messages st
    = (r, st') /\
    sent st' = sent st ++ [(client, request_of guiSettings messages)] /\
    events st' = events st ++ evs /\
    match r with
    | Ret Break =>
        exists answer,
          List.filter terminal evs
          = [result_event options iterationCount answer; completed_event options]
    | Ret (Continue messages') =>
        (exists more, messages' = messages ++ more) /\ forallb quiet evs = true
    | Throw _ => forallb quiet evs = true
    end.
Proof.
  pose proof (iteration_effect env options client guiSettings toolExecutor iterationCount
                messages st) as [Hsent _].
  rewrite iteration_unfold in *. cbn zeta in *.
  set (request := request_of guiSettings messages) in *.
  pose proof (keeps_weaken is_stream_event quiet true true _ _
                stream_events_quiet (fun H => H)
                (framed_respond env options client request
                   (snd (record_request client request st))))
    as (_ & (evs1 & Hevs1 & Hq1) & _).
  cbn [record_request snd events] in Hevs1.
  destruct (respond env options client request _) as [[a|e] st1].
  - destruct (conclude_outcome iterationCount messages a st1)
      as (r & st' & evs2 & Econ & Hevs2 & Hr).
    rewrite Econ in *. cbn [snd] in *.
    exists r, st', (evs1 ++ evs2). split; [reflexivity|]. split; [exact Hsent|].
    split; [rewrite Hevs2, Hevs1, <- app_assoc; reflexivity|].
    destruct r as [[|messages']|e].
    + exists (assistantMessage a).
      rewrite List.filter_app, (quiet_no_terminal _ Hq1). exact Hr.
    + destruct Hr as [Hmore Hq2]. split; [exact Hmore|].
      rewrite forallb_app, Hq1, Hq2. reflexivity.
    + rewrite forallb_app, Hq1, Hr. reflexivity.
  - cbn [snd] in *. exists (Throw e), st1, evs1.
    split; [reflexivity|]. split; [exact Hsent|]. split; [exact Hevs1|exact Hq1].
Qed.

Lemma growing_cons (first : list ChatMessage) (rest : list (list ChatMessage)) :
  Forall (fun l => exists more, l = first ++ more) rest ->
  growing rest -> growing (first :: rest).
Proof.
  intros Hall Hrest. cbn [growing]. split; [|exact Hrest].
  destruct rest as [|b rest]; [exact I|].
  inversion Hall; assumption.
Qed.

(** How the loop ends: with the count of its turns, after a final answer
    (a result and the status "completed"), at its head (aborted, or at the
    cap), or by an exception. *)
Lemma agent_loop_outcome (fuel : nat) :
  forall (iterationCount : nat) (messages : list ChatMessage) (st : RunState World),
  MAX_ITERATIONS - iterationCount <= fuel ->
  exists r st' evs requests,
    agent_loop env options fuel client guiSettings toolExecutor iterationCount messages st
    = (r, st') /\
    events st' = events st ++ evs /\
    sent st' = sent st ++ requests /\
    Forall (fun l => exists more, l = messages ++ more) (conversations requests) /\
    growing (conversations requests) /\
    Forall (fun cr => snd cr = request_of guiSettings (req_messages (snd cr))) requests /\
    match r with
    | Ret None => False
    | Ret (Some n) =>
        n = iterationCount + length requests /\
        ((List.filter terminal evs = [] /\
          (is_aborted env st' = true \/ MAX_ITERATIONS <= n)) \/
         (n <= MAX_ITERATIONS /\
          exists answer,
            List.filter terminal evs
            = [result_event options n answer; completed_event options]))
    | Throw _ => List.filter terminal evs = []
    end.
Proof.
  induction fuel as [|fuel IH]; intros iterationCount messages st Hfuel.
  - rewrite agent_loop_no_fuel.
    destruct (is_aborted env st) eqn:Hab; cbn [orb].
    + exists (Ret (Some iterationCount)), st, [], [].
      rewrite !app_nil_r. do 3 (split; [reflexivity|]). split; [constructor|]. split; [exact I|].
      split; [constructor|].
      split; [cbn; lia|]. left. split; [reflexivity|].
      left. exact Hab.
    + destruct (Nat.ltb_spec iterationCount MAX_ITERATIONS) as [Hlt|Hge]; [lia|].
      exists (Ret (Some iterationCount)), st, [], [].
      rewrite !app_nil_r. do 3 (split; [reflexivity|]). split; [constructor|]. split; [exact I|].
      split; [constructor|].
      split; [cbn; lia|]. left. split; [reflexivity|].
      right. exact Hge.
  - rewrite agent_loop_unfold.
    destruct (is_aborted env st) eqn:Hab; cbn [orb].
    { exists (Ret (Some iterationCount)), st, [], [].
      rewrite !app_nil_r. do 3 (split; [reflexivity|]). split; [constructor|]. split; [exact I|].
      split; [constructor|].
      split; [cbn; lia|]. left. split; [reflexivity|].
      left. exact Hab. }
    destruct (Nat.ltb_spec iterationCount MAX_ITERATIONS) as [Hlt|Hge]; cbn [negb].
    2:{ exists (Ret (Some iterationCount)), st, [], [].
        rewrite !app_nil_r. do 3 (split; [reflexivity|]). split; [constructor|]. split; [exact I|].
      split; [constructor|].
      split; [cbn; lia|]. left. split; [reflexivity|].
        right. exact Hge. }
    destruct (iteration_outcome (S iterationCount) messages st)
      as (r & st1 & evs1 & Eit & Hsent1 & Hevs1 & Hr).
    rewrite Eit. destruct r as [[|messages']|e].
    + destruct Hr as (answer & Hr).
      exists (Ret (Some (S iterationCount))), st1, evs1, [(client, request_of guiSettings messages)].
      split; [reflexivity|]. split; [exact Hevs1|]. split; [exact Hsent1|].
      split; [constructor; [exists []; cbn; rewrite app_nil_r; reflexivity|constructor]|].
      split; [cbn; tauto|].
      split; [constructor; [reflexivity|constructor]|].
      split; [cbn; lia|]. right. split; [lia|]. exists answer. exact Hr.
    + destruct Hr as [(more & ->) Hq1].
      destruct (IH (S iterationCount) (messages ++ more) st1 ltac:(lia))
        as (r & st2 & evs2 & requests & Eloop & Hevs2 & Hsent2 & Hall & Hgrow & Hreqs & Hr).
      assert (Hall' : Forall (fun l => exists more, l = messages ++ more)
                        (conversations requests)).
      { eapply Forall_impl; [exact Hall|]. intros l (more' & ->).
        exists (more ++ more'). apply eq_sym, app_assoc. }
      exists r, st2, (evs1 ++ evs2), ((client, request_of guiSettings messages) :: requests).
      split; [exact Eloop|].
      split; [rewrite Hevs2, Hevs1, <- app_assoc; reflexivity|].
      split; [rewrite Hsent2, Hsent1, <- app_assoc; reflexivity|].
      split; [constructor; [exists []; cbn; rewrite app_nil_r; reflexivity|exact Hall']|].
      split; [apply growing_cons; [exact Hall'|exact Hgrow]|].
      split; [constructor; [reflexivity|exact Hreqs]|].
      rewrite List.filter_app, (quiet_no_terminal _ Hq1).
      destruct r as [[n|]|e]; [|exact Hr|exact Hr].
      destruct Hr as [Hn Hr]. split; [cbn [length]; lia|exact Hr].
    + exists (Throw e), st1, evs1, [(client, request_of guiSettings messages)].
      split; [reflexivity|]. split; [exact Hevs1|]. split; [exact Hsent1|].
      split; [constructor; [exists []; cbn; rewrite app_nil_r; reflexivity|constructor]|].
      split; [cbn; tauto|].
      split; [constructor; [reflexivity|constructor]|].
      apply quiet_no_terminal, Hr.
Qed.

End Outcomes.

(** ** How a run ends *)

Section RunOutcome.
Context {World : Type} (env : Env World) (options : RunnerOptions).
Import Transcript.

Lemma prepare_messages (guiSettings : ApiSettings) (st : RunState World)
    (messages0 : list ChatMessage) (st0 : RunState World) :
  prepare env options guiSettings st = (Ret messages0, st0) ->
  exists more,
    messages0 = messages (history_of env options (loaded_history env options)) ++ more.
Proof.
  unfold prepare, bind, build_messages. intros H.
  destruct (String.eqb _ _).
  - unfold ret at 1 in H. cbn [sendMessage onEvent] in H.
    destruct (has_onSessionUpdate options); cbn in H; injection H as <- _;
      exists []; rewrite app_nil_r; reflexivity.
  - cbn [Date_now ret] in H.
    destruct (has_onSessionUpdate options); cbn in H; injection H as <- _; eauto.
Qed.

Lemma not_aborted_without_abort (st : RunState World) :
  is_aborted env st = true -> abortAt env <> None.
Proof. unfold is_aborted. destruct (abortAt env); [discriminate|discriminate]. Qed.

(** The ways a run ends, and the requests it has made. *)
Lemma run_outcome (w : World) :
  exists st,
    runClaude env options w = Some st /\
    ((List.filter terminal (events st) = [] /\ abortAt env <> None) \/
     (exists message, List.filter terminal (events st) = [error_event options message]) \/
     (exists answer,
        length (sent st) < MAX_ITERATIONS /\
        List.filter terminal (events st)
        = [result_event options (length (sent st)) answer; completed_event options]) \/
     (exists answer,
        length (sent st) = MAX_ITERATIONS /\
        List.filter terminal (events st)
        = [result_event options MAX_ITERATIONS answer; completed_event options;
           error_event options "Error: Max iterations reached"])) /\
    growing (conversations (sent st)) /\
    Forall (fun l =>
              exists more,
                l = messages (history_of env options (loaded_history env options)) ++ more)
      (conversations (sent st)) /\
    Forall (fun cr =>
              forall guiSettings,
                loadApiSettings (stored_settings env) = Some guiSettings ->
                snd cr = request_of guiSettings (req_messages (snd cr)))
      (sent st).
Proof.
  unfold runClaude.
  destruct (loadApiSettings (stored_settings env)) as [guiSettings|] eqn:Hload.
  2:{ unfold body. rewrite Hload. cbn. eexists. split; [reflexivity|].
      cbn. split; [right; left; eexists; reflexivity|].
      split; [exact I|]. split; constructor. }
  destruct (falsy_string (baseUrl guiSettings) || falsy_string (model guiSettings)) eqn:Hcfg.
  { unfold body. rewrite Hload, Hcfg. cbn. eexists. split; [reflexivity|].
    cbn. split; [right; left; eexists; reflexivity|].
    split; [exact I|]. split; constructor. }
  apply orb_false_elim in Hcfg as [Hurl Hmodel].
  rewrite (body_configured env options guiSettings _ Hload Hurl Hmodel).
  destruct (prepare_returns env options guiSettings (start w)) as (messages0 & st0 & Eprep & _).
  pose proof (framed_prepare env options guiSettings (start w))
    as (Hsent0 & (evs0 & Hevs0 & Hq0) & _).
  destruct (prepare_messages guiSettings _ _ _ Eprep) as (more0 & Hmore0).
  rewrite Eprep in *. cbn [snd start sent events app] in Hsent0, Hevs0.
  destruct (agent_loop_outcome env options (new_OpenAI guiSettings) guiSettings
              (new_ToolExecutor (pf env) (currentCwd env options) (Some guiSettings))
              MAX_ITERATIONS 0 messages0 st0 ltac:(lia))
    as (r & st1 & evs & requests & Eloop & Hevs & Hsent & Hall & Hgrow & Hreqs & Hr).
  rewrite Eloop. rewrite Hsent0 in Hsent. cbn [app] in Hsent.
  rewrite Hevs0 in Hevs.
  assert (Hterm : List.filter terminal (events st1) = List.filter terminal evs).
  { rewrite Hevs, List.filter_app, (quiet_no_terminal _ Hq0). reflexivity. }
  assert (Hreq : growing (conversations (sent st1)) /\
            Forall (fun l =>
                      exists more,
                        l = messages (history_of env options (loaded_history env options))
                            ++ more)
              (conversations (sent st1)) /\
            Forall (fun cr =>
                      forall guiSettings0,
                        Some guiSettings = Some guiSettings0 ->
                        snd cr = request_of guiSettings0 (req_messages (snd cr)))
              (sent st1)).
  { rewrite Hsent. split; [exact Hgrow|]. split.
    - eapply Forall_impl; [exact Hall|]. intros l (more & ->). rewrite Hmore0.
      exists (more0 ++ more). apply eq_sym, app_assoc.
    - eapply Forall_impl; [exact Hreqs|]. intros cr Hcr guiSettings0 [= <-]. exact Hcr. }
  destruct r as [[n|]|e]; [|contradiction|].
  - destruct (Nat.leb_spec MAX_ITERATIONS n) as [Hcap|Hbelow].
    + eexists. split; [reflexivity|]. cbn [snd report onEvent events sent].
      split; [|exact Hreq].
      rewrite List.filter_app, Hterm.
      destruct Hr as [Hn [[Hnone _]|(Hle & answer & Hres)]].
      * right; left. rewrite Hnone. eexists. reflexivity.
      * right; right; right. assert (n = MAX_ITERATIONS) as -> by lia.
        exists answer. split; [rewrite Hsent, Hn; reflexivity|].
        rewrite Hres. reflexivity.
    + eexists. split; [reflexivity|]. split; [|exact Hreq].
      rewrite Hterm.
      destruct Hr as [Hn [[Hnone [Hab|Hcap]]|(Hle & answer & Hres)]].
      * left. split; [exact Hnone|]. exact (not_aborted_without_abort _ Hab).
      * lia.
      * right; right; left. exists answer.
        assert (Hlen : length (sent st1) = n) by (rewrite Hsent, Hn; reflexivity).
        rewrite Hlen. split; [exact Hbelow|exact Hres].
  - eexists. split; [reflexivity|]. cbn [snd report onEvent events sent].
    split; [|exact Hreq].
    right; left. rewrite List.filter_app, Hterm, Hr. eexists. reflexivity.
Qed.

End RunOutcome.

(** X13.  Every run settles, and in one of four ways only: silently (only
    after an abort); with one error status; with one result directly followed
    by the status "completed"; or, when the final answer comes in the turn
    that reaches the cap, with a result, the status "completed" and then the
    error status "Error: Max iterations reached".  There is never more than
    one result, never a result without "completed", and the number of turns
    that the result names is the number of requests made to the model. *)
Theorem a_run_ends_in_one_of_four_ways {World : Type} (env : Env World)
    (options : RunnerOptions) (w : World) :
  exists st,
    runClaude env options w = Some st /\
    ((List.filter terminal (events st) = [] /\ abortAt env <> None) \/
     (exists message,
        List.filter terminal (events st) = [Transcript.error_event options message]) \/
     (exists answer,
        length (sent st) < MAX_ITERATIONS /\
        List.filter terminal (events st)
        = [Transcript.result_event options (length (sent st)) answer;
           Transcript.completed_event options]) \/
     (exists answer,
        length (sent st) = MAX_ITERATIONS /\
        List.filter terminal (events st)
        = [Transcript.result_event options MAX_ITERATIONS answer;
           Transcript.completed_event options;
           Transcript.error_event options "Error: Max iterations reached"])).
Proof.
  destruct (run_outcome env options w) as (st & Hrun & Hends & _).
  exists st. split; [exact Hrun|exact Hends].
Qed.

(** X14.  The requests of a run carry the conversation: the messages of
    every request start with the history of the session (the system prompt
    first), and the messages of each request start with all the messages of
    the request before it; nothing is ever dropped or rewritten. *)
Theorem requests_carry_the_conversation {World : Type} (env : Env World)
    (options : RunnerOptions) (w : World) (st : RunState World) :
  runClaude env options w = Some st ->
  Transcript.growing (Transcript.conversations (sent st)) /\
  Forall (fun l =>
            exists more,
              l = messages (history_of env options (loaded_history env options)) ++ more)
    (Transcript.conversations (sent st)).
Proof.
  intros Hrun. destruct (run_outcome env options w) as (st' & Hrun' & _ & Hgrow & Hall & _).
  rewrite Hrun in Hrun'. injection Hrun' as <-. split; [exact Hgrow|exact Hall].
Qed.

Lemma requests_carry_the_conversation_witness :
  exists st,
    runClaude (Examples.environment Examples.local None (Examples.calls_then_hello 1) None)
      Examples.options 0 = Some st /\
    length (sent st) = 2 /\
    Transcript.growing (Transcript.conversations (sent st)).
Proof.
  eexists. split; [vm_compute; reflexivity|]. split; [vm_compute; reflexivity|].
  apply (requests_carry_the_conversation
           (Examples.environment Examples.local None (Examples.calls_then_hello 1) None)
           Examples.options 0).
  vm_compute. reflexivity.
Defined.

(** ** A failure of the model *)

Section ModelFailure.
Context {World : Type} (env : Env World) (options : RunnerOptions).
Import Transcript.

Lemma respond_fails (client : Client) (request : Request) (st : RunState World)
    (e : Thrown) :
  fails env client request (world st) e ->
  exists st1, respond env options client request st = (Throw e, st1).
Proof.
  intros [(w1 & Hcreate)|(stream & w1 & Hcreate & Hbreak & Hno)];
    unfold respond, await, suspend, bind; cbn [world snd fst]; rewrite Hcreate.
  - eauto.
  - match goal with |- context [consume _ _ ?c ?f ?a ?s] =>
      destruct (consume_text env options f c Hno a s) as (a' & st' & H & _)
    end.
    rewrite H, Hbreak. eauto.
Qed.

End ModelFailure.

(** X15.  A failure of the model ends the session.  When, at some turn, the
    request to the model fails, or its stream breaks after the last chunk
    (no abort coming), the run makes no further request: it ends with one
    error status, its only result or status event, whose text is the error
    converted to a string. *)
Theorem model_failure_ends_the_session {World : Type} (env : Env World)
    (options : RunnerOptions) (w : World) (guiSettings : ApiSettings)
    (messages0 : list ChatMessage) (st0 : RunState World)
    (fuel iterationCount : nat) (messages : list ChatMessage) (st : RunState World)
    (e : Thrown) :
  let client := new_OpenAI guiSettings in
  let toolExecutor :=
    new_ToolExecutor (pf env) (currentCwd env options) (Some guiSettings) in
  let request := request_of guiSettings messages in
  loadApiSettings (stored_settings env) = Some guiSettings ->
  falsy_string (baseUrl guiSettings) = false ->
  falsy_string (model guiSettings) = false ->
  prepare env options guiSettings (start w) = (Ret messages0, st0) ->
  reaches env options client guiSettings toolExecutor MAX_ITERATIONS 0 messages0 st0
    (S fuel) iterationCount messages st ->
  is_aborted env st = false ->
  iterationCount < MAX_ITERATIONS ->
  Transcript.fails env client request (world st) e ->
  exists st2,
    runClaude env options w = Some st2 /\
    sent st2 = sent st ++ [(client, request)] /\
    last (events st2) = Some (Transcript.error_event options (String_of_thrown e)) /\
    List.filter terminal (events st2)
    = [Transcript.error_event options (String_of_thrown e)].
Proof.
  intros client toolExecutor request Hload Hurl Hmodel Hprep Hreach Hab Hlt Hfails.
  destruct (respond_fails env options client request
              (snd (record_request client request st)) e Hfails) as (st1 & Hresp).
  pose proof (framed_prepare env options guiSettings (start w)) as (_ & (evs0 & Hevs0 & Hq0) & _).
  rewrite Hprep in Hevs0. cbn [snd start events app] in Hevs0.
  destruct (reaches_quiet env options _ _ _ _ _ _ _ _ _ _ _ Hreach) as (evs1 & Hevs1 & Hq1).
  pose proof (keeps_weaken is_stream_event quiet true true _ _
                stream_events_quiet (fun H => H)
                (framed_respond env options client request
                   (snd (record_request client request st))))
    as (Hsent2 & (evs2 & Hevs2 & Hq2) & _).
  rewrite Hresp in Hevs2, Hsent2. cbn [snd record_request events sent] in Hevs2, Hsent2.
  assert (Eloop : agent_loop env options MAX_ITERATIONS client guiSettings toolExecutor
                    0 messages0 st0 = (Throw e, st1)).
  { rewrite (reaches_result env options _ _ _ _ _ _ _ _ _ _ _ Hreach).
    rewrite agent_loop_unfold, Hab. cbn [orb].
    apply Nat.ltb_lt in Hlt. rewrite Hlt. cbn [negb].
    rewrite iteration_unfold. cbv zeta. fold request. rewrite Hresp. reflexivity. }
  exists (snd (report options e st1)).
  unfold runClaude. rewrite (body_configured env options guiSettings _ Hload Hurl Hmodel).
  rewrite Hprep. fold client toolExecutor. rewrite Eloop.
  split; [reflexivity|].
  cbn [snd report onEvent events sent].
  split; [exact Hsent2|]. split; [apply last_snoc|].
  rewrite Hevs2, Hevs1, Hevs0.
  rewrite !List.filter_app, (quiet_no_terminal _ Hq0), (quiet_no_terminal _ Hq1),
    (quiet_no_terminal _ Hq2).
  reflexivity.
Qed.

Lemma model_failure_ends_the_session_witness :
  exists st2,
    runClaude (Examples.environment Examples.local None
                 (fun _ _ w => (Throw (ErrorObj "Error" "Connection error."), S w)) None)
      Examples.options 0 = Some st2 /\
    length (sent st2) = 1 /\
    List.filter terminal (events st2)
    = [session_status "s1" error_status "t" (Some "Error: Connection error.")].
Proof.
  pose (env := Examples.environment Examples.local None
                 (fun _ _ w => (Throw (ErrorObj "Error" "Connection error."), S w)) None).
  pose (guiSettings :=
          {| apiKey := None; baseUrl := Some "http://localhost:8000/";
             model := Some "qwen"; temperature := None; enableMemory := None;
             tavilyApiKey := None; permissionMode := Some "ask" |}).
  pose (prepared := prepare env Examples.options guiSettings (start 0)).
  pose (messages0 := match fst prepared with Ret m => m | Throw _ => [] end).
  pose (st0 := snd prepared).
  destruct (model_failure_ends_the_session env Examples.options 0 guiSettings
              messages0 st0 49 0 messages0 st0 (ErrorObj "Error" "Connection error."))
    as (st2 & Hrun & Hsent & _ & Hterm).
  - reflexivity.
  - reflexivity.
  - reflexivity.
  - reflexivity.
  - apply reaches_here.
  - reflexivity.
  - unfold MAX_ITERATIONS. lia.
  - left. exists 1. reflexivity.
  - exists st2. split; [exact Hrun|]. split; [rewrite Hsent; reflexivity|exact Hterm].
Defined.

(** ** The settings of a request *)

(** X19.  Every request of a run names the model of the settings and a
    temperature: the temperature of the settings, unless there is none or its
    value is zero (the literal [0], or one that rounds to zero as a double),
    in which case the request carries 0.3.  A temperature of 0 cannot be
    chosen. *)
Theorem a_zero_temperature_is_replaced {World : Type} (env : Env World)
    (options : RunnerOptions) (w : World) (st : RunState World)
    (guiSettings : ApiSettings) (client : Client) (request : Request) :
  loadApiSettings (stored_settings env) = Some guiSettings ->
  runClaude env options w = Some st ->
  In (client, request) (sent st) ->
  req_model request = or_else (model guiSettings) "" /\
  req_temperature request
  = match temperature guiSettings with
    | Some t => if number_is_zero t then "0.3" else t
    | None => "0.3"
    end.
Proof.
  intros Hload Hrun Hin.
  destruct (run_outcome env options w) as (st' & Hrun' & _ & _ & _ & Hall).
  rewrite Hrun in Hrun'. injection Hrun' as <-.
  rewrite List.Forall_forall in Hall. specialize (Hall _ Hin guiSettings Hload).
  cbn [snd] in Hall. rewrite Hall. cbn [request_of req_model req_temperature].
  split; [reflexivity|]. unfold temperature_of.
  destruct (temperature guiSettings) as [t|]; [|reflexivity].
  cbn [truthy]. destruct (number_is_zero t); reflexivity.
Qed.

(** The temperatures 0 and 1e-400 (zero as a double) are both replaced. *)
Lemma a_zero_temperature_is_replaced_witness :
  let settings t :=
    {| apiKey := None; baseUrl := Some "http://localhost:8000/"; model := Some "qwen";
       temperature := Some t; enableMemory := None; tavilyApiKey := None;
       permissionMode := Some "ask" |} in
  let env t := Examples.environment (settings t) None (Examples.calls_then_hello 0) None in
  let replaced t :=
    exists st request,
      runClaude (env t) Examples.options 0 = Some st /\
      In (new_OpenAI (settings t), request) (sent st) /\
      req_temperature request = "0.3" in
  replaced "0" /\ replaced "1e-400".
Proof.
  intros settings env replaced.
  assert (H : forall t, In t ["0"; "1e-400"] -> replaced t);
    [|split; apply H; [left|right; left]; reflexivity].
  intros t Ht. unfold replaced.
  pose (st := match runClaude (env t) Examples.options 0 with
              | Some st => st
              | None => start 0
              end).
  pose (request := match sent st with
                   | (_, r) :: _ => r
                   | [] => request_of (settings t) []
                   end).
  assert (Hrun : runClaude (env t) Examples.options 0 = Some st)
    by (destruct Ht as [<-|[<-|[]]]; vm_compute; reflexivity).
  assert (Hin : In (new_OpenAI (settings t), request) (sent st))
    by (destruct Ht as [<-|[<-|[]]]; vm_compute; left; reflexivity).
  exists st, request. split; [exact Hrun|]. split; [exact Hin|].
  rewrite (proj2 (a_zero_temperature_is_replaced (env t) Examples.options 0 st (settings t)
                    (new_OpenAI (settings t)) request eq_refl Hrun Hin)).
  destruct Ht as [<-|[<-|[]]]; vm_compute; reflexivity.
Defined.

(** ** The prompt templates *)

Section ReplaceFacts.
Import Paths.

Lemma prefix_other_first (p0 c : ascii) (pat' s : string) :
  Ascii.eqb c p0 = false -> String.prefix (String p0 pat') (String c s) = false.
Proof.
  intros H. cbn [String.prefix]. destruct (ascii_dec p0 c) as [->|_]; [|reflexivity].
  rewrite Ascii.eqb_refl in H. discriminate H.
Qed.

Lemma prefix_append (pat post : string) : String.prefix pat (pat +:+ post) = true.
Proof.
  induction pat as [|c pat IH]; [destruct post; reflexivity|].
  rewrite append_cons. cbn [String.prefix]. destruct (ascii_dec c c); [exact IH|congruence].
Qed.

Lemma drop_chars_append (pat post : string) :
  drop_chars (String.length pat) (pat +:+ post) = post.
Proof.
  induction pat as [|c pat IH]; [destruct post; reflexivity|].
  rewrite append_cons. cbn [String.length drop_chars]. exact IH.
Qed.

Lemma free_of_append (c : ascii) (a b : string) :
  free_of c (a +:+ b) = free_of c a && free_of c b.
Proof.
  induction a as [|x a IH]; [reflexivity|].
  rewrite append_cons. cbn [free_of]. rewrite IH, andb_assoc. reflexivity.
Qed.

(** A text without the pattern is left as it is. *)
Lemma replace_from_absent (pat repl : string) (s : string) :
  absent pat s = true -> forall before, replace_from pat repl before s 0 = s.
Proof.
  induction s as [|c s IH]; intros H before; [reflexivity|].
  cbn [absent] in H. apply andb_true_iff in H as [Hhere Hrest].
  apply negb_true_iff in Hhere. cbn [replace_from]. rewrite Hhere, (IH Hrest). reflexivity.
Qed.

Lemma absent_free_append (p0 : ascii) (pat' a b : string) :
  free_of p0 a = true -> absent (String p0 pat') (a +:+ b) = absent (String p0 pat') b.
Proof.
  induction a as [|c a IH]; intros H; [reflexivity|].
  cbn [free_of] in H. apply andb_true_iff in H as [Hc Ha]. apply negb_true_iff in Hc.
  rewrite append_cons. cbn [absent]. rewrite (prefix_other_first _ _ _ _ Hc), (IH Ha).
  reflexivity.
Qed.

Lemma absent_free (p0 : ascii) (pat' a : string) :
  free_of p0 a = true -> absent (String p0 pat') a = true.
Proof.
  intros H. rewrite <- (append_nil_r a), (absent_free_append _ _ _ _ H). reflexivity.
Qed.

(** The characters of a match are passed over. *)
Lemma replace_from_skip (pat repl : string) (x : string) :
  forall before s,
  replace_from pat repl before (x +:+ s) (String.length x)
  = replace_from pat repl (before +:+ x) s 0.
Proof.
  induction x as [|c x IH]; intros before s.
  - rewrite append_nil_r. reflexivity.
  - rewrite append_cons. cbn [String.length replace_from]. rewrite IH.
    rewrite append_assoc. reflexivity.
Qed.

(** The pattern occurs once: the text before it has not its first
    character, the text after it has no occurrence. *)
Lemma replace_from_once (p0 : ascii) (pat' repl pre post : string) :
  free_of p0 pre = true ->
  absent (String p0 pat') post = true ->
  forall before,
  replace_from (String p0 pat') repl before (pre +:+ String p0 pat' +:+ post) 0
  = pre +:+ getSubstitution (String p0 pat') (before +:+ pre) post repl +:+ post.
Proof.
  intros Hpre Hpost. induction pre as [|c pre IH]; intros before.
  - rewrite append_nil_r.
    change (EmptyString +:+ String p0 pat' +:+ post) with (String p0 (pat' +:+ post)).
    change (EmptyString +:+ getSubstitution (String p0 pat') before post repl +:+ post)
      with (getSubstitution (String p0 pat') before post repl +:+ post).
    cbn [replace_from].
    change (String p0 (pat' +:+ post)) with (String p0 pat' +:+ post) at 1 2.
    rewrite prefix_append, drop_chars_append.
    replace (String.length (String p0 pat') - 1) with (String.length pat')
      by (cbn [String.length]; lia).
    rewrite replace_from_skip.
    rewrite (replace_from_absent _ _ _ Hpost). reflexivity.
  - cbn [free_of] in Hpre. apply andb_true_iff in Hpre as [Hc Hpre].
    apply negb_true_iff in Hc.
    rewrite !append_cons. cbn [replace_from].
    rewrite (prefix_other_first _ _ _ _ Hc), (IH Hpre).
    rewrite append_assoc. reflexivity.
Qed.

Lemma replace_all_once (p0 : ascii) (pat' repl pre post : string) :
  free_of p0 pre = true ->
  absent (String p0 pat') post = true ->
  replace_all (String p0 pat') repl (pre +:+ String p0 pat' +:+ post)
  = pre +:+ getSubstitution (String p0 pat') pre post repl +:+ post.
Proof. intros Hpre Hpost. unfold replace_all. apply replace_from_once; assumption. Qed.

(** A replacement text without a dollar is inserted as it is. *)
Lemma getSubstitution_append (matched before after t r : string) :
  free_of "$" t = true ->
  getSubstitution matched before after (t +:+ r)
  = t +:+ getSubstitution matched before after r.
Proof.
  induction t as [|c t IH]; intros H; [reflexivity|].
  cbn [free_of] in H. apply andb_true_iff in H as [Hc Ht]. apply negb_true_iff in Hc.
  rewrite !append_cons. cbn [getSubstitution]. rewrite Hc, (IH Ht). reflexivity.
Qed.

Lemma getSubstitution_plain (matched before after t : string) :
  free_of "$" t = true -> getSubstitution matched before after t = t.
Proof.
  intros H. rewrite <- (append_nil_r t) at 1.
  rewrite (getSubstitution_append _ _ _ _ _ H). apply append_nil_r.
Qed.

End ReplaceFacts.

Section PromptFacts.
Import Paths Prompt.

(** Two texts that part ways: neither begins with the other. *)
Lemma prefix_diverges (a b : string) :
  String.prefix a b = false -> String.prefix b a = false ->
  forall rest, String.prefix a (b +:+ rest) = false.
Proof.
  revert b. induction a as [|x a IH]; intros b Hab Hba rest.
  - destruct b; discriminate Hab.
  - destruct b as [|y b]; [discriminate Hba|].
    rewrite append_cons. cbn [String.prefix] in *.
    destruct (ascii_dec x y) as [->|Hne]; [|reflexivity].
    destruct (ascii_dec y y); [|congruence]. apply IH; assumption.
Qed.

(** Another placeholder is not an occurrence of the pattern. *)
Lemma absent_other_placeholder (p0 : ascii) (pat' other rest : string) :
  free_of p0 other = true ->
  String.prefix pat' other = false -> String.prefix other pat' = false ->
  absent (String p0 pat') (String p0 other +:+ rest) = absent (String p0 pat') rest.
Proof.
  intros Hfree Hab Hba. rewrite append_cons. cbn [absent String.prefix].
  destruct (ascii_dec p0 p0); [|congruence].
  rewrite (prefix_diverges _ _ Hab Hba), (absent_free_append _ _ _ _ Hfree). reflexivity.
Qed.

Lemma replace_from_nothing (pat repl before : string) (skip : nat) :
  replace_from pat repl before EmptyString skip = EmptyString.
Proof. reflexivity. Qed.

(** A text without the first character of the pattern is passed over. *)
Lemma replace_from_text (p0 : ascii) (pat' repl s y : string) :
  free_of p0 s = true ->
  forall before,
  replace_from (String p0 pat') repl before (s +:+ y) 0
  = s +:+ replace_from (String p0 pat') repl (before +:+ s) y 0.
Proof.
  intros Hs. induction s as [|c s IH]; intros before.
  - rewrite append_nil_r. reflexivity.
  - cbn [free_of] in Hs. apply andb_true_iff in Hs as [Hc Hs]. apply negb_true_iff in Hc.
    rewrite !append_cons. cbn [replace_from].
    rewrite (prefix_other_first _ _ _ _ Hc), (IH Hs), append_assoc. reflexivity.
Qed.

(** An occurrence of the pattern is replaced. *)
Lemma replace_from_match (p0 : ascii) (pat' repl y before : string) :
  replace_from (String p0 pat') repl before (String p0 pat' +:+ y) 0
  = getSubstitution (String p0 pat') before y repl
    +:+ replace_from (String p0 pat') repl (before +:+ String p0 pat') y 0.
Proof.
  change (String p0 pat' +:+ y) with (String p0 (pat' +:+ y)) at 1.
  cbn [replace_from].
  change (String p0 (pat' +:+ y)) with (String p0 pat' +:+ y).
  rewrite prefix_append, drop_chars_append.
  replace (String.length (String p0 pat') - 1) with (String.length pat')
    by (cbn [String.length]; lia).
  rewrite replace_from_skip, append_assoc. reflexivity.
Qed.

(** Another placeholder is passed over. *)
Lemma replace_from_other (p0 : ascii) (pat' q repl y before : string) :
  free_of p0 q = true ->
  String.prefix pat' q = false -> String.prefix q pat' = false ->
  replace_from (String p0 pat') repl before (String p0 q +:+ y) 0
  = String p0 q +:+ replace_from (String p0 pat') repl (before +:+ String p0 q) y 0.
Proof.
  intros Hq H1 H2. rewrite !append_cons. cbn [replace_from String.prefix].
  destruct (ascii_dec p0 p0); [|congruence].
  rewrite (prefix_diverges _ _ H1 H2), (replace_from_text _ _ _ _ _ Hq), append_assoc.
  reflexivity.
Qed.

Lemma render_cons (p : Piece) (pieces : list Piece) :
  render (p :: pieces) = placeholder p +:+ render pieces.
Proof. reflexivity. Qed.

Lemma render_app (a b : list Piece) : render (a ++ b) = render a +:+ render b.
Proof.
  induction a as [|p a IH]; [reflexivity|].
  change ((p :: a) ++ b) with (p :: (a ++ b)).
  rewrite !render_cons, IH, append_assoc. reflexivity.
Qed.

(** One replacement of [getInitialPrompt] on a template in pieces: every
    occurrence of the placeholder becomes the replacement text. *)
Lemma replace_from_pieces (target : Piece) (repl : string) (pieces : list Piece) :
  is_kind target target = true ->
  plain pieces = true ->
  free_of "$" repl = true ->
  forall before tail,
  replace_from (placeholder target) repl before (render pieces +:+ tail) 0
  = render (set target repl pieces)
    +:+ replace_from (placeholder target) repl (before +:+ render pieces) tail 0.
Proof.
  intros Htarget Hplain Hrepl.
  assert (Hpat : placeholder target = String "{" (name_of target))
    by (destruct target; [discriminate Htarget|reflexivity..]).
  rewrite Hpat. clear Hpat.
  induction pieces as [|p pieces IH]; intros before tail.
  - cbn [render set map fold_right]. rewrite append_nil_r. reflexivity.
  - cbn [plain forallb] in Hplain. apply andb_true_iff in Hplain as [Hp Hplain].
    specialize (IH Hplain).
    change (set target repl (p :: pieces))
      with ((if is_kind target p then Text repl else p) :: set target repl pieces).
    rewrite !render_cons, !append_assoc.
    destruct (is_kind target p) eqn:Hkind.
    + assert (Hsame : placeholder p = String "{" (name_of target))
        by (destruct target, p; try discriminate Hkind; reflexivity).
      rewrite Hsame, replace_from_match, (getSubstitution_plain _ _ _ _ Hrepl), IH.
      rewrite !append_assoc. reflexivity.
    + destruct p as [s| | |].
      * cbn [placeholder]. rewrite (replace_from_text _ _ _ _ _ Hp), IH, !append_assoc.
        reflexivity.
      * destruct target; try discriminate Hkind; try discriminate Htarget;
          cbn [placeholder name_of];
          match goal with
          | |- context [replace_from (String "{" ?n) _ _ _ _] =>
              rewrite (replace_from_other "{" n "current_date}" _ _ _ eq_refl eq_refl eq_refl)
          end;
          cbn [name_of] in IH; rewrite IH, !append_assoc; reflexivity.
      * destruct target; try discriminate Hkind; try discriminate Htarget;
          cbn [placeholder name_of];
          match goal with
          | |- context [replace_from (String "{" ?n) _ _ _ _] =>
              rewrite (replace_from_other "{" n "memory_section}" _ _ _ eq_refl eq_refl eq_refl)
          end;
          cbn [name_of] in IH; rewrite IH, !append_assoc; reflexivity.
      * destruct target; try discriminate Hkind; try discriminate Htarget;
          cbn [placeholder name_of];
          match goal with
          | |- context [replace_from (String "{" ?n) _ _ _ _] =>
              rewrite (replace_from_other "{" n "task}" _ _ _ eq_refl eq_refl eq_refl)
          end;
          cbn [name_of] in IH; rewrite IH, !append_assoc; reflexivity.
Qed.

Lemma replace_all_pieces (target : Piece) (repl : string) (pieces : list Piece) :
  is_kind target target = true ->
  plain pieces = true ->
  free_of "$" repl = true ->
  replace_all (placeholder target) repl (render pieces) = render (set target repl pieces).
Proof.
  intros Htarget Hplain Hrepl. unfold replace_all.
  rewrite <- (append_nil_r (render pieces)) at 1.
  rewrite (replace_from_pieces target repl pieces Htarget Hplain Hrepl).
  rewrite replace_from_nothing. apply append_nil_r.
Qed.

Lemma plain_set (target : Piece) (repl : string) (pieces : list Piece) :
  free_of "{" repl = true -> plain pieces = true -> plain (set target repl pieces) = true.
Proof.
  intros Hrepl. induction pieces as [|p pieces IH]; [reflexivity|].
  cbn [plain forallb set map]. intros H. apply andb_true_iff in H as [Hp H].
  apply andb_true_iff. split; [|apply IH, H].
  destruct (is_kind target p); [exact Hrepl|exact Hp].
Qed.

Lemma render_set_all (date memory task : string) (pieces : list Piece) :
  render (set Task task (set Memory memory (set Date date pieces)))
  = fill date memory task pieces.
Proof.
  induction pieces as [|p pieces IH]; [reflexivity|].
  cbn [set map]. rewrite render_cons. fold (set Date date pieces).
  fold (set Memory memory (set Date date pieces)).
  fold (set Task task (set Memory memory (set Date date pieces))).
  rewrite IH. destruct p; reflexivity.
Qed.

(** Without the task, the template is a text without a brace once the date
    and the memory are in. *)
Lemma render_set_no_task (date memory : string) (pieces : list Piece) :
  no_task pieces = true ->
  render (set Memory memory (set Date date pieces)) = fill date memory EmptyString pieces.
Proof.
  induction pieces as [|p pieces IH]; [reflexivity|].
  cbn [no_task forallb]. intros H. apply andb_true_iff in H as [Hp H].
  cbn [set map]. rewrite render_cons. fold (set Date date pieces).
  fold (set Memory memory (set Date date pieces)).
  rewrite (IH H). destruct p; try reflexivity. discriminate Hp.
Qed.

Lemma fill_free (date memory : string) (pieces : list Piece) :
  free_of "{" date = true -> free_of "{" memory = true ->
  no_task pieces = true -> plain pieces = true ->
  free_of "{" (fill date memory EmptyString pieces) = true.
Proof.
  intros Hd Hm. induction pieces as [|p pieces IH]; [reflexivity|].
  cbn [no_task plain forallb]. intros Ht Hp.
  apply andb_true_iff in Ht as [Ht1 Ht]. apply andb_true_iff in Hp as [Hp1 Hp].
  change (fill date memory EmptyString (p :: pieces))
    with (match p with Text t => t | Date => date | Memory => memory | Task => EmptyString end
          +:+ fill date memory EmptyString pieces).
  rewrite free_of_append, (IH Ht Hp), andb_true_r.
  destruct p; first [assumption|discriminate Ht1].
Qed.

Lemma set_app (target : Piece) (repl : string) (a b : list Piece) :
  set target repl (a ++ b) = set target repl a ++ set target repl b.
Proof. apply map_app. Qed.

Lemma plain_app (a b : list Piece) : plain (a ++ b) = plain a && plain b.
Proof. apply forallb_app. Qed.

(** The three replacements of [getInitialPrompt] without memory, for a
    template in pieces. *)
Lemma initial_prompt_filled (tp : Templates) (isoString task : string)
    (pieces : list Piece) :
  template_of_form tp isoString pieces ->
  free_of "$" task = true ->
  getInitialPrompt tp isoString task None
  = fill (currentDate_of isoString) EmptyString task pieces.
Proof.
  intros (Htemplate & Hplain & Hdate & Hdollar) Htask.
  unfold getInitialPrompt. rewrite Htemplate.
  change "{current_date}" with (placeholder Date).
  change "{memory_section}" with (placeholder Memory).
  change "{task}" with (placeholder Task).
  rewrite (replace_all_pieces Date _ _ eq_refl Hplain Hdollar).
  rewrite (replace_all_pieces Memory EmptyString _ eq_refl
             (plain_set Date _ _ Hdate Hplain) eq_refl).
  rewrite (replace_all_pieces Task task _ eq_refl
             (plain_set Memory EmptyString _ eq_refl (plain_set Date _ _ Hdate Hplain)) Htask).
  apply render_set_all.
Qed.

(** The same for a template that names the task once, and any task. *)
Lemma initial_prompt_shape (tp : Templates) (isoString task : string)
    (before after : list Piece) :
  template_of_form tp isoString (before ++ Task :: after) ->
  no_task before = true -> no_task after = true ->
  let pre := fill (currentDate_of isoString) EmptyString EmptyString before in
  let post := fill (currentDate_of isoString) EmptyString EmptyString after in
  getInitialPrompt tp isoString task None
  = pre +:+ getSubstitution "{task}" pre post task +:+ post.
Proof.
  intros (Htemplate & Hplain & Hdate & Hdollar) Hbefore Hafter pre post.
  unfold getInitialPrompt. rewrite Htemplate.
  change "{current_date}" with (placeholder Date).
  change "{memory_section}" with (placeholder Memory).
  rewrite (replace_all_pieces Date _ _ eq_refl Hplain Hdollar).
  rewrite (replace_all_pieces Memory EmptyString _ eq_refl
             (plain_set Date _ _ Hdate Hplain) eq_refl).
  rewrite !set_app.
  change (set Memory EmptyString (set Date (currentDate_of isoString) (Task :: after)))
    with (Task :: set Memory EmptyString (set Date (currentDate_of isoString) after)).
  rewrite render_app, render_cons.
  rewrite !render_set_no_task by assumption. fold pre post.
  rewrite plain_app in Hplain. apply andb_true_iff in Hplain as [Hpb Hpa].
  cbn [plain forallb] in Hpa. fold (plain after) in Hpa.
  cbn [placeholder name_of].
  apply replace_all_once.
  - apply fill_free; [exact Hdate|reflexivity|exact Hbefore|exact Hpb].
  - apply absent_free, fill_free; [exact Hdate|reflexivity|exact Hafter|exact Hpa].
Qed.

End PromptFacts.

(** X16.  The first user message carries the task as it was typed.  For a
    template made of texts without a brace and of the placeholders
    [{current_date}], [{memory_section}] and [{task}], in any order and any
    number, a date stamp with neither a brace nor a dollar, and a task
    without a dollar sign, [getInitialPrompt] (without memory, as the runner
    calls it) gives the template with the date stamp in the place of every
    [{current_date}], nothing in the place of [{memory_section}], and the
    task in the place of every [{task}]. *)
Theorem initial_prompt_carries_the_task (tp : Templates) (isoString task : string)
    (pieces : list Prompt.Piece) :
  Prompt.template_of_form tp isoString pieces ->
  Paths.free_of "$" task = true ->
  getInitialPrompt tp isoString task None
  = Prompt.fill (currentDate_of isoString) EmptyString task pieces.
Proof. apply initial_prompt_filled. Qed.

Lemma initial_prompt_carries_the_task_witness :
  getInitialPrompt
    {| platform := "linux"; system_txt := "You work in {cwd} on {osName}.";
       initial_prompt_txt := "Task: {task} [{current_date}] {memory_section}({task})" |}
    "2023-11-14T22:13:20.000Z" "list the files in {cwd}" None
  = "Task: list the files in {cwd} [2023-11-14 22:13:20] (list the files in {cwd})".
Proof.
  apply (initial_prompt_carries_the_task
           {| platform := "linux"; system_txt := "You work in {cwd} on {osName}.";
              initial_prompt_txt :=
                "Task: {task} [{current_date}] {memory_section}({task})" |}
           "2023-11-14T22:13:20.000Z" "list the files in {cwd}"
           [Prompt.Text "Task: "; Prompt.Task; Prompt.Text " ["; Prompt.Date;
            Prompt.Text "] "; Prompt.Memory; Prompt.Text "("; Prompt.Task;
            Prompt.Text ")"]).
  - repeat split; reflexivity.
  - reflexivity.
Defined.

(** X17.  A dollar sign in the task is read as a replacement pattern by the
    last replacement of [getInitialPrompt].  For a template made of texts
    without a brace and of placeholders, that names the task once (the date
    and the memory anywhere, in any number), and a date stamp with neither a
    brace nor a dollar: the prompt is what comes before the task, the
    expansion of the task, and what comes after it.  In particular, in a task
    made of a text without a dollar, one pattern and another text without a
    dollar, [$$] reaches the model as one dollar, [$&] as the text [{task}],
    and the two other patterns as the part of the prompt before the task and
    as the part after it. *)
Theorem dollar_patterns_in_the_task_are_expanded (tp : Templates) (isoString : string)
    (before after : list Prompt.Piece) :
  Prompt.template_of_form tp isoString (before ++ Prompt.Task :: after) ->
  Prompt.no_task before = true ->
  Prompt.no_task after = true ->
  let pre := Prompt.fill (currentDate_of isoString) EmptyString EmptyString before in
  let post := Prompt.fill (currentDate_of isoString) EmptyString EmptyString after in
  (forall task,
     getInitialPrompt tp isoString task None
     = pre +:+ getSubstitution "{task}" pre post task +:+ post) /\
  (forall t1 t2,
     Paths.free_of "$" t1 = true -> Paths.free_of "$" t2 = true ->
     getInitialPrompt tp isoString (t1 +:+ "$$" +:+ t2) None
     = pre +:+ (t1 +:+ "$" +:+ t2) +:+ post /\
     getInitialPrompt tp isoString (t1 +:+ "$&" +:+ t2) None
     = pre +:+ (t1 +:+ "{task}" +:+ t2) +:+ post /\
     getInitialPrompt tp isoString (t1 +:+ "$`" +:+ t2) None
     = pre +:+ (t1 +:+ pre +:+ t2) +:+ post /\
     getInitialPrompt tp isoString (t1 +:+ "$'" +:+ t2) None
     = pre +:+ (t1 +:+ post +:+ t2) +:+ post).
Proof.
  intros Hform Hbefore Hafter pre post.
  assert (Hshape : forall task,
            getInitialPrompt tp isoString task None
            = pre +:+ getSubstitution "{task}" pre post task +:+ post)
    by (intros task; apply (initial_prompt_shape tp isoString task before after);
        assumption).
  split; [exact Hshape|]. intros t1 t2 H1 H2.
  rewrite !Hshape, !(getSubstitution_append _ _ _ _ _ H1).
  change ("$$" +:+ t2) with (String "$" (String "$" t2)).
  change ("$&" +:+ t2) with (String "$" (String "&" t2)).
  change ("$`" +:+ t2) with (String "$" (String "`" t2)).
  change ("$'" +:+ t2) with (String "$" (String "'" t2)).
  cbn [getSubstitution Ascii.eqb Bool.eqb].
  rewrite !(getSubstitution_plain _ _ _ _ H2).
  repeat split; reflexivity.
Qed.

Lemma dollar_patterns_in_the_task_are_expanded_witness :
  getInitialPrompt
    {| platform := "linux"; system_txt := "You work in {cwd} on {osName}.";
       initial_prompt_txt := "{memory_section}{task} [{current_date}]" |}
    "2023-11-14T22:13:20.000Z" "what does $& mean in sed?" None
  = "what does {task} mean in sed? [2023-11-14 22:13:20]".
Proof.
  apply (proj1 (proj2 (proj2
           (dollar_patterns_in_the_task_are_expanded
              {| platform := "linux"; system_txt := "You work in {cwd} on {osName}.";
                 initial_prompt_txt := "{memory_section}{task} [{current_date}]" |}
              "2023-11-14T22:13:20.000Z"
              [Prompt.Memory] [Prompt.Text " ["; Prompt.Date; Prompt.Text "]"]
              ltac:(repeat split; reflexivity) eq_refl eq_refl)
           "what does " " mean in sed?" eq_refl eq_refl))).
Defined.

Section SystemPromptFacts.
Import Paths.

Lemma replace_all_absent (pat repl s : string) :
  absent pat s = true -> replace_all pat repl s = s.
Proof. intros H. unfold replace_all. apply replace_from_absent, H. Qed.

(** A text without a brace has no placeholder. *)
Lemma replace_all_free (pat' repl s : string) :
  free_of "{" s = true -> replace_all (String "{" pat') repl s = s.
Proof. intros H. apply replace_all_absent, absent_free, H. Qed.

End SystemPromptFacts.

(** X21.  The system prompt names the working directory: for a template
    whose only placeholder is [{cwd}], and a directory whose path has neither
    a brace nor a dollar, [getSystemPrompt] gives the template with the
    directory in the place of the placeholder, whatever the platform. *)
Theorem system_prompt_names_the_directory (tp : Templates) (cwd before after : string) :
  system_txt tp = before +:+ "{cwd}" +:+ after ->
  Paths.free_of "{" before = true ->
  Paths.free_of "{" after = true ->
  Paths.free_of "{" cwd = true ->
  Paths.free_of "$" cwd = true ->
  getSystemPrompt tp cwd = before +:+ cwd +:+ after.
Proof.
  intros Htemplate Hb Ha Hcwd Hplain. unfold getSystemPrompt. rewrite Htemplate.
  assert (Hother : forall name repl,
            String.prefix name "cwd}" = false -> String.prefix "cwd}" name = false ->
            replace_all (String "{" name) repl (before +:+ "{cwd}" +:+ after)
            = before +:+ "{cwd}" +:+ after).
  { intros name repl H1 H2. apply replace_all_absent.
    rewrite (absent_free_append _ _ _ _ Hb).
    rewrite (absent_other_placeholder "{" name "cwd}" _ eq_refl H1 H2).
    apply absent_free, Ha. }
  rewrite (Hother "osName}" _ eq_refl eq_refl).
  rewrite (Hother "platform}" _ eq_refl eq_refl).
  rewrite (Hother "shell}" _ eq_refl eq_refl).
  rewrite (replace_all_once "{" "cwd}" cwd before after Hb (absent_free _ _ _ Ha)).
  rewrite (getSubstitution_plain _ _ _ _ Hplain).
  assert (Hfree : Paths.free_of "{" (before +:+ cwd +:+ after) = true).
  { rewrite !free_of_append, Hb, Hcwd, Ha. reflexivity. }
  rewrite !(replace_all_free _ _ _ Hfree). reflexivity.
Qed.

Lemma system_prompt_names_the_directory_witness :
  getSystemPrompt
    {| platform := "win32"; system_txt := "You work in {cwd}.";
       initial_prompt_txt := "{task}" |}
    "C:\Users\me\project"
  = "You work in C:\Users\me\project.".
Proof.
  apply (system_prompt_names_the_directory
           {| platform := "win32"; system_txt := "You work in {cwd}.";
              initial_prompt_txt := "{task}" |}
           "C:\Users\me\project" "You work in " "."); reflexivity.
Defined.
